(** * athena-to-postgres.js: extraction from Athena and batch loading into Postgres

    A shallow embedding of [src/athena-to-postgres.js].  The script talks to
    two outside services, the Athena client and a Postgres connection pool.
    Both are modelled as state machines supplied by the environment; the
    script itself is written in a small monad that threads the state of the
    two services, records every observable effect in a trace, and
    distinguishes a normal return from a thrown exception.  The two
    unbounded loops of [queryAthena] take a fuel argument; when it runs out
    the outcome is [Pending] and the trace is the prefix produced so far.
    The listener the script registers on the pool (lines 51-54) ends the
    process from outside the module body; it is modelled on top of the run
    of the module body, in [processOf]. *)

From Stdlib Require Import String Ascii List Arith NArith ZArith Lia Bool DecimalString.
Import ListNotations.
Open Scope string_scope.

(** ** JavaScript values used by the script *)

Module Js.

(** [Array.prototype.join]. *)
Fixpoint join (sep : string) (l : list string) : string :=
  match l with
  | [] => ""
  | [x] => x
  | x :: rest => x ++ sep ++ join sep rest
  end.

(** [Array.prototype.map] hands the callback the element and its index. *)
Fixpoint mapi_from {X Y : Type} (f : X -> nat -> Y) (i : nat) (l : list X) : list Y :=
  match l with
  | [] => []
  | x :: rest => f x i :: mapi_from f (S i) rest
  end.

Definition mapi {X Y : Type} (f : X -> nat -> Y) (l : list X) : list Y :=
  mapi_from f 0 l.

(** [String.prototype.substring(n)] with one argument: the characters from
    position [n] on, the empty string when the string is shorter. *)
Fixpoint substring (n : nat) (s : string) : string :=
  match n, s with
  | 0, _ => s
  | S _, EmptyString => EmptyString
  | S m, String _ rest => substring m rest
  end.

(** [Array.prototype.slice(n)] with one argument. *)
Definition slice {X : Type} (n : nat) (l : list X) : list X := skipn n l.

(** A number as the script computes it: [None] is NaN, which is what
    arithmetic on [undefined] gives. *)
Definition num := option nat.

Definition showNat (n : nat) : string := NilEmpty.string_of_uint (Nat.to_uint n).

Definition showNum (n : num) : string :=
  match n with
  | Some k => showNat k
  | None => "NaN"
  end.

(** A string-or-undefined value interpolated into a template or printed. *)
Definition showOpt (s : option string) : string :=
  match s with
  | Some x => x
  | None => "undefined"
  end.

(** Truthiness of a string-or-undefined value: [undefined] and the empty
    string are falsy. *)
Definition truthy (s : option string) : bool :=
  match s with
  | Some x => negb (x =? "")
  | None => false
  end.

End Js.

(** ** Data of the two services *)

Definition error := string.

Inductive result (X : Type) : Type :=
| Ok (x : X)
| Err (e : error).
Arguments Ok {X} x.
Arguments Err {X} e.

(** A cell of a result row: [VarCharValue] is absent for SQL NULL. *)
Record Datum := { VarCharValue : option string }.
Record Row := { Data : list Datum }.

(** The part of a [GetQueryResults] response the script reads. *)
Record QueryResults := { Rows : list Row; NextToken : option string }.

(** The part of a [GetQueryExecution] response the script reads. *)
Record QueryStatus := { State : string; StateChangeReason : option string }.

Record Column := { Name : string }.

(** The input of [StartQueryExecution]. *)
Record StartQueryInput := {
  QueryString : string;
  Database : string;
  Catalog : string;
  OutputLocation : string;
  ResultReuseEnabled : bool
}.

(** A value bound to a placeholder: a string, or [undefined] for NULL. *)
Definition value := option string.

(** An entry of [tablesWithColumns]. *)
Record TableEntry := { athName : string; pgName : string; columns : list string }.

(** ** The statement built by [insertIntoPostgresAsBatch] *)

Module Batch.

(** [rows[0]?.length]. *)
Definition columnsCount (rows : list (list value)) : Js.num :=
  match rows with
  | [] => None
  | row :: _ => Some (length row)
  end.

(** [rowIndex * columnsCount + colIndex + 1]. *)
Definition placeholderIndex (cc : Js.num) (rowIndex colIndex : nat) : Js.num :=
  match cc with
  | Some c => Some (rowIndex * c + colIndex + 1)
  | None => None
  end.

(** The callback of [rows.map] runs once per row, in order; it numbers the
    placeholders of the row and pushes the row's cells on [values].  The
    result is the placeholder numbers row by row and the final [values]. *)
Fixpoint numberRows (cc : Js.num) (rowIndex : nat) (rows : list (list value))
         (values : list value) : list (list Js.num) * list value :=
  match rows with
  | [] => ([], values)
  | row :: rest =>
      let rowPlaceholders := Js.mapi (fun _ colIndex => placeholderIndex cc rowIndex colIndex) row in
      let '(others, values') := numberRows cc (S rowIndex) rest (values ++ row) in
      (rowPlaceholders :: others, values')
  end.

Definition placeholders (rows : list (list value)) : list (list Js.num) :=
  fst (numberRows (columnsCount rows) 0 rows []).

Definition values (rows : list (list value)) : list value :=
  snd (numberRows (columnsCount rows) 0 rows []).

Definition showPlaceholder (n : Js.num) : string := "$" ++ Js.showNum n.

Definition showRow (ps : list Js.num) : string :=
  "(" ++ Js.join ", " (map showPlaceholder ps) ++ ")".

Definition valuePlaceholders (rows : list (list value)) : string :=
  Js.join ", " (map showRow (placeholders rows)).

Definition query (schema tableName : string) (columns : list string)
           (rows : list (list value)) : string :=
  "INSERT INTO " ++ schema ++ "." ++ tableName ++ " (" ++ Js.join ", " columns ++ ") VALUES "
    ++ valuePlaceholders rows.

End Batch.

(** ** The environment: configuration and the two services *)

(** The values the script reads from the process environment. *)
Record Config := {
  DB_NAME : string;
  CATALOG_NAME : string;
  ATHENA_OUTPUT_S3_BUCKET : string;
  DB_SCHEMA : string
}.

(** What [client.send] answers to each of the four commands, as a state
    machine over a state [A] the script cannot see. *)
Record Athena (A : Type) := {
  getTableMetadata : A -> string -> string -> string -> A * result (list Column);
  startQueryExecution : A -> StartQueryInput -> A * result string;
  getQueryExecution : A -> string -> A * result QueryStatus;
  getQueryResults : A -> string -> option string -> A * result QueryResults
}.
Arguments getTableMetadata {A}.
Arguments startQueryExecution {A}.
Arguments getQueryExecution {A}.
Arguments getQueryResults {A}.

(** The connection pool: [pgPool.connect()], [client.query(text, values)]
    (answering the row count) and [client.release()]. *)
Record PgPool (P : Type) := {
  connect : P -> P * result unit;
  runQuery : P -> string -> list value -> P * result nat;
  release : P -> P
}.
Arguments connect {P}.
Arguments runQuery {P}.
Arguments release {P}.

(** ** Observable effects *)

Inductive event :=
| EvLog (args : list string)
| EvGetTableMetadata (catalog db table : string) (r : result (list Column))
| EvStartQueryExecution (input : StartQueryInput) (r : result string)
| EvGetQueryExecution (id : string) (r : result QueryStatus)
| EvGetQueryResults (id : string) (nextToken : option string) (r : result QueryResults)
| EvSleep (ms : nat)
| EvConnect (r : result unit)
| EvQuery (text : string) (vals : list value) (r : result nat)
| EvRelease
(* call markers: no effect of their own, they record an entry into a function *)
| EvCallQueryAthena (athTableName pgTableName : string) (cols : list string)
| EvCallInsertBatch (tableName : string) (cols : list string) (rows : list (list value)).

(** How a computation ends: it returns, it throws, or it is still inside a
    loop when the fuel is used up. *)
Inductive outcome (X : Type) : Type :=
| Returned (x : X)
| Thrown (e : error)
| Pending.
Arguments Returned {X} x.
Arguments Thrown {X} e.
Arguments Pending {X}.

Record Run (W X : Type) := {
  trace : list event;
  world : W;
  out : outcome X
}.
Arguments trace {W X}.
Arguments world {W X}.
Arguments out {W X}.

(** ** The script *)

Section Script.

Context {A P : Type}.
Variable cfg : Config.
Variable athena : Athena A.
Variable pool : PgPool P.

Definition World : Type := A * P.

Definition M (X : Type) : Type := World -> Run World X.

Definition ret {X} (x : X) : M X :=
  fun w => {| trace := []; world := w; out := Returned x |}.

Definition pending {X} : M X :=
  fun w => {| trace := []; world := w; out := Pending |}.

Definition bind {X Y} (m : M X) (k : X -> M Y) : M Y :=
  fun w =>
    let r := m w in
    match out r with
    | Returned x =>
        let r' := k x (world r) in
        {| trace := trace r ++ trace r'; world := world r'; out := out r' |}
    | Thrown e => {| trace := trace r; world := world r; out := Thrown e |}
    | Pending => {| trace := trace r; world := world r; out := Pending |}
    end.

Notation "x <- m ;; k" := (bind m (fun x => k))
  (at level 61, m at next level, right associativity).
Notation "m ;; k" := (bind m (fun _ => k))
  (at level 61, right associativity).

Definition emit (e : event) : M unit :=
  fun w => {| trace := [e]; world := w; out := Returned tt |}.

(** [console.log] and [console.error] are the same function in this
    script (line 24); the arguments are joined by [util.format]. *)
Definition log (args : list string) : M unit := emit (EvLog args).

Definition fromResult {X} (r : result X) : outcome X :=
  match r with
  | Ok x => Returned x
  | Err e => Thrown e
  end.

(** [try { body } catch (error) { handler(error) } finally { finalizer }].
    The finalizer of this script never throws and returns nothing. *)
Definition tryCatchFinally (body : M unit) (handler : error -> M unit)
           (finalizer : M unit) : M unit :=
  fun w =>
    let r := body w in
    match out r with
    | Returned _ =>
        let f := finalizer (world r) in
        {| trace := trace r ++ trace f; world := world f; out := out f |}
    | Thrown e =>
        let h := handler e (world r) in
        let f := finalizer (world h) in
        {| trace := trace r ++ trace h ++ trace f; world := world f;
           out := match out f with
                  | Returned _ => out h
                  | o => o
                  end |}
    | Pending => {| trace := trace r; world := world r; out := Pending |}
    end.

(** *** The commands sent to Athena inside [queryAthena] *)

Definition sendStartQueryExecution (input : StartQueryInput) : M string :=
  fun w =>
    let '(a, r) := startQueryExecution athena (fst w) input in
    {| trace := [EvStartQueryExecution input r]; world := (a, snd w);
       out := fromResult r |}.

Definition sendGetQueryExecution (id : string) : M QueryStatus :=
  fun w =>
    let '(a, r) := getQueryExecution athena (fst w) id in
    {| trace := [EvGetQueryExecution id r]; world := (a, snd w);
       out := fromResult r |}.

Definition sendGetQueryResults (id : string) (nextToken : option string) : M QueryResults :=
  fun w =>
    let '(a, r) := getQueryResults athena (fst w) id nextToken in
    {| trace := [EvGetQueryResults id nextToken r]; world := (a, snd w);
       out := fromResult r |}.

(** *** The pool *)

Definition poolConnect : M unit :=
  fun w =>
    let '(p, r) := connect pool (snd w) in
    {| trace := [EvConnect r]; world := (fst w, p); out := fromResult r |}.

Definition clientQuery (text : string) (vals : list value) : M nat :=
  fun w =>
    let '(p, r) := runQuery pool (snd w) text vals in
    {| trace := [EvQuery text vals r]; world := (fst w, p); out := fromResult r |}.

Definition clientRelease : M unit :=
  fun w => {| trace := [EvRelease]; world := (fst w, release pool (snd w));
              out := Returned tt |}.

(** [setTimeout] of the polling loop. *)
Definition sleep (ms : nat) : M unit := emit (EvSleep ms).

(** *** insertIntoPostgresAsBatch (lines 147-167) *)

Definition insertIntoPostgresAsBatch (tableName : string) (cols : list string)
           (rows : list (list value)) : M unit :=
  emit (EvCallInsertBatch tableName cols rows) ;;
  log ["Number of rows inserting to " ++ tableName ++ ": " ++ Js.showNat (length rows)] ;;
  let values := Batch.values rows in
  let query := Batch.query (DB_SCHEMA cfg) tableName cols rows in
  poolConnect ;;
  tryCatchFinally
    (rowCount <- clientQuery query values ;;
     log ["Inserted " ++ Js.showNat rowCount ++ " rows into " ++ tableName])
    (fun error => log ["Error while inserting into Postgres table " ++ tableName; error])
    clientRelease.

(** *** queryAthena (lines 94-145) *)

(** [row => row.Data.map(data => data.VarCharValue)]. *)
Definition cells (row : Row) : list value := map VarCharValue (Data row).

(** The rows of one page as line 131-135 compute them. *)
Definition pageRows (nextToken : option string) (resultsResponse : QueryResults)
  : list (list value) :=
  if negb (Js.truthy nextToken)
  then map cells (Js.slice 1 (Rows resultsResponse))
  else [] ++ map cells (Rows resultsResponse).

(** The [do ... while (nextToken)] loop of lines 124-138. *)
Fixpoint fetchPages (fuel : nat) (id pgTableName : string) (cols : list string)
         (nextToken : option string) : M unit :=
  match fuel with
  | 0 => pending
  | S fuel' =>
      resultsResponse <- sendGetQueryResults id nextToken ;;
      let rows := pageRows nextToken resultsResponse in
      let nextToken' := NextToken resultsResponse in
      insertIntoPostgresAsBatch pgTableName cols rows ;;
      if Js.truthy nextToken'
      then fetchPages fuel' id pgTableName cols nextToken'
      else ret tt
  end.

(** The [while (true)] loop of lines 114-143. *)
Fixpoint pollExecution (fuel : nat) (id pgTableName : string) (cols : list string)
  : M unit :=
  match fuel with
  | 0 => pending
  | S fuel' =>
      response <- sendGetQueryExecution id ;;
      if State response =? "FAILED" then
        log ["Query Failed. "; Js.showOpt (StateChangeReason response)]
      else if State response =? "SUCCEEDED" then
        log ["Query Succeeded. Now fetching results..."] ;;
        fetchPages fuel' id pgTableName cols None
      else
        sleep 5000 ;;
        pollExecution fuel' id pgTableName cols
  end.

Definition dashes : string := "----------------------".

Definition newline : string := String (ascii_of_nat 10) "".

Definition startQueryInput (athTableName : string) (cols : list string) : StartQueryInput :=
  {| QueryString := "SELECT " ++ Js.join ", " cols ++ " FROM " ++ athTableName;
     Database := DB_NAME cfg;
     Catalog := CATALOG_NAME cfg;
     OutputLocation := ATHENA_OUTPUT_S3_BUCKET cfg;
     ResultReuseEnabled := true |}.

Definition queryAthena (fuel : nat) (athTableName pgTableName : string)
           (cols : list string) : M unit :=
  emit (EvCallQueryAthena athTableName pgTableName cols) ;;
  log [dashes ++ " Querying Athena for " ++ athTableName ++ " " ++ dashes] ;;
  id <- sendStartQueryExecution (startQueryInput athTableName cols) ;;
  pollExecution fuel id pgTableName cols ;;
  log [dashes ++ " Finished querying Athena for " ++ athTableName ++ " " ++ dashes ++ " " ++ newline].

(** *** insertTablesInOrder (lines 73-91) *)

(** The callback of [glueTableNameList.map]: an async function runs up to
    its first [await], so every request is sent, in list order, before any
    answer is looked at; each call settles to a fulfilled or a rejected
    promise. *)
Definition tableEntry (tableName : string) (response : list Column) : TableEntry :=
  {| athName := tableName;
     pgName := Js.substring 6 tableName;
     columns := map Name response |}.

Fixpoint requestMetadata (tables : list string) (w : World)
  : list event * World * list (result TableEntry) :=
  match tables with
  | [] => ([], w, [])
  | tableName :: rest =>
      let '(a, r) := getTableMetadata athena (fst w) (CATALOG_NAME cfg) (DB_NAME cfg) tableName in
      let settled := match r with
                     | Ok response => Ok (tableEntry tableName response)
                     | Err e => Err e
                     end in
      let '(t, w', others) := requestMetadata rest (a, snd w) in
      (EvGetTableMetadata (CATALOG_NAME cfg) (DB_NAME cfg) tableName r :: t, w', settled :: others)
  end.

(** [Promise.all]: the list of values when every promise is fulfilled, a
    rejection otherwise.  The model reports the first rejection in list
    order. *)
Fixpoint promiseAll {X} (settled : list (result X)) : outcome (list X) :=
  match settled with
  | [] => Returned []
  | Err e :: _ => Thrown e
  | Ok x :: rest =>
      match promiseAll rest with
      | Returned xs => Returned (x :: xs)
      | Thrown e => Thrown e
      | Pending => Pending
      end
  end.

Definition resolveTables (tables : list string) : M (list TableEntry) :=
  fun w =>
    let '(t, w', settled) := requestMetadata tables w in
    {| trace := t; world := w'; out := promiseAll settled |}.

(** [for (const table of tablesWithColumns) await queryAthena(...)]. *)
Fixpoint forEachTable (fuel : nat) (tablesWithColumns : list TableEntry) : M unit :=
  match tablesWithColumns with
  | [] => ret tt
  | table :: rest =>
      queryAthena fuel (athName table) (pgName table) (columns table) ;;
      forEachTable fuel rest
  end.

Definition insertTablesInOrderOf (fuel : nat) (tables : list string) : M unit :=
  tablesWithColumns <- resolveTables tables ;;
  forEachTable fuel tablesWithColumns.

(** Line 61. *)
Definition glueTableNameList : list string := ["glue_table1"; "glue_table2"; "glue_table3"].

Definition insertTablesInOrder (fuel : nat) : M unit :=
  insertTablesInOrderOf fuel glueTableNameList.

(** *** The module body (lines 194-198) *)

(** [elapsed] is the printed duration, read off the clock. *)
Definition mainOf (fuel : nat) (tables : list string) (elapsed : string) : M unit :=
  insertTablesInOrderOf fuel tables ;;
  log ["Script completed in " ++ elapsed ++ " seconds."].

Definition main (fuel : nat) (elapsed : string) : M unit :=
  mainOf fuel glueTableNameList elapsed.

End Script.

(** The exit code the module body leaves the Node process with: 0 when it
    runs to its end, 1 when a rejection reaches the top level; nothing while
    the script is still running.  The listener of lines 51-54, which ends
    the process on its own, is part of [processOf] below. *)
Definition exitCode {X} (o : outcome X) : option nat :=
  match o with
  | Returned _ => Some 0
  | Thrown _ => Some 1
  | Pending => None
  end.

(** ** Reading a trace *)

Module Obs.

Fixpoint pick {X Y : Type} (f : X -> option Y) (l : list X) : list Y :=
  match l with
  | [] => []
  | x :: rest =>
      match f x with
      | Some y => y :: pick f rest
      | None => pick f rest
      end
  end.



(** The row sets handed to [insertIntoPostgresAsBatch], call by call. *)
Definition handedRows (e : event) : option (list (list value)) :=
  match e with
  | EvCallInsertBatch _ _ rows => Some rows
  | _ => None
  end.

Definition handed (tr : list event) : list (list (list value)) :=
  pick handedRows tr.

(** The number of rows in a list of row sets. *)
Definition rowCount {X : Type} (pages : list (list X)) : nat :=
  fold_right (fun page n => length page + n) 0 pages.

Definition isRelease (e : event) : bool :=
  match e with EvRelease => true | _ => false end.

Definition isAcquire (e : event) : bool :=
  match e with EvConnect (Ok _) => true | _ => false end.

Definition isQuery (e : event) : bool :=
  match e with EvQuery _ _ _ => true | _ => false end.

Definition releases (tr : list event) : nat := length (filter isRelease tr).
Definition acquisitions (tr : list event) : nat := length (filter isAcquire tr).

(** A call the script does not guard with [try]: any command sent to
    Athena, and [pgPool.connect()]. *)
Definition rejected (e : event) : bool :=
  match e with
  | EvGetTableMetadata _ _ _ (Err _) => true
  | EvStartQueryExecution _ (Err _) => true
  | EvGetQueryExecution _ (Err _) => true
  | EvGetQueryResults _ _ (Err _) => true
  | EvConnect (Err _) => true
  | _ => false
  end.

Definition isMetadata (e : event) : bool :=
  match e with EvGetTableMetadata _ _ _ _ => true | _ => false end.

Definition metadataTable (e : event) : option string :=
  match e with
  | EvGetTableMetadata _ _ table _ => Some table
  | _ => None
  end.

(** The target tables the loader was called for, in order. *)
Definition loadedTable (e : event) : option string :=
  match e with
  | EvCallInsertBatch tableName _ _ => Some tableName
  | _ => None
  end.

Definition loaded (tr : list event) : list string := pick loadedTable tr.

(** The source tables [queryAthena] was entered for, in order. *)
Definition queriedTable (e : event) : option string :=
  match e with
  | EvCallQueryAthena athTableName _ _ => Some athTableName
  | _ => None
  end.

Definition queried (tr : list event) : list string := pick queriedTable tr.

Definition isFetch (e : event) : bool :=
  match e with EvGetQueryResults _ _ _ => true | _ => false end.

Definition isSubmit (e : event) : bool :=
  match e with EvStartQueryExecution _ _ => true | _ => false end.

(** What the Athena side of a run looks like: the commands sent with
    their answers, and the calls of the two functions of the script. *)
Definition catalogSide (e : event) : bool :=
  match e with
  | EvGetTableMetadata _ _ _ _ | EvStartQueryExecution _ _
  | EvGetQueryExecution _ _ | EvGetQueryResults _ _ _
  | EvCallQueryAthena _ _ _ | EvCallInsertBatch _ _ _ => true
  | _ => false
  end.

End Obs.

(** ** The process and the listener of the pool (lines 51-54)

    The script registers one listener on the pool, for its 'error' event:
    it logs the error and ends the process with [process.exit(-1)].  The
    pool emits the event when a client that sits idle in it fails; whether
    and when that happens is up to the environment. *)









(** ** Scripted services for the scenarios *)

Module Scenario.

(** A catalog whose answers are fixed in advance.  The state is the number
    of status polls answered since the last submission; the n-th poll of
    an execution reads the n-th entry of its status list and RUNNING
    beyond it. *)
Record Fixed := {
  tableColumns : string -> result (list Column);
  submission : StartQueryInput -> result string;
  statuses : string -> list QueryStatus;
  pagesOf : string -> option string -> result QueryResults
}.

Definition running : QueryStatus := {| State := "RUNNING"; StateChangeReason := None |}.
Definition succeeded : QueryStatus := {| State := "SUCCEEDED"; StateChangeReason := None |}.
Definition failed (reason : string) : QueryStatus :=
  {| State := "FAILED"; StateChangeReason := Some reason |}.

Definition athenaOf (c : Fixed) : Athena nat :=
  {| getTableMetadata := fun n _ _ table => (n, tableColumns c table);
     startQueryExecution := fun _ input => (0, submission c input);
     getQueryExecution := fun n id => (S n, Ok (nth n (statuses c id) running));
     getQueryResults := fun n id nextToken => (n, pagesOf c id nextToken) |}.

(** A pool that always hands out a connection; the state is the number of
    connections checked out. *)
Definition poolOf (answer : string -> list value -> result nat) : PgPool nat :=
  {| connect := fun n => (S n, Ok tt);
     runQuery := fun n text vals => (n, answer text vals);
     release := fun n => pred n |}.

(** The number of opening parentheses of a statement text. *)
Fixpoint opened (text : string) : nat :=
  match text with
  | EmptyString => 0
  | String c rest => (if Ascii.eqb c "("%char then 1 else 0) + opened rest
  end.

(** Postgres rejects a statement that has no tuple after VALUES; a
    statement with tuples is accepted here, and the answer counts the
    tuples (the parentheses after the one of the column list). *)
Definition postgres (text : string) (vals : list value) : result nat :=
  match opened text with
  | 0 | 1 => Err "syntax error at end of input"
  | S n => Ok n
  end.

Definition uniqueViolation (text : string) (vals : list value) : result nat :=
  Err "duplicate key value violates unique constraint".

Definition config : Config :=
  {| DB_NAME := "backup"; CATALOG_NAME := "AwsDataCatalog";
     ATHENA_OUTPUT_S3_BUCKET := "s3://out/"; DB_SCHEMA := "public" |}.

Definition row (cs : list string) : Row :=
  {| Data := map (fun c => {| VarCharValue := Some c |}) cs |}.

Definition idName : list Column := [{| Name := "id" |}; {| Name := "name" |}].

(** Two pages: the header and two rows with a continuation token, then one
    row without. *)
Definition accountsPages (id : string) (nextToken : option string) : result QueryResults :=
  match nextToken with
  | None => Ok {| Rows := [row ["id"; "name"]; row ["1"; "alice"]; row ["2"; "bob"]];
                  NextToken := Some "t1" |}
  | Some _ => Ok {| Rows := [row ["3"; "carol"]]; NextToken := None |}
  end.

Definition accounts : Fixed :=
  {| tableColumns := fun _ => Ok idName;
     submission := fun _ => Ok "q1";
     statuses := fun _ => [running; succeeded];
     pagesOf := accountsPages |}.

(** SUBMITTED, RUNNING, RUNNING, then FAILED with a reason. *)
Definition syntaxError : Fixed :=
  {| tableColumns := fun _ => Ok idName;
     submission := fun _ => Ok "q1";
     statuses := fun _ => [{| State := "SUBMITTED"; StateChangeReason := None |};
                           running; running; failed "syntax error"];
     pagesOf := accountsPages |}.

(** The catalog refuses the query of the first table at submission. *)
Definition refusesFirst : Fixed :=
  {| tableColumns := fun _ => Ok idName;
     submission := fun input =>
       if QueryString input =? "SELECT id, name FROM glue_table1"
       then Err "AccessDeniedException" else Ok "q1";
     statuses := fun _ => [succeeded];
     pagesOf := accountsPages |}.

(** A table without rows: the only page holds the header alone. *)
Definition emptyTable : Fixed :=
  {| tableColumns := fun _ => Ok idName;
     submission := fun _ => Ok "q1";
     statuses := fun _ => [succeeded];
     pagesOf := fun _ _ => Ok {| Rows := [row ["id"; "name"]]; NextToken := None |} |}.

Definition start : nat * nat := (0, 0).

(** The run of [queryAthena] over the two pages of [accounts]. *)
Definition accountsRun : Run (nat * nat) unit :=
  queryAthena config (athenaOf accounts) (poolOf postgres) 5
              "src_accounts" "accounts" ["id"; "name"] start.

End Scenario.

(** ** Vocabulary of the statements *)

(** The numbers given to the placeholders of row [i], [n] cells wide. *)
Definition rowNumbers (c i n : nat) : list Js.num :=
  map (fun col => Some (i * c + col + 1)) (seq 0 n).

(** Every row is [C] cells wide. *)
Definition rectangular (C : nat) (rows : list (list value)) : Prop :=
  Forall (fun row => length row = C) rows.

(** Every event of every run of [m] satisfies [Q]. *)
Definition Always {A P X : Type} (Q : event -> Prop) (m : @M A P X) : Prop :=
  forall w, Forall Q (trace (m w)).

(** The two events every call of [insertIntoPostgresAsBatch] starts with. *)
Definition entering (tableName : string) (cols : list string) (rows : list (list value))
  : list event :=
  [EvCallInsertBatch tableName cols rows;
   EvLog ["Number of rows inserting to " ++ tableName ++ ": " ++ Js.showNat (length rows)]].





(** The error a call raises when it is rejected: the calls of [Obs.rejected]. *)
Definition raised (e : event) : option error :=
  match e with
  | EvGetTableMetadata _ _ _ (Err x) => Some x
  | EvStartQueryExecution _ (Err x) => Some x
  | EvGetQueryExecution _ (Err x) => Some x
  | EvGetQueryResults _ _ (Err x) => Some x
  | EvConnect (Err x) => Some x
  | _ => None
  end.

Definition calm (tr : list event) : Prop := Forall (fun e => raised e = None) tr.

(** A run in which a rejected call is the last thing that happens and its
    error is the outcome, and in which nothing else is thrown. *)
Definition abrupt {W X : Type} (r : Run W X) : Prop :=
  match out r with
  | Thrown x => exists before ev, trace r = (before ++ [ev])%list
                                  /\ raised ev = Some x /\ calm before
  | _ => calm (trace r)
  end.

Definition Abrupt {A P X : Type} (m : @M A P X) : Prop := forall w, abrupt (m w).

(** The statement text for a batch without rows. *)
Definition emptyInsert (schema tableName : string) (cols : list string) : string :=
  "INSERT INTO " ++ schema ++ "." ++ tableName ++ " (" ++ Js.join ", " cols ++ ") VALUES ".

(** The run of [queryAthena] over a table without rows. *)
Definition emptyTableRun : Run (nat * nat) unit :=
  queryAthena Scenario.config (Scenario.athenaOf Scenario.emptyTable)
              (Scenario.poolOf Scenario.postgres) 5
              "src_accounts" "accounts" ["id"; "name"] Scenario.start.

(** The exit code a finished run must have by its trace: 1 when a call the
    script does not guard was rejected, 0 otherwise. *)
Definition exitCodeByTrace (tr : list event) : nat :=
  if existsb Obs.rejected tr then 1 else 0.


Definition refusedRun : Run (nat * nat) unit :=
  main Scenario.config (Scenario.athenaOf Scenario.refusesFirst)
       (Scenario.poolOf Scenario.postgres) 10 "1.5" (0, 0).

Definition refusedInput : StartQueryInput :=
  startQueryInput Scenario.config "glue_table1" ["id"; "name"].

(** The events of one call of the loader for table [pg] with columns [cols]. *)
Definition loaderEvent (schema pg : string) (cols : list string) (e : event) : Prop :=
  match e with
  | EvCallInsertBatch tableName c _ => tableName = pg /\ c = cols
  | EvQuery text vals _ =>
      exists rows, text = Batch.query schema pg cols rows /\ vals = Batch.values rows
  | EvLog _ | EvConnect _ | EvRelease => True
  | _ => False
  end.

(** The events of the paging loop. *)
Definition pagingEvent (schema pg : string) (cols : list string) (e : event) : Prop :=
  match e with
  | EvGetQueryResults _ _ _ => True
  | _ => loaderEvent schema pg cols e
  end.

(** The events of [queryAthena] for source table [t] and target table
    [pg], after the entry into the function. *)
Definition insideEvent (cfg : Config) (t pg : string) (cols : list string) (e : event) : Prop :=
  match e with
  | EvStartQueryExecution input _ => input = startQueryInput cfg t cols
  | EvGetQueryExecution _ _ | EvSleep _ => True
  | _ => pagingEvent (DB_SCHEMA cfg) pg cols e
  end.

Definition tableEvent (cfg : Config) (t pg : string) (cols : list string) (e : event) : Prop :=
  match e with
  | EvCallQueryAthena a p c => a = t /\ p = pg /\ c = cols
  | _ => insideEvent cfg t pg cols e
  end.

(** What the run shows of table names: every call of [queryAthena], every
    call of the loader and every statement names as its target a
    configured source name without its first six characters. *)
Definition targetsCutName (schema : string) (tables : list string) (e : event) : Prop :=
  match e with
  | EvCallQueryAthena a p _ => In a tables /\ p = Js.substring 6 a
  | EvCallInsertBatch tableName _ _ =>
      exists t, In t tables /\ tableName = Js.substring 6 t
  | EvQuery text _ _ =>
      exists t cols rows,
        In t tables /\ text = Batch.query schema (Js.substring 6 t) cols rows
  | _ => True
  end.

(** A stretch of the trace that is one whole run of [queryAthena] for
    source table [t]. *)
Definition segmentOf {A P : Type} (cfg : Config) (athena : Athena A) (pool : PgPool P)
           (fuel : nat) (t : string) (seg : list event) : Prop :=
  exists cols w, seg = trace (queryAthena cfg athena pool fuel t (Js.substring 6 t) cols w).

(** What the script logs when a poll answers FAILED, and when it leaves
    [queryAthena]. *)
Definition failedLog (reason : option string) : event :=
  EvLog ["Query Failed. "; Js.showOpt reason].

Definition finishedLog (athTableName : string) : event :=
  EvLog [dashes ++ " Finished querying Athena for " ++ athTableName ++ " " ++ dashes
           ++ " " ++ newline].

(** [queryAthena] for the first table of the scenario whose query fails. *)
Definition syntaxErrorTableRun : Run (nat * nat) unit :=
  queryAthena Scenario.config (Scenario.athenaOf Scenario.syntaxError)
              (Scenario.poolOf Scenario.postgres) 10
              "glue_table1" "able1" ["id"; "name"] Scenario.start.

(** What a run shows on the side of the catalog: the commands sent with
    their answers and the calls of the two functions, the state the catalog
    is left in, and the outcome. *)
Definition catalogView {A P X : Type} (r : Run (@World A P) X) : list event * A * outcome X :=
  (filter Obs.catalogSide (trace r), fst (world r), out r).

(** Two computations over different pools that look the same from the
    catalog, whatever the states of the pools. *)
Definition Sim {A P P' X : Type} (m : @M A P X) (m' : @M A P' X) : Prop :=
  forall a p p', catalogView (m (a, p)) = catalogView (m' (a, p')).

(** A pool that hands out a connection whenever asked. *)
Definition alwaysConnects {P : Type} (pool : PgPool P) : Prop :=
  forall p, snd (connect pool p) = Ok tt.

(** The whole script over the two pages of [accounts], with a database that
    accepts every batch and with one that rejects every batch. *)
Definition acceptedRun : Run (nat * nat) unit :=
  main Scenario.config (Scenario.athenaOf Scenario.accounts)
       (Scenario.poolOf Scenario.postgres) 5 "1.5" (0, 0).

Definition violatedRun : Run (nat * nat) unit :=
  main Scenario.config (Scenario.athenaOf Scenario.accounts)
       (Scenario.poolOf Scenario.uniqueViolation) 5 "1.5" (0, 0).


(** * The rest of the script *)

(** ** insertIntoPostgres (lines 175-191) *)

Section RowByRow.

Context {A P : Type}.
Variable cfg : Config.
Variable pool : PgPool P.

(** [columns.map((_, idx) => `$${idx + 1}`)]: the numbers, then the text. *)
Definition rowNumbering (cols : list string) : list nat :=
  Js.mapi (fun _ idx => idx + 1) cols.

Definition rowPlaceholders (cols : list string) : string :=
  Js.join ", " (Js.mapi (fun _ idx => "$" ++ Js.showNat (idx + 1)) cols).

Definition rowQuery (tableName : string) (cols : list string) : string :=
  "INSERT INTO " ++ DB_SCHEMA cfg ++ "." ++ tableName ++ " (" ++ Js.join ", " cols
    ++ ") VALUES (" ++ rowPlaceholders cols ++ ")".

(** The body of the loop for one row. *)
Definition insertRow (tableName : string) (cols : list string) (row : list value)
  : @M A P unit :=
  let query := rowQuery tableName cols in
  bind (poolConnect pool) (fun _ =>
  tryCatchFinally
    (bind (clientQuery pool query row) (fun _ => ret tt))
    (fun error => log ["Error while inserting into Postgres"; error])
    (clientRelease pool)).

(** [for (const row of rows) { ... }]. *)
Fixpoint forEachRow (tableName : string) (cols : list string) (rows : list (list value))
  : @M A P unit :=
  match rows with
  | [] => ret tt
  | row :: rest =>
      bind (insertRow tableName cols row) (fun _ => forEachRow tableName cols rest)
  end.

Definition insertIntoPostgres (tableName : string) (cols : list string)
           (rows : list (list value)) : @M A P unit :=
  bind (log ["Number of rows inserting to " ++ tableName ++ ": " ++ Js.showNat (length rows)])
       (fun _ =>
  bind (forEachRow tableName cols rows) (fun _ =>
  log ["Inserted " ++ Js.showNat (length rows) ++ " rows into " ++ tableName])).

End RowByRow.

(** ** More readings of a trace *)

Module Seen.

(** The statements sent, each with its parameter array. *)
Definition statement (e : event) : option (string * list value) :=
  match e with
  | EvQuery text vals _ => Some (text, vals)
  | _ => None
  end.

Definition statements (tr : list event) : list (string * list value) :=
  Obs.pick statement tr.

(** The statements the database rejected. *)
Definition isRejectedStatement (e : event) : bool :=
  match e with
  | EvQuery _ _ (Err _) => true
  | _ => false
  end.





(** The fetches that were answered: the token supplied and the token
    returned. *)
Definition exchange (e : event) : option (option string * option string) :=
  match e with
  | EvGetQueryResults _ nextToken (Ok r) => Some (nextToken, NextToken r)
  | _ => None
  end.

Definition exchanges (tr : list event) : list (option string * option string) :=
  Obs.pick exchange tr.

(** The events that take a connection out of the pool or give it back. *)
Definition isLease (e : event) : bool := Obs.isAcquire e || Obs.isRelease e.

Definition leases (tr : list event) : list event := filter isLease tr.

(** [n] times: a connection is obtained, then released. *)
Fixpoint pairs (n : nat) : list event :=
  match n with
  | 0 => []
  | S k => EvConnect (Ok tt) :: EvRelease :: pairs k
  end.

Definition isPoll (e : event) : bool :=
  match e with EvGetQueryExecution _ _ => true | _ => false end.

Definition isLog (e : event) : bool :=
  match e with EvLog _ => true | _ => false end.

Definition isSleep (e : event) : bool :=
  match e with EvSleep _ => true | _ => false end.

(** The execution a command is about. *)
Definition execution (e : event) : option string :=
  match e with
  | EvGetQueryExecution id _ => Some id
  | EvGetQueryResults id _ _ => Some id
  | _ => None
  end.

End Seen.

(** ** More vocabulary *)

(** A sequence of answered fetches in which the first supplies [tok], every
    further one supplies the token the one before returned, and every
    returned token but the last is present and not empty. *)
Fixpoint chained (tok : option string) (xs : list (option string * option string)) : Prop :=
  match xs with
  | [] => True
  | x :: rest =>
      fst x = tok
      /\ match rest with
         | [] => True
         | _ :: _ => Js.truthy (snd x) = true /\ chained (snd x) rest
         end
  end.

(** The text of the line a run of [insertIntoPostgres] ends with. *)
Definition insertedLog (tableName : string) (n : nat) : event :=
  EvLog ["Inserted " ++ Js.showNat n ++ " rows into " ++ tableName].

(** A computation whose use of the pool is a sequence of leases, each
    given back before the next is taken. *)
Definition leasing (tr : list event) (n : nat) : Prop :=
  Seen.leases tr = Seen.pairs n /\ n <= length (Obs.handed tr).

Definition Leasing {A P X : Type} (m : @M A P X) : Prop :=
  forall w, exists n, leasing (trace (m w)) n.

(** A status that is neither of the two the polling loop looks for. *)
Definition nonTerminal (st : QueryStatus) : Prop :=
  (State st =? "FAILED") = false /\ (State st =? "SUCCEEDED") = false.

(** A catalog that answers every status poll, in every state, with a status
    that is not terminal. *)
Definition neverSettles {A : Type} (athena : Athena A) : Prop :=
  forall a id, exists a' st,
    getQueryExecution athena a id = (a', Ok st) /\ nonTerminal st.

(** [n] polls of execution [id], each followed by the pause of five seconds. *)
Definition isPollThenSleep (id : string) (pair : event * event) : Prop :=
  (exists st, fst pair = EvGetQueryExecution id (Ok st) /\ nonTerminal st)
  /\ snd pair = EvSleep 5000.

Fixpoint flatten (l : list (event * event)) : list event :=
  match l with
  | [] => []
  | (a, b) :: rest => a :: b :: flatten rest
  end.

(** Events of a run of the polling loop for execution [id]: no submission,
    and every poll and fetch is about [id]. *)
Definition aboutExecution (id : string) (e : event) : Prop :=
  match e with
  | EvStartQueryExecution _ _ => False
  | EvGetQueryExecution i _ => i = id
  | EvGetQueryResults i _ _ => i = id
  | _ => True
  end.

(** A catalog whose executions are cancelled: every status poll answers
    CANCELLED.  The state counts the polls. *)
Definition cancelledStatus : QueryStatus :=
  {| State := "CANCELLED"; StateChangeReason := Some "Query cancelled by user" |}.

Definition cancelledAthena : Athena nat :=
  {| getTableMetadata := fun n _ _ _ => (n, Ok Scenario.idName);
     startQueryExecution := fun n _ => (n, Ok "q1");
     getQueryExecution := fun n _ => (S n, Ok cancelledStatus);
     getQueryResults := fun n id nextToken => (n, Scenario.accountsPages id nextToken) |}.

(** Three rows for the table of the scenario, the second without a name. *)
Definition threeRows : list (list value) :=
  [[Some "1"; Some "alice"]; [Some "2"; None]; [Some "3"; Some "carol"]].

(** What one call of [queryAthena] with columns [cols] writes into its two
    kinds of statement. *)
Definition listsColumns (cfg : Config) (t pg : string) (cols : list string) (e : event) : Prop :=
  match e with
  | EvStartQueryExecution input _ =>
      QueryString input = "SELECT " ++ Js.join ", " cols ++ " FROM " ++ t
  | EvQuery text _ _ =>
      exists rows,
        text = "INSERT INTO " ++ DB_SCHEMA cfg ++ "." ++ pg ++ " (" ++ Js.join ", " cols
                 ++ ") VALUES " ++ Batch.valuePlaceholders rows
  | _ => True
  end.

(** A call of [queryAthena] whose columns are the names a lookup of trace
    [tr] returned for that table, in the order returned. *)
Definition calledWithCatalogColumns (cfg : Config) (tr : list event) (e : event) : Prop :=
  match e with
  | EvCallQueryAthena t _ cols =>
      exists response,
        In (EvGetTableMetadata (CATALOG_NAME cfg) (DB_NAME cfg) t (Ok response)) tr
        /\ cols = map Name response
  | _ => True
  end.

(** A catalog that refuses the metadata lookup of the second table. *)
Definition lookupRefused : Scenario.Fixed :=
  {| Scenario.tableColumns := fun table =>
       if table =? "glue_table2" then Err "EntityNotFoundException" else Ok Scenario.idName;
     Scenario.submission := fun _ => Ok "q1";
     Scenario.statuses := fun _ => [Scenario.succeeded];
     Scenario.pagesOf := Scenario.accountsPages |}.

Definition lookupRefusedRun : Run (nat * nat) unit :=
  insertTablesInOrderOf Scenario.config (Scenario.athenaOf lookupRefused)
                        (Scenario.poolOf Scenario.postgres) 5 glueTableNameList (0, 0).

(** A sequence of answered fetches whose last one returned no token, or
    an empty one. *)
Definition settled (xs : list (option string * option string)) : Prop :=
  match xs with
  | [] => True
  | x :: rest => Js.truthy (snd (last rest x)) = false
  end.





(** What the script logs when it enters [queryAthena]. *)
Definition queryingLog (athTableName : string) : event :=
  EvLog [dashes ++ " Querying Athena for " ++ athTableName ++ " " ++ dashes].


(** A round of one of the two loops of [queryAthena]: a status poll or a
    fetch. *)
Definition isRound (e : event) : bool := Seen.isPoll e || Obs.isFetch e.

Definition rounds (tr : list event) : nat := length (filter isRound tr).

(** A computation that is still inside a loop only after [fuel] rounds. *)
Definition Spends {A P X : Type} (fuel : nat) (m : @M A P X) : Prop :=
  forall w, out (m w) = Pending -> fuel <= rounds (trace (m w)).

(** What the loader does, from the statement on, when the database rejects
    the statement with error [x]. *)
Definition rejectedBatch (cfg : Config) (tableName : string) (cols : list string)
           (rows : list (list value)) (x : error) : list event :=
  [EvQuery (Batch.query (DB_SCHEMA cfg) tableName cols rows) (Batch.values rows) (Err x);
   EvLog ["Error while inserting into Postgres table " ++ tableName; x];
   EvRelease].

(** A pool that refuses every connection: the database is not reachable. *)
Definition refusingPool : PgPool nat :=
  {| connect := fun n => (S n, Err "connect ECONNREFUSED");
     runQuery := fun n text vals => (n, Scenario.postgres text vals);
     release := fun n => n |}.

Definition refusedConnectionRun : Run (nat * nat) unit :=
  main Scenario.config (Scenario.athenaOf Scenario.accounts) refusingPool 5 "1.5" (0, 0).

(** The first page of [accounts]. *)
Definition firstAccountsPage : QueryResults :=
  {| Rows := [Scenario.row ["id"; "name"]; Scenario.row ["1"; "alice"];
              Scenario.row ["2"; "bob"]];
     NextToken := Some "t1" |}.


(** * start-services.js and the handler that stops the services

    The two Lambda handlers send commands to four AWS clients (load
    balancer, ECS, RDS, EC2).  The clients are one state machine supplied
    by the environment: it answers a command with a response or rejects
    it.  A handler run is the list of its steps, the state the clients are
    left in and its outcome; the two waiting loops take fuel. *)

Module Lambda.

(** [process.env], the variables the handlers read. *)
Record Env := {
  SITE_ALB_ARN : string;
  UNDER_MAINTENANCE_ALB_ARN : string;
  FARGATE_CLUSTER_NAME : string;
  WEB_UI_SERVICE_NAME : string;
  REST_API_SERVICE_NAME : string;
  RDS_DB_IDENTIFIER : string;
  NAT_SUBNET_ID : string;
  NAT_ALLOCATION_ID : string;
  NEW_NAT_GATEWAY_NAME : string;
  ROUTE_TABLE_ID : string
}.

Record RulePriority := { Priority : nat; RuleArn : string }.

Record Tag := { Key : string; Value : string }.

(** The fields of a NAT gateway the handlers read; [Tags] may be absent. *)
Record NatGateway := {
  NatGatewayId : string;
  GatewayState : string;
  Tags : option (list Tag)
}.

Inductive command :=
| SetRulePriorities (rules : list RulePriority)
| UpdateService (cluster service : string) (desiredCount : nat)
| StartDBInstance (identifier : string)
| StopDBInstance (identifier : string)
| DescribeDBInstances (identifier : string)
| CreateNatGateway (subnetId allocationId name : string)
| DescribeNatGateways (ids : list string) (filter : list (string * list string))
| ReplaceRoute (routeTableId cidr natGatewayId : string)
| DeleteNatGateway (natGatewayId : string).

(** A response, as far as the handlers look into it: [Shown] stands for a
    response that is only printed. *)
Inductive response :=
| Shown (text : string)
| DBInstance (status : string)
| DBInstances (statuses : list string)
| Gateway (gateway : NatGateway)
| Gateways (gateways : list NatGateway).

(** An argument of [console.log]. *)
Inductive arg :=
| Text (s : string)
| Obj (r : response)
| Found (g : NatGateway).

Inductive event :=
| Log (args : list arg)
| Sent (c : command) (r : result response)
| Sleep (ms : N).

(** What a handler returns. *)
Record Reply := { statusCode : nat; body : string }.

Record Steps (St X : Type) := {
  steps : list event;
  final : St;
  ending : outcome X
}.
Arguments steps {St X}.
Arguments final {St X}.
Arguments ending {St X}.

Section Handlers.

Context {St : Type}.
Variable env : Env.
Variable aws : St -> command -> St * result response.

Definition M (X : Type) : Type := St -> Steps St X.

Definition ret {X} (x : X) : M X :=
  fun s => {| steps := []; final := s; ending := Returned x |}.

Definition raise {X} (e : error) : M X :=
  fun s => {| steps := []; final := s; ending := Thrown e |}.

Definition pending {X} : M X :=
  fun s => {| steps := []; final := s; ending := Pending |}.

Definition bind {X Y} (m : M X) (k : X -> M Y) : M Y :=
  fun s =>
    let r := m s in
    match ending r with
    | Returned x =>
        let r' := k x (final r) in
        {| steps := steps r ++ steps r'; final := final r'; ending := ending r' |}
    | Thrown e => {| steps := steps r; final := final r; ending := Thrown e |}
    | Pending => {| steps := steps r; final := final r; ending := Pending |}
    end.

Notation "x <- m ;; k" := (bind m (fun x => k))
  (at level 61, m at next level, right associativity).
Notation "m ;; k" := (bind m (fun _ => k))
  (at level 61, right associativity).

Definition log (args : list arg) : M unit :=
  fun s => {| steps := [Log args]; final := s; ending := Returned tt |}.

Definition sleep (ms : N) : M unit :=
  fun s => {| steps := [Sleep ms]; final := s; ending := Returned tt |}.

(** [await client.send(new Command(...))]. *)
Definition send (c : command) : M response :=
  fun s =>
    let '(s', r) := aws s c in
    {| steps := [Sent c r]; final := s';
       ending := match r with Ok x => Returned x | Err e => Thrown e end |}.

(** [try { body } catch (error) { handler(error) }]. *)
Definition tryCatch {X} (body : M X) (handler : error -> M X) : M X :=
  fun s =>
    let r := body s in
    match ending r with
    | Thrown e =>
        let h := handler e (final r) in
        {| steps := steps r ++ steps h; final := final h; ending := ending h |}
    | _ => r
    end.

(** Reading a property of something that is [undefined] throws. *)
Definition typeError (property : string) : error :=
  "TypeError: Cannot read properties of undefined (reading '" ++ property ++ "')".

(** [response.DBInstance.DBInstanceStatus]. *)
Definition dbInstanceStatus (r : response) : M string :=
  match r with
  | DBInstance status => ret status
  | _ => raise (typeError "DBInstanceStatus")
  end.

(** [response.DBInstances[0].DBInstanceStatus]. *)
Definition firstDbInstanceStatus (r : response) : M string :=
  match r with
  | DBInstances (status :: _) => ret status
  | DBInstances [] => raise (typeError "DBInstanceStatus")
  | _ => raise (typeError "0")
  end.

(** [response.NatGateway], of which the id and the state are read. *)
Definition createdGateway (r : response) : M NatGateway :=
  match r with
  | Gateway g => ret g
  | _ => raise (typeError "NatGatewayId")
  end.

(** [response.NatGateways[0].State]. *)
Definition firstGatewayState (r : response) : M string :=
  match r with
  | Gateways (g :: _) => ret (GatewayState g)
  | Gateways [] => raise (typeError "State")
  | _ => raise (typeError "0")
  end.

(** [response.NatGateways], on which [find] is called. *)
Definition gatewayList (r : response) : M (list NatGateway) :=
  match r with
  | Gateways gs => ret gs
  | _ => raise (typeError "find")
  end.

(** ** start-services.js *)

Definition startPriorities : list RulePriority :=
  [{| Priority := 1; RuleArn := SITE_ALB_ARN env |};
   {| Priority := 10; RuleArn := UNDER_MAINTENANCE_ALB_ARN env |}].

(** Lines 17-37. *)
Definition albRulesHandlerStart : M unit :=
  log [Text "Re-prioritizing the ALB rules to route the traffic to Fargate service..."] ;;
  tryCatch
    (r <- send (SetRulePriorities startPriorities) ;;
     log [Text "Modified ALB rules and routes the traffic tp static Under Maintenance HTML page. Response:";
          Obj r])
    (fun error =>
       log [Text "Error while re-prioritizing the rules"; Text error] ;;
       raise error).

(** Lines 39-58. *)
Definition startFargateServices : M unit :=
  log [Text "Starting the Fargate services..."] ;;
  r <- send (UpdateService (FARGATE_CLUSTER_NAME env) (REST_API_SERVICE_NAME env) 1) ;;
  log [Text ("Started the Rest Api Fargate service " ++ REST_API_SERVICE_NAME env ++ ". Response:");
       Obj r] ;;
  r' <- send (UpdateService (FARGATE_CLUSTER_NAME env) (WEB_UI_SERVICE_NAME env) 1) ;;
  log [Text ("Started the Web UI Fargate service " ++ WEB_UI_SERVICE_NAME env ++ ". Response:");
       Obj r'].

(** The loop of lines 67-74: the condition is tested before every round. *)
Fixpoint awaitDatabase (fuel : nat) (dbInstanceStatus : string) : M unit :=
  if dbInstanceStatus =? "available" then ret tt
  else
    match fuel with
    | 0 => pending
    | S fuel' =>
        log [Text ("Waiting for the Database service to become available. Current status: "
                     ++ dbInstanceStatus)] ;;
        sleep 30000%N ;;
        describeResponse <- send (DescribeDBInstances (RDS_DB_IDENTIFIER env)) ;;
        status <- firstDbInstanceStatus describeResponse ;;
        awaitDatabase fuel' status
    end.

(** Lines 60-76. *)
Definition startDatabaseService (fuel : nat) : M unit :=
  log [Text "Starting the Database service..."] ;;
  dbInstanceResponse <- send (StartDBInstance (RDS_DB_IDENTIFIER env)) ;;
  status <- dbInstanceStatus dbInstanceResponse ;;
  awaitDatabase fuel status ;;
  log [Text "Started the RDS service"].

(** The loop of lines 97-104. *)
Fixpoint awaitGateway (fuel : nat) (natGatewayId gatewayState : string) : M unit :=
  if gatewayState =? "available" then ret tt
  else
    match fuel with
    | 0 => pending
    | S fuel' =>
        log [Text ("Waiting for the NAT gateway to become available. Current status: "
                     ++ gatewayState)] ;;
        sleep 30000%N ;;
        describeResult <- send (DescribeNatGateways [natGatewayId] []) ;;
        state <- firstGatewayState describeResult ;;
        awaitGateway fuel' natGatewayId state
    end.

(** Lines 78-114. *)
Definition createNatGateway (fuel : nat) : M unit :=
  log [Text "Creating the NAT gateway..."] ;;
  createResult <- send (CreateNatGateway (NAT_SUBNET_ID env) (NAT_ALLOCATION_ID env)
                                         (NEW_NAT_GATEWAY_NAME env)) ;;
  gateway <- createdGateway createResult ;;
  let natGatewayId := NatGatewayId gateway in
  awaitGateway fuel natGatewayId (GatewayState gateway) ;;
  send (ReplaceRoute (ROUTE_TABLE_ID env) "0.0.0.0/0" natGatewayId) ;;
  log [Text ("NAT Gateway " ++ natGatewayId ++ " created successfully.")].

Definition startedReply : Reply :=
  {| statusCode := 200; body := "Services started and ALB rules updated." |}.

(** Lines 116-135. *)
Definition startHandler (fuel : nat) : M Reply :=
  tryCatch
    (startDatabaseService fuel ;;
     startFargateServices ;;
     albRulesHandlerStart ;;
     createNatGateway fuel ;;
     ret startedReply)
    (fun error =>
       log [Text "Error starting the services or modifying ALB rules:"; Text error] ;;
       raise error).

(** ** The handler that stops the services (src/unnamed/part_000) *)

Definition stopPriorities : list RulePriority :=
  [{| Priority := 10; RuleArn := SITE_ALB_ARN env |};
   {| Priority := 1; RuleArn := UNDER_MAINTENANCE_ALB_ARN env |}].

(** Lines 17-37. *)
Definition albRulesHandlerStop : M unit :=
  log [Text "Re-prioritizing the ALB rules to route the traffic to static Under Maintenance HTML page..."] ;;
  tryCatch
    (r <- send (SetRulePriorities stopPriorities) ;;
     log [Text "Modified ALB rules and routes the traffic tp static Under Maintenance HTML page. Response:";
          Obj r])
    (fun error =>
       log [Text "Error while re-prioritizing the rules"; Text error] ;;
       raise error).

(** Lines 39-59. *)
Definition stopFargateService : M unit :=
  log [Text "Stopping the Fargate services..."] ;;
  r <- send (UpdateService (FARGATE_CLUSTER_NAME env) (WEB_UI_SERVICE_NAME env) 0) ;;
  log [Text ("Stopped the Web UI Fargate service " ++ WEB_UI_SERVICE_NAME env ++ ". Response:");
       Obj r] ;;
  r' <- send (UpdateService (FARGATE_CLUSTER_NAME env) (REST_API_SERVICE_NAME env) 0) ;;
  log [Text ("Stopped the Web UI Fargate service " ++ REST_API_SERVICE_NAME env ++ ". Response:");
       Obj r'].

(** Lines 61-68. *)
Definition stopDatabaseService : M unit :=
  log [Text "Stopping the Database service..."] ;;
  r <- send (StopDBInstance (RDS_DB_IDENTIFIER env)) ;;
  log [Text ("Stopped the Database service " ++ RDS_DB_IDENTIFIER env ++ ". Response:"); Obj r].

(** [tag => tag.Key === 'Name' && tag.Value === NAT_GATEWAY_NAME]. *)
Definition isNameTag (name : string) (tag : Tag) : bool :=
  (Key tag =? "Name") && (Value tag =? name).

(** The callback of [NatGateways.find]: [!!nat.Tags?.find(...)]. *)
Definition hasNameTag (name : string) (nat : NatGateway) : bool :=
  match Tags nat with
  | None => false
  | Some tags =>
      match find (isNameTag name) tags with
      | Some _ => true
      | None => false
      end
  end.

(** Lines 70-95. *)
Definition deleteNatGateway : M unit :=
  log [Text "Deleting the NAT Gateway..."] ;;
  describeResult <- send (DescribeNatGateways [] [("state", ["available"])]) ;;
  gateways <- gatewayList describeResult ;;
  match find (hasNameTag (NEW_NAT_GATEWAY_NAME env)) gateways with
  | None =>
      log [Text ("No NAT Gateway found with the name " ++ NEW_NAT_GATEWAY_NAME env)]
  | Some natGateway =>
      log [Text "Found the NAT Gateway:"; Found natGateway] ;;
      let natGatewayId := NatGatewayId natGateway in
      deleteResult <- send (DeleteNatGateway natGatewayId) ;;
      log [Text ("Deletion initiated for NAT Gateway " ++ natGatewayId ++ ". Response:");
           Obj deleteResult]
  end.

Definition stoppedReply : Reply :=
  {| statusCode := 200; body := "Services stopped and ALB rules updated." |}.

(** Lines 97-119. *)
Definition stopHandler : M Reply :=
  tryCatch
    (log [Text "Stopping services..."] ;;
     albRulesHandlerStop ;;
     stopFargateService ;;
     stopDatabaseService ;;
     deleteNatGateway ;;
     ret stoppedReply)
    (fun error =>
       log [Text "Error stopping the services or modifying ALB rules:"; Text error] ;;
       raise error).

End Handlers.

(** ** Reading the steps of a handler *)

Definition command_of (e : event) : option command :=
  match e with
  | Sent c _ => Some c
  | _ => None
  end.

(** The commands sent, in order. *)
Definition commands (tr : list event) : list command := Obs.pick command_of tr.

Definition isRejected (e : event) : bool :=
  match e with
  | Sent _ (Err _) => true
  | _ => false
  end.

Definition isLog (e : event) : bool :=
  match e with Log _ => true | _ => false end.

(** A command that asks for a state and changes nothing. *)
Definition isDescribe (c : command) : bool :=
  match c with
  | DescribeDBInstances _ | DescribeNatGateways _ _ => true
  | _ => false
  end.

(** The commands that change something. *)
Definition actions (tr : list event) : list command :=
  filter (fun c => negb (isDescribe c)) (commands tr).

(** The states of the database the handler has read. *)
Definition databaseStatus (e : event) : option string :=
  match e with
  | Sent (StartDBInstance _) (Ok (DBInstance status)) => Some status
  | Sent (DescribeDBInstances _) (Ok (DBInstances (status :: _))) => Some status
  | _ => None
  end.

Definition databaseStatuses (tr : list event) : list string := Obs.pick databaseStatus tr.

(** The states of the new gateway the handler has read. *)
Definition gatewayStatus (e : event) : option string :=
  match e with
  | Sent (CreateNatGateway _ _ _) (Ok (Gateway g)) => Some (GatewayState g)
  | Sent (DescribeNatGateways _ _) (Ok (Gateways (g :: _))) => Some (GatewayState g)
  | _ => None
  end.

Definition gatewayStatuses (tr : list event) : list string := Obs.pick gatewayStatus tr.

End Lambda.

(** ** Vocabulary for the handlers *)

(** The first rejected command of a run, if any, with its error. *)
Fixpoint firstRejection (tr : list Lambda.event) : option error :=
  match tr with
  | [] => None
  | Lambda.Sent _ (Err x) :: _ => Some x
  | _ :: rest => firstRejection rest
  end.

(** After the first rejected command a run only logs. *)
Fixpoint onlyLogsAfterRejection (tr : list Lambda.event) : bool :=
  match tr with
  | [] => true
  | Lambda.Sent _ (Err _) :: rest => forallb Lambda.isLog rest
  | _ :: rest => onlyLogsAfterRejection rest
  end.

(** A run that stops sending at its first rejected command and throws the
    error of that command. *)
Definition failsFast {St X : Type} (r : Lambda.Steps St X) : Prop :=
  onlyLogsAfterRejection (Lambda.steps r) = true
  /\ match firstRejection (Lambda.steps r) with
     | Some x => Lambda.ending r = Thrown x
     | None => True
     end.

Definition FailsFast {St X : Type} (m : @Lambda.M St X) : Prop := forall s, failsFast (m s).

Definition isPrefix {X : Type} (l whole : list X) : Prop := exists rest, whole = (l ++ rest)%list.

(** What the start handler does when nothing goes wrong, for a new gateway
    with id [natGatewayId]. *)
Definition startPlan (env : Lambda.Env) (natGatewayId : string) : list Lambda.command :=
  [Lambda.StartDBInstance (Lambda.RDS_DB_IDENTIFIER env);
   Lambda.UpdateService (Lambda.FARGATE_CLUSTER_NAME env) (Lambda.REST_API_SERVICE_NAME env) 1;
   Lambda.UpdateService (Lambda.FARGATE_CLUSTER_NAME env) (Lambda.WEB_UI_SERVICE_NAME env) 1;
   Lambda.SetRulePriorities (Lambda.startPriorities env);
   Lambda.CreateNatGateway (Lambda.NAT_SUBNET_ID env) (Lambda.NAT_ALLOCATION_ID env)
                           (Lambda.NEW_NAT_GATEWAY_NAME env);
   Lambda.ReplaceRoute (Lambda.ROUTE_TABLE_ID env) "0.0.0.0/0" natGatewayId].

(** What the stop handler does before it looks for the gateway. *)
Definition stopPlan (env : Lambda.Env) : list Lambda.command :=
  [Lambda.SetRulePriorities (Lambda.stopPriorities env);
   Lambda.UpdateService (Lambda.FARGATE_CLUSTER_NAME env) (Lambda.WEB_UI_SERVICE_NAME env) 0;
   Lambda.UpdateService (Lambda.FARGATE_CLUSTER_NAME env) (Lambda.REST_API_SERVICE_NAME env) 0;
   Lambda.StopDBInstance (Lambda.RDS_DB_IDENTIFIER env)].

(** The tag the stop handler looks for. *)
Definition nameTag (name : string) : Lambda.Tag :=
  {| Lambda.Key := "Name"; Lambda.Value := name |}.

(** A gateway that carries the tag. *)
Definition tagged (name : string) (g : Lambda.NatGateway) : Prop :=
  exists tags, Lambda.Tags g = Some tags /\ In (nameTag name) tags.

(** The question the stop handler asks about the gateways. *)
Definition availableGateways : Lambda.command :=
  Lambda.DescribeNatGateways [] [("state", ["available"])].

Definition isSleepStep (e : Lambda.event) : bool :=
  match e with Lambda.Sleep _ => true | _ => false end.

(** ** Scripted clients for the handlers *)

Definition lambdaEnv : Lambda.Env :=
  {| Lambda.SITE_ALB_ARN := "arn:site";
     Lambda.UNDER_MAINTENANCE_ALB_ARN := "arn:maintenance";
     Lambda.FARGATE_CLUSTER_NAME := "cluster";
     Lambda.WEB_UI_SERVICE_NAME := "web";
     Lambda.REST_API_SERVICE_NAME := "api";
     Lambda.RDS_DB_IDENTIFIER := "db";
     Lambda.NAT_SUBNET_ID := "subnet";
     Lambda.NAT_ALLOCATION_ID := "eip";
     Lambda.NEW_NAT_GATEWAY_NAME := "nat-main";
     Lambda.ROUTE_TABLE_ID := "rtb" |}.

Definition otherGateway : Lambda.NatGateway :=
  {| Lambda.NatGatewayId := "nat-1"; Lambda.GatewayState := "available";
     Lambda.Tags := Some [{| Lambda.Key := "Name"; Lambda.Value := "nat-other" |}] |}.

Definition untaggedGateway : Lambda.NatGateway :=
  {| Lambda.NatGatewayId := "nat-2"; Lambda.GatewayState := "available"; Lambda.Tags := None |}.

Definition mainGateway : Lambda.NatGateway :=
  {| Lambda.NatGatewayId := "nat-3"; Lambda.GatewayState := "available";
     Lambda.Tags := Some [{| Lambda.Key := "env"; Lambda.Value := "prod" |};
                          {| Lambda.Key := "Name"; Lambda.Value := "nat-main" |}] |}.

Definition pendingGateway : Lambda.NatGateway :=
  {| Lambda.NatGatewayId := "nat-9"; Lambda.GatewayState := "pending"; Lambda.Tags := None |}.

(** Clients that accept every command.  The state counts the descriptions
    answered: the database and the new gateway are available from the
    second description on. *)
Definition friendly (n : nat) (c : Lambda.command) : nat * result Lambda.response :=
  match c with
  | Lambda.StartDBInstance _ => (0, Ok (Lambda.DBInstance "starting"))
  | Lambda.DescribeDBInstances _ =>
      (S n, Ok (Lambda.DBInstances [if (1 <=? n)%nat then "available" else "starting"]))
  | Lambda.CreateNatGateway _ _ _ => (0, Ok (Lambda.Gateway pendingGateway))
  | Lambda.DescribeNatGateways (_ :: _) _ =>
      (S n, Ok (Lambda.Gateways
                  [{| Lambda.NatGatewayId := "nat-9";
                      Lambda.GatewayState := if (1 <=? n)%nat then "available" else "pending";
                      Lambda.Tags := None |}]))
  | Lambda.DescribeNatGateways [] _ =>
      (n, Ok (Lambda.Gateways [otherGateway; untaggedGateway; mainGateway]))
  | _ => (n, Ok (Lambda.Shown "{}"))
  end.

(** Clients of which the load balancer refuses every command. *)
Definition balancerDown (n : nat) (c : Lambda.command) : nat * result Lambda.response :=
  match c with
  | Lambda.SetRulePriorities _ => (n, Err "AccessDenied")
  | _ => friendly n c
  end.

(** A run whose state-changing commands are, so far, the beginning of
    [plan], and all of [plan] when it returns. *)
Definition follows {St X : Type} (plan : list Lambda.command) (r : Lambda.Steps St X) : Prop :=
  isPrefix (Lambda.actions (Lambda.steps r)) plan
  /\ match Lambda.ending r with
     | Returned _ => Lambda.actions (Lambda.steps r) = plan
     | _ => True
     end.

(** Every step of every run of [m] satisfies [Q]. *)
Definition StepsAll {St X : Type} (Q : Lambda.event -> Prop) (m : @Lambda.M St X) : Prop :=
  forall s, Forall Q (Lambda.steps (m s)).

(** A wait that went through the states [waits], none of them "available",
    before it read "available": what was read, what was asked and how often
    the handler paused. *)
Definition waitedFor (ask : Lambda.command) (read : list string) (asked : list Lambda.command)
           (tr : list Lambda.event) (waits : list string) : Prop :=
  read = (waits ++ ["available"])%list
  /\ Forall (fun st => st <> "available") waits
  /\ asked = repeat ask (length waits)
  /\ filter isSleepStep tr = repeat (Lambda.Sleep 30000%N) (length waits).

(** The steps of a waiting loop: it logs, pauses and asks. *)
Definition waiting (e : Lambda.event) : Prop :=
  match e with
  | Lambda.Log _ | Lambda.Sleep _ => True
  | Lambda.Sent c _ => Lambda.isDescribe c = true
  end.

(** The last part of the plan of the stop handler: the gateway to delete,
    if one was found. *)
Definition deletion (found : option string) : list Lambda.command :=
  match found with
  | Some natGatewayId => [Lambda.DeleteNatGateway natGatewayId]
  | None => []
  end.

(** The block of the start plan that belongs to [createNatGateway]. *)
Definition gatewayPlan (env : Lambda.Env) (natGatewayId : string) : list Lambda.command :=
  [Lambda.CreateNatGateway (Lambda.NAT_SUBNET_ID env) (Lambda.NAT_ALLOCATION_ID env)
                           (Lambda.NEW_NAT_GATEWAY_NAME env);
   Lambda.ReplaceRoute (Lambda.ROUTE_TABLE_ID env) "0.0.0.0/0" natGatewayId].

(** A step that reads no state of the database. *)
Definition besideDatabase (e : Lambda.event) : Prop := Lambda.databaseStatus e = None.

(** Two functions of the handlers over the friendly clients. *)
Definition friendlyGateway : Lambda.Steps nat unit :=
  Lambda.createNatGateway lambdaEnv friendly 5 0.

Definition friendlyDelete : Lambda.Steps nat unit :=
  Lambda.deleteNatGateway lambdaEnv friendly 0.


(** One round of the wait for the database: the line logged with the state
    last read, the pause of thirty seconds, then the question, answered
    with the states [answer]. *)
Definition databaseRound (env : Lambda.Env) (status : string) (answer : string * list string)
  : list Lambda.event :=
  [Lambda.Log [Lambda.Text ("Waiting for the Database service to become available. Current status: "
                              ++ status)];
   Lambda.Sleep 30000%N;
   Lambda.Sent (Lambda.DescribeDBInstances (Lambda.RDS_DB_IDENTIFIER env))
               (Ok (Lambda.DBInstances (fst answer :: snd answer)))].

(** The rounds of a wait that starts from the state [status] and reads
    [answers] in turn. *)
Fixpoint databaseRounds (env : Lambda.Env) (status : string)
         (answers : list (string * list string)) : list Lambda.event :=
  match answers with
  | [] => []
  | answer :: rest => databaseRound env status answer ++ databaseRounds env (fst answer) rest
  end.


(** * Properties *)

(** ** The model on small inputs *)

Example query_two_by_two :
  Batch.query "public" "table1" ["id"; "name"] [[Some "1"; Some "alice"]; [Some "2"; None]]
  = "INSERT INTO public.table1 (id, name) VALUES ($1, $2), ($3, $4)".
Proof. reflexivity. Qed.

Example values_two_by_two :
  Batch.values [[Some "1"; Some "alice"]; [Some "2"; None]]
  = [Some "1"; Some "alice"; Some "2"; None].
Proof. reflexivity. Qed.

Example placeholder_twelfth : Batch.showPlaceholder (Batch.placeholderIndex (Some 3) 3 2) = "$12".
Proof. reflexivity. Qed.

Example substring_short : Js.substring 6 "glue" = "".
Proof. reflexivity. Qed.

Example accounts_statements :
  Obs.pick (fun e => match e with EvQuery text _ _ => Some text | _ => None end)
           (trace Scenario.accountsRun)
  = ["INSERT INTO public.accounts (id, name) VALUES ($1, $2), ($3, $4)";
     "INSERT INTO public.accounts (id, name) VALUES ($1, $2)"].
Proof. now vm_compute. Qed.

Example accounts_select :
  QueryString (startQueryInput Scenario.config "src_accounts" ["id"; "name"])
  = "SELECT id, name FROM src_accounts".
Proof. reflexivity. Qed.

(** ** Lists and numbering *)

Section Numbering.

Lemma map_add_seq (a s n : nat) :
  map (fun col => a + col) (seq s n) = seq (a + s) n.
Proof.
  revert s; induction n as [|n IH]; intros s; simpl; [reflexivity|].
  f_equal. rewrite IH. f_equal. lia.
Qed.

Lemma nth_error_seq_lt (s n j : nat) :
  j < n -> nth_error (seq s n) j = Some (s + j).
Proof.
  revert s j; induction n as [|n IH]; intros s j Hj; [lia|].
  destruct j as [|j]; simpl.
  - f_equal; lia.
  - rewrite IH by lia. f_equal; lia.
Qed.

Lemma rowNumbers_seq (c i n : nat) :
  rowNumbers c i n = map Some (seq (i * c + 1) n).
Proof.
  unfold rowNumbers.
  replace (i * c + 1) with (i * c + 1 + 0) by lia.
  rewrite <- map_add_seq, map_map. apply map_ext; intros col.
  f_equal; lia.
Qed.

Lemma mapi_from_row (c k i : nat) (row : list value) :
  Js.mapi_from (fun _ colIndex => Batch.placeholderIndex (Some c) k colIndex) i row
  = map (fun col => Some (k * c + col + 1)) (seq i (length row)).
Proof.
  revert i; induction row as [|x row IH]; intros i; simpl; [reflexivity|].
  now rewrite IH.
Qed.

Lemma numberRows_fst (c : nat) (rows : list (list value)) :
  forall k acc,
    fst (Batch.numberRows (Some c) k rows acc)
    = Js.mapi_from (fun row i => rowNumbers c i (length row)) k rows.
Proof.
  induction rows as [|row rows IH]; intros k acc; simpl; [reflexivity|].
  specialize (IH (S k) (acc ++ row)%list).
  destruct (Batch.numberRows (Some c) (S k) rows (acc ++ row)%list) as [others vs].
  simpl in *. rewrite IH. f_equal. apply mapi_from_row.
Qed.

Lemma numberRows_snd (cc : Js.num) (rows : list (list value)) :
  forall k acc, snd (Batch.numberRows cc k rows acc) = (acc ++ concat rows)%list.
Proof.
  induction rows as [|row rows IH]; intros k acc; simpl.
  - now rewrite app_nil_r.
  - specialize (IH (S k) (acc ++ row)%list).
    destruct (Batch.numberRows cc (S k) rows (acc ++ row)%list) as [others vs].
    simpl in *. now rewrite IH, <- app_assoc.
Qed.

Lemma values_concat (rows : list (list value)) : Batch.values rows = concat rows.
Proof. unfold Batch.values. now rewrite numberRows_snd. Qed.

Lemma placeholders_mapi (rows : list (list value)) :
  Batch.placeholders rows
  = match Batch.columnsCount rows with
    | Some c => Js.mapi (fun row i => rowNumbers c i (length row)) rows
    | None => []
    end.
Proof.
  unfold Batch.placeholders. destruct rows as [|row rows]; [reflexivity|].
  cbn [Batch.columnsCount]. apply numberRows_fst.
Qed.

Variable C : nat.

Lemma concat_numbers (rows : list (list value)) :
  rectangular C rows ->
  forall k,
    concat (Js.mapi_from (fun row i => rowNumbers C i (length row)) k rows)
    = map Some (seq (k * C + 1) (length rows * C)).
Proof.
  induction 1 as [|row rows Hrow _ IH]; intros k; simpl; [reflexivity|].
  rewrite IH, Hrow, rowNumbers_seq, <- map_app.
  replace (S k * C + 1) with (k * C + 1 + C) by lia.
  now rewrite <- seq_app.
Qed.

Lemma nth_mapi_from {X Y : Type} (f : X -> nat -> Y) (d : X) (dy : Y) (l : list X) :
  forall k i, i < length l ->
    nth i (Js.mapi_from f k l) dy = f (nth i l d) (k + i).
Proof.
  induction l as [|x l IH]; intros k i Hi; simpl in *; [lia|].
  destruct i as [|i].
  - now rewrite Nat.add_0_r.
  - rewrite IH by lia. f_equal; lia.
Qed.

Lemma length_concat_rect (rows : list (list value)) :
  rectangular C rows -> length (concat rows) = length rows * C.
Proof.
  induction 1 as [|row rows Hrow _ IH]; simpl; [reflexivity|].
  rewrite length_app, IH, Hrow. reflexivity.
Qed.

Lemma nth_error_concat_rect (rows : list (list value)) :
  rectangular C rows ->
  forall i j, i < length rows -> j < C ->
    nth_error (concat rows) (i * C + j) = nth_error (nth i rows []) j.
Proof.
  induction 1 as [|row rows Hrow _ IH]; intros i j Hi Hj; simpl in *; [lia|].
  destruct i as [|i]; simpl.
  - apply nth_error_app1. lia.
  - rewrite nth_error_app2 by lia.
    rewrite <- IH by lia. f_equal. lia.
Qed.

Lemma columnsCount_rect (rows : list (list value)) :
  rectangular C rows -> rows <> [] -> Batch.columnsCount rows = Some C.
Proof.
  intros H Hne. destruct rows as [|row rows]; [congruence|].
  simpl. f_equal. now inversion H.
Qed.

(** C2. For a batch of R rows, each C cells wide, the placeholder numbers
    read row by row are exactly 1, 2, ..., R*C; the placeholder of row i,
    column j is i*C+j+1; the parameter array holds at position i*C+j the
    j-th cell of row i; and there are as many placeholders as parameters. *)
Theorem placeholder_numbering_row_major (rows : list (list value)) :
  rectangular C rows ->
  let R := length rows in
  concat (Batch.placeholders rows) = map Some (seq 1 (R * C))
  /\ (forall i j, i < R -> j < C ->
        nth_error (nth i (Batch.placeholders rows) []) j = Some (Some (i * C + j + 1))
        /\ nth_error (Batch.values rows) (i * C + j) = nth_error (nth i rows []) j)
  /\ length (Batch.values rows) = R * C
  /\ length (concat (Batch.placeholders rows)) = length (Batch.values rows).
Proof.
  intros Hrect R. rewrite values_concat, placeholders_mapi.
  assert (Hcc : rows = [] \/ Batch.columnsCount rows = Some C).
  { destruct rows; [now left|right; now apply columnsCount_rect]. }
  destruct Hcc as [-> | ->].
  - subst R; simpl. repeat split; intros; simpl in *; lia.
  - assert (Hcat : concat (Js.mapi (fun row i => rowNumbers C i (length row)) rows)
                   = map Some (seq 1 (R * C))).
    { unfold Js.mapi. rewrite concat_numbers by assumption. reflexivity. }
    split; [exact Hcat|]. split; [|split].
    + intros i j Hi Hj. split.
      * unfold Js.mapi.
        rewrite (nth_mapi_from _ ([] : list value)) by assumption.
        assert (Hlen : length (nth i rows []) = C).
        { unfold rectangular in Hrect. rewrite Forall_forall in Hrect.
          apply Hrect, nth_In, Hi. }
        rewrite Hlen, rowNumbers_seq, nth_error_map, nth_error_seq_lt by assumption.
        simpl. do 2 f_equal. lia.
      * now apply nth_error_concat_rect.
    + now apply length_concat_rect.
    + rewrite Hcat, length_map, length_seq. symmetry. now apply length_concat_rect.
Qed.

End Numbering.

Lemma placeholder_numbering_row_major_witness :
  rectangular 2 [[Some "1"; Some "alice"]; [Some "2"; None]; [None; Some "carol"]]
  /\ concat (Batch.placeholders [[Some "1"; Some "alice"]; [Some "2"; None]; [None; Some "carol"]])
     = map Some (seq 1 (3 * 2)).
Proof.
  assert (H : rectangular 2 [[Some "1"; Some "alice"]; [Some "2"; None]; [None; Some "carol"]]).
  { repeat constructor. }
  split; [exact H|].
  exact (proj1 (placeholder_numbering_row_major 2 _ H)).
Defined.

(** ** Runs of the monad *)

Section Runs.

Context {A P : Type}.

Lemma trace_bind {X Y} (m : @M A P X) (k : X -> @M A P Y) (w : World) :
  trace (bind m k w)
  = (trace (m w) ++ match out (m w) with
                    | Returned x => trace (k x (world (m w)))
                    | _ => []
                    end)%list.
Proof.
  unfold bind. destruct (out (m w)); simpl; now rewrite ?app_nil_r.
Qed.

Lemma out_bind {X Y} (m : @M A P X) (k : X -> @M A P Y) (w : World) :
  out (bind m k w)
  = match out (m w) with
    | Returned x => out (k x (world (m w)))
    | Thrown e => Thrown e
    | Pending => Pending
    end.
Proof. unfold bind. now destruct (out (m w)). Qed.

Lemma world_bind {X Y} (m : @M A P X) (k : X -> @M A P Y) (w : World) :
  world (bind m k w)
  = match out (m w) with
    | Returned x => world (k x (world (m w)))
    | _ => world (m w)
    end.
Proof. unfold bind. now destruct (out (m w)). Qed.

Lemma Always_bind {X Y} (Q : event -> Prop) (m : @M A P X) (k : X -> @M A P Y) :
  Always Q m -> (forall x, Always Q (k x)) -> Always Q (bind m k).
Proof.
  intros Hm Hk w. rewrite trace_bind. apply Forall_app. split; [apply Hm|].
  destruct (out (m w)); [apply Hk|constructor|constructor].
Qed.

Lemma Always_ret {X} (Q : event -> Prop) (x : X) : Always Q (@ret A P X x).
Proof. intros w; constructor. Qed.

Lemma Always_pending {X} (Q : event -> Prop) : Always Q (@pending A P X).
Proof. intros w; constructor. Qed.

Lemma Always_emit (Q : event -> Prop) (e : event) : Q e -> Always Q (@emit A P e).
Proof. intros H w; simpl; auto. Qed.

Lemma Always_impl {X} (Q Q' : event -> Prop) (m : @M A P X) :
  (forall e, Q e -> Q' e) -> Always Q m -> Always Q' m.
Proof. intros H Hm w. eapply Forall_impl; [exact H|apply Hm]. Qed.

End Runs.

Lemma pick_app {X Y : Type} (f : X -> option Y) (l l' : list X) :
  Obs.pick f (l ++ l') = (Obs.pick f l ++ Obs.pick f l')%list.
Proof.
  induction l as [|x l IH]; simpl; [reflexivity|].
  destruct (f x); simpl; now rewrite IH.
Qed.

Lemma pick_none {X Y : Type} (f : X -> option Y) (l : list X) :
  Forall (fun x => f x = None) l -> Obs.pick f l = [].
Proof.
  induction 1 as [|x l Hx _ IH]; simpl; [reflexivity|]. now rewrite Hx.
Qed.

(** ** insertIntoPostgresAsBatch *)

Section Loader.

Context {A P : Type}.
Variable cfg : Config.
Variable pool : PgPool P.

Local Abbreviation insert := (@insertIntoPostgresAsBatch A P cfg pool).

(** The three ways a call can go: no connection, statement accepted,
    statement rejected. *)
Lemma insert_run (tableName : string) (cols : list string) (rows : list (list value))
      (w : @World A P) :
  insert tableName cols rows w
  = let text := Batch.query (DB_SCHEMA cfg) tableName cols rows in
    let vals := Batch.values rows in
    match connect pool (snd w) with
    | (p, Err e) =>
        {| trace := entering tableName cols rows ++ [EvConnect (Err e)];
           world := (fst w, p); out := Thrown e |}
    | (p, Ok u) =>
        match runQuery pool p text vals with
        | (p', Ok n) =>
            {| trace := entering tableName cols rows ++
                        [EvConnect (Ok u); EvQuery text vals (Ok n);
                         EvLog ["Inserted " ++ Js.showNat n ++ " rows into " ++ tableName];
                         EvRelease];
               world := (fst w, release pool p'); out := Returned tt |}
        | (p', Err e) =>
            {| trace := entering tableName cols rows ++
                        [EvConnect (Ok u); EvQuery text vals (Err e);
                         EvLog ["Error while inserting into Postgres table " ++ tableName; e];
                         EvRelease];
               world := (fst w, release pool p'); out := Returned tt |}
        end
    end.
Proof.
  unfold insert, insertIntoPostgresAsBatch, bind, tryCatchFinally, poolConnect,
    clientQuery, clientRelease, log, emit, entering;
    cbn [trace out world fromResult app fst snd].
  destruct (connect pool (snd w)) as [p [u|e]];
    cbn [trace out world fromResult app fst snd]; [|reflexivity].
  destruct (runQuery pool p _ _) as [p' [n|e]]; reflexivity.
Qed.

(** C5. A call that obtains a connection releases it exactly once, as the
    last thing it does, after the statement was sent, whatever the
    database answered; a call that obtains none releases none. *)
Theorem connection_released_exactly_once (tableName : string) (cols : list string)
        (rows : list (list value)) (w : @World A P) :
  let r := insert tableName cols rows w in
  Obs.releases (trace r) = Obs.acquisitions (trace r)
  /\ match snd (connect pool (snd w)) with
     | Ok _ =>
         Obs.acquisitions (trace r) = 1
         /\ exists before answer,
             trace r = (before ++ [EvRelease])%list
             /\ Obs.releases before = 0
             /\ In (EvQuery (Batch.query (DB_SCHEMA cfg) tableName cols rows)
                            (Batch.values rows) answer) before
     | Err e => Obs.acquisitions (trace r) = 0 /\ out r = Thrown e
     end.
Proof.
  intros r. subst r. rewrite insert_run. cbv zeta.
  destruct (connect pool (snd w)) as [p [u|e]]; simpl; [|auto].
  destruct (runQuery pool p _ _) as [p' [n|e]]; simpl.
  - split; [reflexivity|]. split; [reflexivity|].
    eexists (_ :: _ :: _ :: _ :: [_]), (Ok n). simpl. intuition.
  - split; [reflexivity|]. split; [reflexivity|].
    eexists (_ :: _ :: _ :: _ :: [_]), (Err e). simpl. intuition.
Qed.

(** What the trace of a call shows to the rest of the script. *)
Lemma insert_marks (tableName : string) (cols : list string) (rows : list (list value))
      (w : @World A P) :
  exists rest,
    trace (insert tableName cols rows w)
    = EvCallInsertBatch tableName cols rows :: rest
    /\ Forall (fun e => match e with
                        | EvLog _ | EvConnect _ | EvRelease => True
                        | EvQuery text vals _ =>
                            text = Batch.query (DB_SCHEMA cfg) tableName cols rows
                            /\ vals = Batch.values rows
                        | _ => False
                        end) rest.
Proof.
  rewrite insert_run. cbv zeta.
  destruct (connect pool (snd w)) as [p [u|e]]; simpl.
  - destruct (runQuery pool p _ _) as [p' [n|e]]; simpl;
      eexists; (split; [reflexivity|]); repeat constructor.
  - eexists; (split; [reflexivity|]); repeat constructor.
Qed.

End Loader.

(** ** The paging loop *)

Arguments insertIntoPostgresAsBatch : simpl never.

Section Paging.

Context {A P : Type}.
Variable cfg : Config.
Variable athena : Athena A.
Variable pool : PgPool P.

Local Abbreviation insert := (@insertIntoPostgresAsBatch A P cfg pool).
Local Abbreviation fetch := (@fetchPages A P cfg athena pool).
Local Abbreviation poll := (@pollExecution A P cfg athena pool).
Local Abbreviation query := (@queryAthena A P cfg athena pool).














End Paging.

(** ** The statements of the batches *)

Section Sending.

Context {A P : Type}.
Variable cfg : Config.
Variable athena : Athena A.
Variable pool : PgPool P.














End Sending.




(** ** A batch without rows *)

(** C4. Called with no rows, [insertIntoPostgresAsBatch] does not return
    early: once it holds a connection it sends the statement text that ends
    after VALUES, with an empty parameter array. *)
Theorem empty_rows_statement_sent {A P : Type} (cfg : Config) (pool : PgPool P)
        (tableName : string) (cols : list string) (w : @World A P) :
  Batch.query (DB_SCHEMA cfg) tableName cols [] = emptyInsert (DB_SCHEMA cfg) tableName cols
  /\ match snd (connect pool (snd w)) with
     | Ok _ => exists answer,
         In (EvQuery (emptyInsert (DB_SCHEMA cfg) tableName cols) [] answer)
            (trace (insertIntoPostgresAsBatch cfg pool tableName cols [] w))
     | Err _ => True
     end.
Proof.
  split; [reflexivity|]. rewrite insert_run. cbv zeta.
  destruct (connect pool (snd w)) as [p [u|e]]; simpl; [|exact I].
  change (Batch.query (DB_SCHEMA cfg) tableName cols [])
    with (emptyInsert (DB_SCHEMA cfg) tableName cols).
  destruct (runQuery pool p _ _) as [p' [n|e]]; simpl; eauto 8.
Qed.

(** A table without rows delivers the header alone; the statement sent for
    it has no tuple and the database refuses it. *)
Example empty_table_statement :
  Obs.handed (trace emptyTableRun) = [[]]
  /\ In (EvQuery "INSERT INTO public.accounts (id, name) VALUES " []
                 (Err "syntax error at end of input"))
        (trace emptyTableRun).
Proof. split; [now vm_compute|]. vm_compute. intuition. Qed.

(** ** Rejected calls *)

Section Rejections.

Context {A P : Type}.
Variable cfg : Config.
Variable athena : Athena A.
Variable pool : PgPool P.

Lemma calm_app (t t' : list event) : calm t -> calm t' -> calm (t ++ t').
Proof. intros; apply Forall_app; auto. Qed.

Lemma Abrupt_bind {X Y} (m : @M A P X) (k : X -> @M A P Y) :
  Abrupt m -> (forall x, Abrupt (k x)) -> Abrupt (bind m k).
Proof.
  intros Hm Hk w. specialize (Hm w). unfold abrupt in *.
  rewrite trace_bind, out_bind.
  destruct (out (m w)) as [x|e|].
  - specialize (Hk x (world (m w))). unfold abrupt in Hk.
    destruct (out (k x (world (m w)))) as [y|e|].
    + now apply calm_app.
    + destruct Hk as (before & ev & -> & Hev & Hcalm).
      exists (trace (m w) ++ before)%list, ev. rewrite app_assoc.
      repeat split; auto. now apply calm_app.
    + now apply calm_app.
  - now rewrite app_nil_r.
  - now rewrite app_nil_r.
Qed.

Lemma Abrupt_emit (e : event) : raised e = None -> Abrupt (@emit A P e).
Proof. intros H w. unfold abrupt; simpl. now repeat constructor. Qed.

Lemma Abrupt_ret {X} (x : X) : Abrupt (@ret A P X x).
Proof. intros w. constructor. Qed.

Lemma Abrupt_pending {X} : Abrupt (@pending A P X).
Proof. intros w. constructor. Qed.

Lemma abrupt_call {W X} (ev : event) (w : W) (r : result X) :
  raised ev = match r with Ok _ => None | Err x => Some x end ->
  abrupt {| trace := [ev]; world := w; out := fromResult r |}.
Proof.
  intros H. unfold abrupt; destruct r as [x|e]; simpl.
  - now repeat constructor.
  - exists [], ev. repeat split; auto. constructor.
Qed.

Lemma Abrupt_start (input : StartQueryInput) :
  Abrupt (@sendStartQueryExecution A P athena input).
Proof.
  intros w. unfold sendStartQueryExecution.
  destruct (startQueryExecution athena (fst w) input) as [a r].
  apply abrupt_call. now destruct r.
Qed.

Lemma Abrupt_status (id : string) : Abrupt (@sendGetQueryExecution A P athena id).
Proof.
  intros w. unfold sendGetQueryExecution.
  destruct (getQueryExecution athena (fst w) id) as [a r].
  apply abrupt_call. now destruct r.
Qed.

Lemma Abrupt_results (id : string) (nextToken : option string) :
  Abrupt (@sendGetQueryResults A P athena id nextToken).
Proof.
  intros w. unfold sendGetQueryResults.
  destruct (getQueryResults athena (fst w) id nextToken) as [a r].
  apply abrupt_call. now destruct r.
Qed.

Lemma Abrupt_insert (tableName : string) (cols : list string) (rows : list (list value)) :
  Abrupt (@insertIntoPostgresAsBatch A P cfg pool tableName cols rows).
Proof.
  intros w. rewrite insert_run. cbv zeta. unfold abrupt.
  destruct (connect pool (snd w)) as [p [u|e]]; simpl.
  - destruct (runQuery pool p _ _) as [p' [n|e]]; simpl; now repeat constructor.
  - eexists [_; _], _. simpl. repeat split; now repeat constructor.
Qed.

Lemma Abrupt_fetchPages (id pgTableName : string) (cols : list string) (fuel : nat) :
  forall nextToken, Abrupt (fetchPages cfg athena pool fuel id pgTableName cols nextToken).
Proof.
  induction fuel as [|fuel IH]; intros nextToken; cbn [fetchPages];
    [apply Abrupt_pending|].
  apply Abrupt_bind; [apply Abrupt_results|intros resp].
  apply Abrupt_bind; [apply Abrupt_insert|intros _].
  destruct (Js.truthy (NextToken resp)); [apply IH|apply Abrupt_ret].
Qed.

Lemma Abrupt_pollExecution (id pgTableName : string) (cols : list string) (fuel : nat) :
  Abrupt (pollExecution cfg athena pool fuel id pgTableName cols).
Proof.
  induction fuel as [|fuel IH]; cbn [pollExecution]; [apply Abrupt_pending|].
  apply Abrupt_bind; [apply Abrupt_status|intros st].
  destruct (State st =? "FAILED"); [now apply Abrupt_emit|].
  destruct (State st =? "SUCCEEDED").
  - apply Abrupt_bind; [now apply Abrupt_emit|intros _; apply Abrupt_fetchPages].
  - apply Abrupt_bind; [now apply Abrupt_emit|intros _; apply IH].
Qed.

Lemma Abrupt_queryAthena (fuel : nat) (athTableName pgTableName : string)
      (cols : list string) :
  Abrupt (queryAthena cfg athena pool fuel athTableName pgTableName cols).
Proof.
  unfold queryAthena.
  apply Abrupt_bind; [now apply Abrupt_emit|intros _].
  apply Abrupt_bind; [now apply Abrupt_emit|intros _].
  apply Abrupt_bind; [apply Abrupt_start|intros id].
  apply Abrupt_bind; [apply Abrupt_pollExecution|intros _].
  now apply Abrupt_emit.
Qed.

Lemma Abrupt_forEachTable (fuel : nat) (entries : list TableEntry) :
  Abrupt (forEachTable cfg athena pool fuel entries).
Proof.
  induction entries as [|table rest IH]; cbn [forEachTable]; [apply Abrupt_ret|].
  apply Abrupt_bind; [apply Abrupt_queryAthena|intros _; exact IH].
Qed.

Lemma rejected_raised (e : event) :
  Obs.rejected e = match raised e with Some _ => true | None => false end.
Proof. destruct e as [| ? ? ? [|]| ? [|]| ? [|]| ? ? [|]| | [|]| | | |]; reflexivity. Qed.

Lemma calm_not_rejected (tr : list event) : calm tr -> existsb Obs.rejected tr = false.
Proof.
  induction 1 as [|e tr He _ IH]; simpl; [reflexivity|].
  now rewrite rejected_raised, He, IH.
Qed.

Lemma raised_rejected (tr : list event) (ev : event) (x : error) :
  In ev tr -> raised ev = Some x -> existsb Obs.rejected tr = true.
Proof.
  intros Hin Hev. apply existsb_exists. exists ev. split; [exact Hin|].
  now rewrite rejected_raised, Hev.
Qed.

(** In an abrupt run a rejected call is the end of the trace and its error
    is the outcome. *)
Lemma abrupt_last {W X} (r : Run W X) (ev : event) (x : error) :
  abrupt r -> In ev (trace r) -> raised ev = Some x ->
  out r = Thrown x /\ exists before, trace r = (before ++ [ev])%list.
Proof.
  unfold abrupt. intros Hr Hin Hev.
  assert (Hcalm : forall t, calm t -> In ev t -> False).
  { intros t Ht Hi. unfold calm in Ht. rewrite Forall_forall in Ht.
    specialize (Ht ev Hi). congruence. }
  destruct (out r) as [y|e|]; try (exfalso; now apply (Hcalm (trace r))).
  destruct Hr as (before & ev' & Htr & Hev' & Hbefore).
  rewrite Htr in Hin. apply in_app_or in Hin. destruct Hin as [Hin|[<-|[]]].
  - exfalso. now apply (Hcalm before).
  - split; [congruence|]. now exists before.
Qed.

(** *** The metadata lookups *)

Lemma requestMetadata_shape (tables : list string) :
  forall w : @World A P,
    let '(t, w', settled) := requestMetadata cfg athena tables w in
    Obs.pick Obs.metadataTable t = tables
    /\ Forall (fun e => Obs.isMetadata e = true) t
    /\ length t = length tables
    /\ promiseAll settled <> Pending
    /\ (forall entries, promiseAll settled = Returned entries ->
          calm t /\ map athName entries = tables
          /\ Forall (fun en => pgName en = Js.substring 6 (athName en)) entries)
    /\ (forall x, promiseAll settled = Thrown x ->
          exists ev, In ev t /\ raised ev = Some x).
Proof.
  induction tables as [|tableName rest IH]; intros w; cbn [requestMetadata].
  - split; [reflexivity|]. split; [constructor|]. split; [reflexivity|].
    split; [discriminate|]. split; [|discriminate].
    intros entries [= <-]. repeat split; constructor.
  - destruct (getTableMetadata athena (fst w) _ _ tableName) as [a r].
    specialize (IH (a, snd w)).
    destruct (requestMetadata cfg athena rest (a, snd w)) as [[t w'] settled].
    destruct IH as (Hpick & Hmeta & Hlen & Hpend & Hret & Hthrown).
    split; [simpl; now rewrite Hpick|]. split; [now constructor|].
    split; [simpl; now rewrite Hlen|].
    destruct r as [response|e]; cbn [promiseAll].
    + destruct (promiseAll settled) as [entries|x|] eqn:Eall.
      * split; [discriminate|]. split; [|discriminate].
        intros ? [= <-]. destruct (Hret entries eq_refl) as (Hc & Hn & Hp).
        split; [now constructor|]. split; [simpl; now rewrite Hn|].
        constructor; [reflexivity|exact Hp].
      * split; [discriminate|]. split; [discriminate|].
        intros ? [= <-]. destruct (Hthrown x eq_refl) as (ev & Hin & Hev).
        exists ev. split; [now right|exact Hev].
      * congruence.
    + split; [discriminate|]. split; [discriminate|].
      intros ? [= <-]. eexists. split; [now left|reflexivity].
Qed.

Lemma resolveTables_run (tables : list string) (w : @World A P) :
  let r := resolveTables cfg athena tables w in
  Obs.pick Obs.metadataTable (trace r) = tables
  /\ Forall (fun e => Obs.isMetadata e = true) (trace r)
  /\ length (trace r) = length tables
  /\ match out r with
     | Returned entries =>
         calm (trace r) /\ map athName entries = tables
         /\ Forall (fun en => pgName en = Js.substring 6 (athName en)) entries
     | Thrown x => exists ev, In ev (trace r) /\ raised ev = Some x
     | Pending => False
     end.
Proof.
  unfold resolveTables. pose proof (requestMetadata_shape tables w) as H.
  destruct (requestMetadata cfg athena tables w) as [[t w'] settled].
  destruct H as (Hpick & Hmeta & Hlen & Hpend & Hret & Hthrown). cbn.
  repeat split; auto.
  destruct (promiseAll settled) as [entries|x|]; auto.
Qed.

(** *** The whole run *)




(** The run of the module body: either a metadata lookup was rejected and
    the lookups are all there is, or the lookups were all answered and
    what follows them ends at the first rejected call. *)
Lemma main_shape (fuel : nat) (tables : list string) (elapsed : string) (w : @World A P) :
  let r := mainOf cfg athena pool fuel tables elapsed w in
  (Forall (fun e => Obs.isMetadata e = true) (trace r)
   /\ existsb Obs.rejected (trace r) = true /\ exists x, out r = Thrown x)
  \/ match out r with
     | Returned _ =>
         calm (trace r)
         /\ exists before,
             trace r = (before ++ [EvLog [("Script completed in " ++ elapsed ++ " seconds.")%string]])%list
     | Thrown x =>
         exists before ev, trace r = (before ++ [ev])%list /\ raised ev = Some x /\ calm before
     | Pending => calm (trace r)
     end.
Proof.
  intros r. subst r. unfold mainOf, insertTablesInOrderOf.
  rewrite !trace_bind, !out_bind.
  destruct (resolveTables_run tables w) as (_ & Hmeta & _ & Hout).
  set (r0 := resolveTables cfg athena tables w) in *.
  destruct (out r0) as [entries|x|]; [| |easy].
  - right. destruct Hout as (Hcalm & _ & _).
    pose proof (Abrupt_forEachTable fuel entries (world r0)) as Hab.
    set (r1 := forEachTable cfg athena pool fuel entries (world r0)) in *.
    unfold abrupt in Hab.
    destruct (out r1) as [[]|x|]; cbn [log emit trace out world].
    + split.
      * apply calm_app; [now apply calm_app|now repeat constructor].
      * eexists. reflexivity.
    + destruct Hab as (before & ev & -> & Hev & Hb).
      exists (trace r0 ++ before)%list, ev. rewrite !app_nil_r, app_assoc.
      repeat split; auto. now apply calm_app.
    + rewrite !app_nil_r. now apply calm_app.
  - left. rewrite !app_nil_r. split; [exact Hmeta|].
    destruct Hout as (ev & Hin & Hev). split; [|now exists x].
    now apply (raised_rejected _ ev x).
Qed.

Lemma main_exit (fuel : nat) (tables : list string) (elapsed : string) (w : @World A P) :
  let r := mainOf cfg athena pool fuel tables elapsed w in
  exitCode (out r) = match out r with
                     | Pending => None
                     | _ => Some (exitCodeByTrace (trace r))
                     end
  /\ (out r = Pending -> existsb Obs.rejected (trace r) = false).
Proof.
  intros r. pose proof (main_shape fuel tables elapsed w) as H. cbv zeta in H. fold r in H.
  destruct H as [(_ & Hrej & x & Hx)|H].
  - rewrite Hx. unfold exitCodeByTrace. rewrite Hrej. split; [reflexivity|discriminate].
  - unfold exitCodeByTrace. destruct (out r) as [[]|x|]; simpl.
    + destruct H as [Hc _]. rewrite (calm_not_rejected _ Hc). split; [reflexivity|discriminate].
    + destruct H as (before & ev & -> & Hev & _).
      rewrite (raised_rejected _ ev x); [split; [reflexivity|discriminate]| |exact Hev].
      apply in_or_app. right. now left.
    + split; [reflexivity|]. intros _. now apply calm_not_rejected.
Qed.



(** C7, as the script has it. A rejection of the query at submission is not
    caught anywhere: it is the outcome of the whole run, nothing happens
    after it, so the tables behind are never queried, and the exit code
    is 1. *)
Theorem submission_rejection_aborts_run (fuel : nat) (tables : list string)
        (elapsed : string) (w : @World A P) (input : StartQueryInput) (x : error) :
  let r := mainOf cfg athena pool fuel tables elapsed w in
  In (EvStartQueryExecution input (Err x)) (trace r) ->
  out r = Thrown x
  /\ (exists before, trace r = (before ++ [EvStartQueryExecution input (Err x)])%list)
  /\ exitCode (out r) = Some 1.
Proof.
  intros r Hin. subst r. unfold mainOf, insertTablesInOrderOf in *.
  rewrite !trace_bind, !out_bind in *.
  destruct (resolveTables_run tables w) as (_ & Hmeta & _ & Hout).
  set (r0 := resolveTables cfg athena tables w) in *.
  assert (Hnot : ~ In (EvStartQueryExecution input (Err x)) (trace r0)).
  { intros Hi. rewrite Forall_forall in Hmeta. now specialize (Hmeta _ Hi). }
  destruct (out r0) as [entries|y|]; [| |easy].
  - pose proof (Abrupt_forEachTable fuel entries (world r0)) as Hab.
    set (r1 := forEachTable cfg athena pool fuel entries (world r0)) in *.
    assert (Hin1 : In (EvStartQueryExecution input (Err x)) (trace r1)).
    { apply in_app_or in Hin. destruct Hin as [Hin|Hin].
      - apply in_app_or in Hin. destruct Hin as [Hin|Hin]; [contradiction|exact Hin].
      - destruct (out r1) as [[]|?|]; simpl in Hin; intuition; discriminate. }
    destruct (abrupt_last r1 _ x Hab Hin1 eq_refl) as (Ho & before & Htr).
    rewrite Ho. repeat split; auto.
    exists (trace r0 ++ before)%list. now rewrite Htr, app_nil_r, app_assoc.
  - simpl in Hin. rewrite !app_nil_r in Hin. contradiction.
Qed.

End Rejections.



(** C7, as the claim has it, fails: the first table is refused at
    submission, the run ends with that error and the two tables behind it
    are never queried. *)
Lemma refused_submission_stops_run :
  out refusedRun = Thrown "AccessDeniedException"
  /\ Obs.queried (trace refusedRun) = ["glue_table1"]
  /\ ~ In "glue_table2" (Obs.queried (trace refusedRun)).
Proof.
  split; [now vm_compute|]. split; [now vm_compute|].
  vm_compute. intros [H|[]]. discriminate.
Qed.

Lemma submission_rejection_aborts_run_witness :
  In (EvStartQueryExecution refusedInput (Err "AccessDeniedException")) (trace refusedRun)
  /\ out refusedRun = Thrown "AccessDeniedException"
  /\ exitCode (out refusedRun) = Some 1.
Proof.
  assert (Hin : In (EvStartQueryExecution refusedInput (Err "AccessDeniedException"))
                   (trace refusedRun)).
  { vm_compute. intuition. }
  split; [exact Hin|].
  pose proof (submission_rejection_aborts_run Scenario.config
                (Scenario.athenaOf Scenario.refusesFirst) (Scenario.poolOf Scenario.postgres)
                10 glueTableNameList "1.5" (0, 0) refusedInput
                "AccessDeniedException" Hin) as H.
  split; [exact (proj1 H)|exact (proj2 (proj2 H))].
Defined.


(** ** The events of a table *)

Section TableEvents.

Context {A P : Type}.
Variable cfg : Config.
Variable athena : Athena A.
Variable pool : PgPool P.

Lemma Always_insert (tableName : string) (cols : list string) (rows : list (list value)) :
  Always (loaderEvent (DB_SCHEMA cfg) tableName cols)
         (@insertIntoPostgresAsBatch A P cfg pool tableName cols rows).
Proof.
  intros w. destruct (insert_marks cfg pool tableName cols rows w) as (rest & -> & Hrest).
  constructor; [now split|].
  eapply Forall_impl; [|exact Hrest].
  intros [] H; simpl in *; try easy. exists rows. exact H.
Qed.

Lemma Always_fetchPages (id pg : string) (cols : list string) (fuel : nat) :
  forall nextToken,
    Always (pagingEvent (DB_SCHEMA cfg) pg cols)
           (fetchPages cfg athena pool fuel id pg cols nextToken).
Proof.
  induction fuel as [|fuel IH]; intros nextToken; cbn [fetchPages];
    [apply Always_pending|].
  apply Always_bind.
  - intros w. unfold sendGetQueryResults.
    destruct (getQueryResults athena (fst w) id nextToken) as [a r]. now repeat constructor.
  - intros resp. apply Always_bind.
    + eapply Always_impl; [|apply Always_insert]. now intros [].
    + intros _. destruct (Js.truthy (NextToken resp)); [apply IH|apply Always_ret].
Qed.

Lemma Always_pollExecution (t id pg : string) (cols : list string) (fuel : nat) :
  Always (insideEvent cfg t pg cols) (pollExecution cfg athena pool fuel id pg cols).
Proof.
  induction fuel as [|fuel IH]; cbn [pollExecution]; [apply Always_pending|].
  apply Always_bind.
  - intros w. unfold sendGetQueryExecution.
    destruct (getQueryExecution athena (fst w) id) as [a r]. now repeat constructor.
  - intros st. destruct (State st =? "FAILED"); [now apply Always_emit|].
    destruct (State st =? "SUCCEEDED"); (apply Always_bind; [now apply Always_emit|intros _]).
    + eapply Always_impl; [|apply Always_fetchPages]. now intros [].
    + exact IH.
Qed.

Lemma queryAthena_entry (fuel : nat) (t pg : string) (cols : list string) (w : @World A P) :
  exists rest,
    trace (queryAthena cfg athena pool fuel t pg cols w) = EvCallQueryAthena t pg cols :: rest
    /\ Forall (insideEvent cfg t pg cols) rest.
Proof.
  unfold queryAthena. rewrite trace_bind. cbn [emit trace out world app].
  eexists. split; [reflexivity|].
  revert w. apply Always_bind; [now apply Always_emit|intros _].
  apply Always_bind.
  - intros w. unfold sendStartQueryExecution.
    destruct (startQueryExecution athena (fst w) _) as [a r]. now repeat constructor.
  - intros id. apply Always_bind; [apply Always_pollExecution|intros _].
    now apply Always_emit.
Qed.

Lemma Always_queryAthena (fuel : nat) (t pg : string) (cols : list string) :
  Always (tableEvent cfg t pg cols) (queryAthena cfg athena pool fuel t pg cols).
Proof.
  intros w. destruct (queryAthena_entry fuel t pg cols w) as (rest & -> & Hrest).
  constructor; [easy|]. eapply Forall_impl; [|exact Hrest]. now intros [].
Qed.

(** *** A query that ends FAILED *)

Lemma pollExecution_failed (id pg : string) (cols : list string) (fuel : nat) :
  forall (w : @World A P) id' st,
    let r := pollExecution cfg athena pool fuel id pg cols w in
    In (EvGetQueryExecution id' (Ok st)) (trace r) -> State st = "FAILED" ->
    out r = Returned tt
    /\ Forall (fun e => Obs.isFetch e = false /\ Obs.isSubmit e = false
                        /\ Obs.handedRows e = None) (trace r)
    /\ exists before,
        trace r = (before ++ [EvGetQueryExecution id' (Ok st);
                              failedLog (StateChangeReason st)])%list.
Proof.
  induction fuel as [|fuel IH]; intros w id' st r Hin Hst; subst r; [destruct Hin|].
  cbn [pollExecution] in *. rewrite trace_bind, out_bind in *.
  unfold sendGetQueryExecution in *.
  destruct (getQueryExecution athena (fst w) id) as [a [st0|e]];
    cbn [trace out world fromResult app] in *.
  2:{ destruct Hin as [Hin|[]]. discriminate. }
  destruct (State st0 =? "FAILED") eqn:EF.
  - destruct Hin as [[= -> ->]|[Hin|[]]]; [|discriminate].
    split; [reflexivity|]. split; [now repeat constructor|]. now exists [].
  - destruct Hin as [[= -> ->]|Hin].
    { rewrite Hst in EF. discriminate. }
    destruct (State st0 =? "SUCCEEDED").
    + exfalso. rewrite trace_bind in Hin. cbn [log emit trace out world app] in Hin.
      destruct Hin as [Hin|Hin]; [discriminate|].
      pose proof (Always_fetchPages id pg cols fuel None (a, snd w)) as Hall.
      rewrite Forall_forall in Hall. exact (Hall _ Hin).
    + rewrite trace_bind, out_bind in *. cbn [sleep emit trace out world app] in *.
      destruct Hin as [Hin|Hin]; [discriminate|].
      destruct (IH (a, snd w) id' st Hin Hst) as (Ho & Hall & before & Htr).
      split; [exact Ho|]. split; [now repeat constructor|].
      exists (EvGetQueryExecution id (Ok st0) :: EvSleep 5000 :: before).
      simpl. now rewrite Htr.
Qed.

(** C6, as the script has it. When a status poll of a query answers FAILED,
    [queryAthena] logs the reason the service gave and returns normally: it
    raises no error, it submitted the query once and does not submit it
    again, it requests no result page and hands nothing to the loader; the
    poll is its last call to the service. *)
Theorem failed_query_logged_and_skipped (fuel : nat) (t pg : string) (cols : list string)
        (w : @World A P) (id : string) (st : QueryStatus) :
  let r := queryAthena cfg athena pool fuel t pg cols w in
  In (EvGetQueryExecution id (Ok st)) (trace r) -> State st = "FAILED" ->
  out r = Returned tt
  /\ (exists before,
        trace r = (before ++ [EvGetQueryExecution id (Ok st);
                              failedLog (StateChangeReason st); finishedLog t])%list)
  /\ length (filter Obs.isSubmit (trace r)) = 1
  /\ filter Obs.isFetch (trace r) = []
  /\ Obs.handed (trace r) = [].
Proof.
  intros r Hin Hst. subst r. unfold queryAthena in *.
  rewrite trace_bind, out_bind in *. cbn [log emit trace out world app] in *.
  destruct Hin as [Hin|Hin]; [discriminate|].
  rewrite trace_bind, out_bind in *. cbn [log emit trace out world app] in *.
  destruct Hin as [Hin|Hin]; [discriminate|].
  rewrite trace_bind, out_bind in *. unfold sendStartQueryExecution in *.
  destruct (startQueryExecution athena (fst w) _) as [a [qid|e]];
    cbn [trace out world fromResult app fst snd] in *.
  2:{ destruct Hin as [Hin|[]]. discriminate. }
  destruct Hin as [Hin|Hin]; [discriminate|].
  rewrite trace_bind, out_bind in *.
  assert (Hpoll : In (EvGetQueryExecution id (Ok st))
                     (trace (pollExecution cfg athena pool fuel qid pg cols (a, snd w)))).
  { apply in_app_or in Hin. destruct Hin as [Hin|Hin]; [exact Hin|].
    destruct (out (pollExecution cfg athena pool fuel qid pg cols (a, snd w)));
      simpl in Hin; intuition; discriminate. }
  destruct (pollExecution_failed qid pg cols fuel (a, snd w) id st Hpoll Hst)
    as (Ho & Hall & before & Htr).
  rewrite Ho. cbn [log emit trace out world]. split; [reflexivity|].
  assert (Hquiet : filter Obs.isSubmit
                     (trace (pollExecution cfg athena pool fuel qid pg cols (a, snd w))) = []
                   /\ filter Obs.isFetch
                        (trace (pollExecution cfg athena pool fuel qid pg cols (a, snd w))) = []
                   /\ Obs.handed
                        (trace (pollExecution cfg athena pool fuel qid pg cols (a, snd w))) = []).
  { clear - Hall. induction Hall as [|e l (H1 & H2 & H3) _ (IH1 & IH2 & IH3)]; [easy|].
    unfold Obs.handed in *. simpl. now rewrite H1, H2, H3. }
  destruct Hquiet as (Q1 & Q2 & Q3).
  split.
  { eexists (_ :: _ :: _ :: before). rewrite Htr. simpl. rewrite <- app_assoc. reflexivity. }
  unfold Obs.handed in *. simpl. rewrite !filter_app, pick_app, Q1, Q2, Q3. easy.
Qed.

End TableEvents.

(** C6, as the claim has it, fails: the query ends FAILED with a reason and
    [queryAthena] returns normally instead of failing with an error. *)
Lemma failed_query_returns_normally :
  In (EvGetQueryExecution "q1" (Ok (Scenario.failed "syntax error")))
     (trace syntaxErrorTableRun)
  /\ out syntaxErrorTableRun = Returned tt
  /\ ~ (exists x, out syntaxErrorTableRun = Thrown x).
Proof.
  split; [vm_compute; intuition|]. split; [now vm_compute|].
  intros [x Hx]. vm_compute in Hx. discriminate.
Qed.

Lemma failed_query_logged_and_skipped_witness :
  In (EvGetQueryExecution "q1" (Ok (Scenario.failed "syntax error")))
     (trace syntaxErrorTableRun)
  /\ State (Scenario.failed "syntax error") = "FAILED"
  /\ out syntaxErrorTableRun = Returned tt
  /\ filter Obs.isFetch (trace syntaxErrorTableRun) = [].
Proof.
  assert (Hin : In (EvGetQueryExecution "q1" (Ok (Scenario.failed "syntax error")))
                   (trace syntaxErrorTableRun)).
  { vm_compute. intuition. }
  split; [exact Hin|]. split; [reflexivity|].
  pose proof (failed_query_logged_and_skipped Scenario.config
                (Scenario.athenaOf Scenario.syntaxError) (Scenario.poolOf Scenario.postgres)
                10 "glue_table1" "able1" ["id"; "name"] Scenario.start
                "q1" (Scenario.failed "syntax error") Hin eq_refl) as H.
  split; [exact (proj1 H)|exact (proj1 (proj2 (proj2 (proj2 H))))].
Defined.


(** ** The order of the tables *)

Section Orchestration.

Context {A P : Type}.
Variable cfg : Config.
Variable athena : Athena A.
Variable pool : PgPool P.

Lemma queryAthena_queried (fuel : nat) (t pg : string) (cols : list string) (w : @World A P) :
  Obs.queried (trace (queryAthena cfg athena pool fuel t pg cols w)) = [t]
  /\ Forall (fun e => Obs.isMetadata e = false)
            (trace (queryAthena cfg athena pool fuel t pg cols w)).
Proof.
  destruct (queryAthena_entry cfg athena pool fuel t pg cols w) as (rest & -> & Hrest).
  unfold Obs.queried. simpl. split.
  - f_equal. apply pick_none. eapply Forall_impl; [|exact Hrest].
    intros [] H; simpl in *; easy.
  - constructor; [reflexivity|]. eapply Forall_impl; [|exact Hrest].
    intros [] H; simpl in *; easy.
Qed.

(** The loop over the tables: its trace is made of whole runs of
    [queryAthena], one per table and in the order of the list, up to the
    table at which the run stops. *)
Lemma forEachTable_segments (fuel : nat) (entries : list TableEntry) :
  forall w : @World A P,
    exists segs done todo,
      entries = (done ++ todo)%list
      /\ trace (forEachTable cfg athena pool fuel entries w) = concat segs
      /\ Forall2 (fun en seg =>
                    exists w', seg = trace (queryAthena cfg athena pool fuel (athName en)
                                                        (pgName en) (columns en) w'))
                 done segs
      /\ match out (forEachTable cfg athena pool fuel entries w) with
         | Returned _ => todo = []
         | _ => True
         end.
Proof.
  induction entries as [|en rest IH]; intros w; cbn [forEachTable].
  - exists [], [], []. repeat split; constructor.
  - rewrite trace_bind, out_bind.
    set (r := queryAthena cfg athena pool fuel (athName en) (pgName en) (columns en) w).
    destruct (out r) as [[]|x|] eqn:Eo.
    + destruct (IH (world r)) as (segs & done & todo & Hrest & Htr & Hseg & Hout).
      exists (trace r :: segs), (en :: done), todo.
      split; [simpl; now rewrite Hrest|]. split; [cbn [concat]; now rewrite Htr|].
      split; [constructor; [now exists w|exact Hseg]|exact Hout].
    + exists [trace r], [en], rest. simpl. rewrite app_nil_r.
      repeat split; auto. constructor; [now exists w|constructor].
    + exists [trace r], [en], rest. simpl. rewrite app_nil_r.
      repeat split; auto. constructor; [now exists w|constructor].
Qed.

Lemma segments_of_entries (fuel : nat) (done : list TableEntry) (segs : list (list event)) :
  Forall (fun en => pgName en = Js.substring 6 (athName en)) done ->
  Forall2 (fun en seg =>
             exists w', seg = trace (queryAthena cfg athena pool fuel (athName en)
                                                 (pgName en) (columns en) w'))
          done segs ->
  Forall2 (segmentOf cfg athena pool fuel) (map athName done) segs
  /\ Obs.queried (concat segs) = map athName done
  /\ Forall (Forall (fun e => Obs.isMetadata e = false)) segs.
Proof.
  intros Hpg Hseg. induction Hseg as [|en seg done segs (w' & ->) _ IH]; cbn [concat map].
  - repeat split; constructor.
  - inversion Hpg as [|? ? Hen Hrest]; subst.
    destruct (IH Hrest) as (I1 & I2 & I3).
    destruct (queryAthena_queried fuel (athName en) (pgName en) (columns en) w') as (Q1 & Q2).
    split; [|split].
    + constructor; [|exact I1]. exists (columns en), w'. now rewrite <- Hen.
    + unfold Obs.queried in *. now rewrite pick_app, Q1, I2.
    + now constructor.
Qed.

(** C8. The trace of [insertTablesInOrder] starts with the metadata
    lookups, one for every configured table and in the configured order,
    all of them sent whatever the answers; no lookup follows.  What follows
    is a sequence of whole runs of [queryAthena], one table after the
    other, for the configured tables in their order without gap or
    repetition, up to the table at which the run stops; a run that returns
    has gone through all of them. *)
Theorem tables_in_configured_order (fuel : nat) (tables : list string) (w : @World A P) :
  let r := insertTablesInOrderOf cfg athena pool fuel tables w in
  exists lookups segs done todo,
    trace r = (lookups ++ concat segs)%list
    /\ Obs.pick Obs.metadataTable lookups = tables
    /\ Forall (fun e => Obs.isMetadata e = true) lookups
    /\ Forall (Forall (fun e => Obs.isMetadata e = false)) segs
    /\ tables = (done ++ todo)%list
    /\ Forall2 (segmentOf cfg athena pool fuel) done segs
    /\ Obs.queried (trace r) = done
    /\ match out r with
       | Returned _ => todo = []
       | _ => True
       end.
Proof.
  intros r. subst r. unfold insertTablesInOrderOf. rewrite trace_bind, out_bind.
  destruct (resolveTables_run cfg athena tables w) as (Hpick & Hmeta & _ & Hout).
  set (r0 := resolveTables cfg athena tables w) in *.
  assert (Hnone : Obs.queried (trace r0) = []).
  { apply pick_none. eapply Forall_impl; [|exact Hmeta]. now intros []. }
  exists (trace r0).
  destruct (out r0) as [entries|x|]; [| |easy].
  - destruct Hout as (_ & Hnames & Hpg).
    destruct (forEachTable_segments fuel entries (world r0))
      as (segs & done & todo & -> & Htr & Hseg & Hdone).
    apply Forall_app in Hpg. destruct Hpg as [Hpg _].
    destruct (segments_of_entries fuel done segs Hpg Hseg) as (S1 & S2 & S3).
    exists segs, (map athName done), (map athName todo).
    rewrite Htr. repeat split; auto.
    + now rewrite <- Hnames, map_app.
    + unfold Obs.queried in *. now rewrite pick_app, Hnone, S2.
    + destruct (out (forEachTable cfg athena pool fuel (done ++ todo) (world r0)));
        auto. now rewrite Hdone.
  - exists [], [], tables. simpl. rewrite app_nil_r.
    repeat split; auto; constructor.
Qed.

(** *** The name of the target table *)

Lemma tableEvent_targets (tables : list string) (t : string) (cols : list string) (e : event) :
  In t tables ->
  tableEvent cfg t (Js.substring 6 t) cols e -> targetsCutName (DB_SCHEMA cfg) tables e.
Proof.
  intros Hin. destruct e; simpl; try easy.
  - intros (rows & -> & _). now exists t, cols, rows.
  - intros (-> & -> & _). auto.
  - intros (-> & _). now exists t.
Qed.

Lemma Always_forEachTable (fuel : nat) (tables : list string) (entries : list TableEntry) :
  Forall (fun en => In (athName en) tables /\ pgName en = Js.substring 6 (athName en)) entries ->
  Always (targetsCutName (DB_SCHEMA cfg) tables) (forEachTable cfg athena pool fuel entries).
Proof.
  induction 1 as [|en rest (Hin & Hpg) _ IH]; cbn [forEachTable]; [apply Always_ret|].
  apply Always_bind; [|intros _; exact IH].
  eapply Always_impl; [|apply Always_queryAthena].
  intros e. rewrite Hpg. now apply tableEvent_targets.
Qed.

Lemma Forall_pick {X Y : Type} (f : X -> option Y) (Q : X -> Prop) (R : Y -> Prop)
      (l : list X) :
  (forall x y, Q x -> f x = Some y -> R y) -> Forall Q l -> Forall R (Obs.pick f l).
Proof.
  intros H. induction 1 as [|x l Hx _ IH]; simpl; [constructor|].
  destruct (f x) as [y|] eqn:E; [constructor; eauto|exact IH].
Qed.

(** C10. The name of the target table is the name of the source table from
    its seventh character on, whatever the name: every call of
    [queryAthena], every call of the loader and every INSERT statement of a
    run names such a target, after "INSERT INTO" and the schema, and it is
    computed from the source name alone.  On the table names of the script
    itself, "glue_table1" to "glue_table3", whose prefix "glue_" has five
    characters, that is one character more than the prefix: the targets are
    "able1", "able2" and "able3", in every run, and never "table1". *)
Theorem target_name_drops_six_characters (fuel : nat) (tables : list string)
        (w : @World A P) :
  Forall (targetsCutName (DB_SCHEMA cfg) tables)
         (trace (insertTablesInOrderOf cfg athena pool fuel tables w))
  /\ (forall t response, pgName (tableEntry t response) = Js.substring 6 t)
  /\ (forall tableName cols rows,
        Batch.query (DB_SCHEMA cfg) tableName cols rows
        = "INSERT INTO " ++ DB_SCHEMA cfg ++ "." ++ tableName ++ " ("
            ++ Js.join ", " cols ++ ") VALUES " ++ Batch.valuePlaceholders rows)
  /\ map (Js.substring 6) glueTableNameList = ["able1"; "able2"; "able3"]
  /\ map (Js.substring 5) glueTableNameList = ["table1"; "table2"; "table3"]
  /\ Forall (fun target => In target ["able1"; "able2"; "able3"])
            (Obs.loaded (trace (insertTablesInOrder cfg athena pool fuel w)))
  /\ ~ In "table1" (Obs.loaded (trace (insertTablesInOrder cfg athena pool fuel w))).
Proof.
  assert (Hall : forall tables',
             Forall (targetsCutName (DB_SCHEMA cfg) tables')
                    (trace (insertTablesInOrderOf cfg athena pool fuel tables' w))).
  { intros tables'. unfold insertTablesInOrderOf. rewrite trace_bind.
    destruct (resolveTables_run cfg athena tables' w) as (_ & Hmeta & _ & Hout).
    apply Forall_app. split.
    - eapply Forall_impl; [|exact Hmeta]. now intros [].
    - destruct (out (resolveTables cfg athena tables' w)) as [entries|x|]; try constructor.
      destruct Hout as (_ & Hnames & Hpg).
      apply Always_forEachTable. rewrite Forall_forall in *.
      intros en Hen. split; [|now apply Hpg].
      rewrite <- Hnames. now apply in_map. }
  assert (Hloaded : Forall (fun target => In target ["able1"; "able2"; "able3"])
                           (Obs.loaded (trace (insertTablesInOrder cfg athena pool fuel w)))).
  { unfold Obs.loaded, insertTablesInOrder.
    apply (Forall_pick _ (targetsCutName (DB_SCHEMA cfg) glueTableNameList));
      [|apply Hall].
    intros [] target H [= <-]. destruct H as (t & Hin & ->).
    apply (in_map (Js.substring 6)) in Hin. exact Hin. }
  split; [apply Hall|]. split; [reflexivity|]. split; [reflexivity|].
  split; [reflexivity|]. split; [reflexivity|]. split; [exact Hloaded|].
  intros Hin. rewrite Forall_forall in Hloaded. specialize (Hloaded _ Hin).
  simpl in Hloaded. intuition discriminate.
Qed.

End Orchestration.

(** The script over the two pages of [accounts]: the loader is called for
    "able1", "able2" and "able3". *)
Example glue_table1_targets_able1 :
  pgName (tableEntry "glue_table1" Scenario.idName) = "able1"
  /\ Obs.loaded (trace acceptedRun) = ["able1"; "able1"; "able2"; "able2"; "able3"; "able3"]
  /\ In (EvQuery "INSERT INTO public.able1 (id, name) VALUES ($1, $2), ($3, $4)"
                 [Some "1"; Some "alice"; Some "2"; Some "bob"] (Ok 2))
        (trace acceptedRun).
Proof.
  split; [reflexivity|]. split; [now vm_compute|]. vm_compute. intuition.
Qed.

(** ** A rejected batch *)

Section RejectedBatch.

Context {A P P' : Type}.
Variable cfg : Config.
Variable athena : Athena A.
Variable pool : PgPool P.
Variable pool' : PgPool P'.

Lemma Sim_bind {X Y} (m : @M A P X) (m' : @M A P' X) (k : X -> @M A P Y) (k' : X -> @M A P' Y) :
  Sim m m' -> (forall x, Sim (k x) (k' x)) -> Sim (bind m k) (bind m' k').
Proof.
  intros Hm Hk a p p'. specialize (Hm a p p'). unfold catalogView in *.
  rewrite !trace_bind, !out_bind, !world_bind.
  injection Hm as Ht Ha Ho. rewrite Ho.
  destruct (out (m' (a, p'))) as [x|e|].
  - destruct (world (m (a, p))) as [a1 p1], (world (m' (a, p'))) as [a1' p1'].
    simpl in Ha. subst a1'. specialize (Hk x a1 p1 p1').
    injection Hk as Kt Ka Ko. rewrite !filter_app. congruence.
  - rewrite !app_nil_r. congruence.
  - rewrite !app_nil_r. congruence.
Qed.

Lemma Sim_emit (e : event) : Sim (@emit A P e) (@emit A P' e).
Proof. now intros a p p'. Qed.

Lemma Sim_ret {X} (x : X) : Sim (@ret A P X x) (@ret A P' X x).
Proof. now intros a p p'. Qed.

Lemma Sim_pending {X} : Sim (@pending A P X) (@pending A P' X).
Proof. now intros a p p'. Qed.

Lemma Sim_start (input : StartQueryInput) :
  Sim (@sendStartQueryExecution A P athena input) (@sendStartQueryExecution A P' athena input).
Proof.
  intros a p p'. unfold catalogView, sendStartQueryExecution. simpl.
  now destruct (startQueryExecution athena a input).
Qed.

Lemma Sim_status (id : string) :
  Sim (@sendGetQueryExecution A P athena id) (@sendGetQueryExecution A P' athena id).
Proof.
  intros a p p'. unfold catalogView, sendGetQueryExecution. simpl.
  now destruct (getQueryExecution athena a id).
Qed.

Lemma Sim_results (id : string) (nextToken : option string) :
  Sim (@sendGetQueryResults A P athena id nextToken)
      (@sendGetQueryResults A P' athena id nextToken).
Proof.
  intros a p p'. unfold catalogView, sendGetQueryResults. simpl.
  now destruct (getQueryResults athena a id nextToken).
Qed.

Lemma insert_view {Q : Type} (pl : PgPool Q) (tableName : string) (cols : list string)
      (rows : list (list value)) (a : A) (q : Q) :
  alwaysConnects pl ->
  catalogView (insertIntoPostgresAsBatch cfg pl tableName cols rows (a, q))
  = ([EvCallInsertBatch tableName cols rows], a, Returned tt).
Proof.
  intros Hc. rewrite insert_run. cbv zeta. specialize (Hc q).
  cbn [fst snd] in *. destruct (connect pl q) as [q1 [u|e]]; [|discriminate].
  destruct (runQuery pl q1 _ _) as [q2 [n|e]]; reflexivity.
Qed.

Hypothesis connects : alwaysConnects pool.
Hypothesis connects' : alwaysConnects pool'.

Lemma Sim_insert (tableName : string) (cols : list string) (rows : list (list value)) :
  Sim (@insertIntoPostgresAsBatch A P cfg pool tableName cols rows)
      (@insertIntoPostgresAsBatch A P' cfg pool' tableName cols rows).
Proof. intros a p p'. now rewrite !insert_view. Qed.

Lemma Sim_fetchPages (id pg : string) (cols : list string) (fuel : nat) :
  forall nextToken,
    Sim (fetchPages cfg athena pool fuel id pg cols nextToken)
        (fetchPages cfg athena pool' fuel id pg cols nextToken).
Proof.
  induction fuel as [|fuel IH]; intros nextToken; cbn [fetchPages]; [apply Sim_pending|].
  apply Sim_bind; [apply Sim_results|intros resp].
  apply Sim_bind; [apply Sim_insert|intros _].
  destruct (Js.truthy (NextToken resp)); [apply IH|apply Sim_ret].
Qed.

Lemma Sim_pollExecution (id pg : string) (cols : list string) (fuel : nat) :
  Sim (pollExecution cfg athena pool fuel id pg cols)
      (pollExecution cfg athena pool' fuel id pg cols).
Proof.
  induction fuel as [|fuel IH]; cbn [pollExecution]; [apply Sim_pending|].
  apply Sim_bind; [apply Sim_status|intros st].
  destruct (State st =? "FAILED"); [apply Sim_emit|].
  destruct (State st =? "SUCCEEDED");
    (apply Sim_bind; [apply Sim_emit|intros _]); [apply Sim_fetchPages|exact IH].
Qed.

Lemma Sim_queryAthena (fuel : nat) (t pg : string) (cols : list string) :
  Sim (queryAthena cfg athena pool fuel t pg cols)
      (queryAthena cfg athena pool' fuel t pg cols).
Proof.
  unfold queryAthena.
  apply Sim_bind; [apply Sim_emit|intros _].
  apply Sim_bind; [apply Sim_emit|intros _].
  apply Sim_bind; [apply Sim_start|intros id].
  apply Sim_bind; [apply Sim_pollExecution|intros _]. apply Sim_emit.
Qed.

Lemma Sim_forEachTable (fuel : nat) (entries : list TableEntry) :
  Sim (forEachTable cfg athena pool fuel entries)
      (forEachTable cfg athena pool' fuel entries).
Proof.
  induction entries as [|en rest IH]; cbn [forEachTable]; [apply Sim_ret|].
  apply Sim_bind; [apply Sim_queryAthena|intros _; exact IH].
Qed.

Lemma requestMetadata_pool (tables : list string) :
  forall a (p : P) (p' : P'),
    let '(t, w, settled) := requestMetadata cfg athena tables (a, p) in
    let '(t', w', settled') := requestMetadata cfg athena tables (a, p') in
    t = t' /\ fst w = fst w' /\ settled = settled'.
Proof.
  induction tables as [|tableName rest IH]; intros a p p'; cbn [requestMetadata fst snd];
    [easy|].
  destruct (getTableMetadata athena a _ _ tableName) as [a1 r].
  specialize (IH a1 p p').
  destruct (requestMetadata cfg athena rest (a1, p)) as [[t w] settled].
  destruct (requestMetadata cfg athena rest (a1, p')) as [[t' w'] settled'].
  destruct IH as (-> & Hw & ->). easy.
Qed.

Lemma Sim_resolveTables (tables : list string) :
  Sim (@resolveTables A P cfg athena tables) (@resolveTables A P' cfg athena tables).
Proof.
  intros a p p'. unfold catalogView, resolveTables.
  pose proof (requestMetadata_pool tables a p p') as H.
  destruct (requestMetadata cfg athena tables (a, p)) as [[t w] settled].
  destruct (requestMetadata cfg athena tables (a, p')) as [[t' w'] settled'].
  destruct H as (-> & Hw & ->). simpl. now rewrite Hw.
Qed.

Lemma Sim_main (fuel : nat) (tables : list string) (elapsed : string) :
  Sim (mainOf cfg athena pool fuel tables elapsed)
      (mainOf cfg athena pool' fuel tables elapsed).
Proof.
  unfold mainOf, insertTablesInOrderOf.
  apply Sim_bind; [|intros _; apply Sim_emit].
  apply Sim_bind; [apply Sim_resolveTables|intros entries; apply Sim_forEachTable].
Qed.

End RejectedBatch.

(** *** What follows a rejected batch *)

Section Progress.

Context {A P : Type}.
Variable cfg : Config.
Variable athena : Athena A.
Variable pool : PgPool P.

Lemma rounds_app (t t' : list event) : rounds (t ++ t') = rounds t + rounds t'.
Proof. unfold rounds. now rewrite filter_app, length_app. Qed.

Lemma Spends_bind {X Y} (fuel : nat) (m : @M A P X) (k : X -> @M A P Y) :
  Spends fuel m -> (forall x, Spends fuel (k x)) -> Spends fuel (bind m k).
Proof.
  intros Hm Hk w. specialize (Hm w). rewrite trace_bind, out_bind.
  destruct (out (m w)) as [x|e|].
  - intros Ho. specialize (Hk x (world (m w)) Ho). rewrite rounds_app. lia.
  - discriminate.
  - intros _. rewrite app_nil_r. now apply Hm.
Qed.

Lemma Spends_done {X} (fuel : nat) (m : @M A P X) :
  (forall w, out (m w) <> Pending) -> Spends fuel m.
Proof. intros H w Ho. now apply H in Ho. Qed.

Lemma insert_ends (tableName : string) (cols : list string) (rows : list (list value))
      (w : @World A P) :
  out (insertIntoPostgresAsBatch cfg pool tableName cols rows w) <> Pending.
Proof.
  rewrite insert_run. cbv zeta.
  destruct (connect pool (snd w)) as [p [u|e]]; [|discriminate].
  destruct (runQuery pool p _ _) as [p' [n|e]]; discriminate.
Qed.

Lemma fetchPages_spends (id pg : string) (cols : list string) (fuel : nat) :
  forall nextToken, Spends fuel (fetchPages cfg athena pool fuel id pg cols nextToken).
Proof.
  induction fuel as [|fuel IH]; intros nextToken w; [intros _; apply Nat.le_0_l|].
  cbn [fetchPages]. rewrite trace_bind, out_bind. unfold sendGetQueryResults.
  destruct (getQueryResults athena (fst w) id nextToken) as [a [resp|e]];
    cbn [trace out world fromResult]; [|discriminate].
  rewrite trace_bind, out_bind.
  set (ri := insertIntoPostgresAsBatch cfg pool pg cols (pageRows nextToken resp) (a, snd w)).
  pose proof (insert_ends pg cols (pageRows nextToken resp) (a, snd w)) as Hi. fold ri in Hi.
  destruct (out ri) as [[]|x|]; [|discriminate|congruence].
  destruct (Js.truthy (NextToken resp)); [|discriminate].
  intros Ho. specialize (IH (NextToken resp) (world ri) Ho).
  change (?a :: ?l)%list with ([a] ++ l)%list. rewrite !rounds_app.
  change (rounds [EvGetQueryResults id nextToken (Ok resp)]) with 1. lia.
Qed.

Lemma pollExecution_spends (id pg : string) (cols : list string) (fuel : nat) :
  Spends fuel (pollExecution cfg athena pool fuel id pg cols).
Proof.
  induction fuel as [|fuel IH]; intros w; [intros _; apply Nat.le_0_l|].
  cbn [pollExecution]. rewrite trace_bind, out_bind. unfold sendGetQueryExecution.
  destruct (getQueryExecution athena (fst w) id) as [a [st|e]];
    cbn [trace out world fromResult]; [|discriminate].
  destruct (State st =? "FAILED"); [discriminate|].
  destruct (State st =? "SUCCEEDED"); rewrite trace_bind, out_bind;
    cbn [log sleep emit trace out world]; intros Ho.
  - apply fetchPages_spends in Ho.
    change (?a :: ?l)%list with ([a] ++ l)%list. rewrite !rounds_app.
    change (rounds [EvGetQueryExecution id (Ok st)]) with 1. lia.
  - apply IH in Ho.
    change (?a :: ?l)%list with ([a] ++ l)%list. rewrite !rounds_app.
    change (rounds [EvGetQueryExecution id (Ok st)]) with 1. lia.
Qed.

Lemma queryAthena_spends (fuel : nat) (t pg : string) (cols : list string) :
  Spends fuel (queryAthena cfg athena pool fuel t pg cols).
Proof.
  unfold queryAthena.
  apply Spends_bind; [now apply Spends_done|intros _].
  apply Spends_bind; [now apply Spends_done|intros _].
  apply Spends_bind.
  - apply Spends_done. intros w. unfold sendStartQueryExecution.
    destruct (startQueryExecution athena (fst w) _) as [a [id|e]]; discriminate.
  - intros id. apply Spends_bind; [apply pollExecution_spends|intros _].
    now apply Spends_done.
Qed.

Lemma forEachTable_spends (fuel : nat) (entries : list TableEntry) :
  Spends fuel (forEachTable cfg athena pool fuel entries).
Proof.
  induction entries as [|en rest IH]; cbn [forEachTable]; [now apply Spends_done|].
  apply Spends_bind; [apply queryAthena_spends|intros _; exact IH].
Qed.

Lemma main_spends (fuel : nat) (tables : list string) (elapsed : string) :
  Spends fuel (mainOf cfg athena pool fuel tables elapsed).
Proof.
  unfold mainOf, insertTablesInOrderOf.
  apply Spends_bind; [|intros _; now apply Spends_done].
  apply Spends_bind; [|intros entries; apply forEachTable_spends].
  apply Spends_done. intros w.
  destruct (resolveTables_run cfg athena tables w) as (_ & _ & _ & Hout).
  intros Ho. now rewrite Ho in Hout.
Qed.

Lemma main_queried (fuel : nat) (tables : list string) (elapsed : string) (w : @World A P) :
  let r := mainOf cfg athena pool fuel tables elapsed w in
  out r = Returned tt -> Obs.queried (trace r) = tables.
Proof.
  intros r. subst r. unfold mainOf, insertTablesInOrderOf.
  rewrite !trace_bind, !out_bind.
  destruct (resolveTables_run cfg athena tables w) as (_ & Hmeta & _ & Hout).
  set (r0 := resolveTables cfg athena tables w) in *.
  assert (Hnone : Obs.queried (trace r0) = []).
  { apply pick_none. eapply Forall_impl; [|exact Hmeta]. now intros []. }
  destruct (out r0) as [entries|x|]; [|discriminate|easy].
  destruct Hout as (_ & Hnames & Hpg).
  destruct (forEachTable_segments cfg athena pool fuel entries (world r0))
    as (segs & done & todo & Hsplit & Htr & Hseg & Hdone).
  destruct (out (forEachTable cfg athena pool fuel entries (world r0))) as [[]|x|];
    [|discriminate|discriminate].
  intros _. subst todo. rewrite app_nil_r in Hsplit. subst done.
  destruct (segments_of_entries cfg athena pool fuel entries segs Hpg Hseg) as (_ & S2 & _).
  unfold Obs.queried in *. cbn [log emit trace].
  rewrite !pick_app, Hnone, Htr, S2, Hnames. cbn. now rewrite app_nil_r.
Qed.

(** A rejected call of the kind the script does not guard, other than a
    metadata lookup, is the last event of the run and its error is the
    outcome. *)
Lemma unguarded_rejection_ends_run (fuel : nat) (tables : list string) (elapsed : string)
      (w : @World A P) (ev : event) (x : error) :
  let r := mainOf cfg athena pool fuel tables elapsed w in
  In ev (trace r) -> raised ev = Some x -> Obs.isMetadata ev = false ->
  out r = Thrown x /\ exists before, trace r = (before ++ [ev])%list.
Proof.
  intros r Hin Hev Hnm. subst r. unfold mainOf, insertTablesInOrderOf in *.
  rewrite !trace_bind, !out_bind in *.
  destruct (resolveTables_run cfg athena tables w) as (_ & Hmeta & _ & Hout).
  set (r0 := resolveTables cfg athena tables w) in *.
  assert (Hnot : ~ In ev (trace r0)).
  { intros Hi. rewrite Forall_forall in Hmeta. specialize (Hmeta _ Hi). congruence. }
  destruct (out r0) as [entries|y|]; [| |easy].
  - pose proof (Abrupt_forEachTable cfg athena pool fuel entries (world r0)) as Hab.
    set (r1 := forEachTable cfg athena pool fuel entries (world r0)) in *.
    assert (Hin1 : In ev (trace r1)).
    { apply in_app_or in Hin. destruct Hin as [Hin|Hin].
      - apply in_app_or in Hin. destruct Hin as [Hin|Hin]; [contradiction|exact Hin].
      - destruct (out r1) as [[]|?|]; simpl in Hin; [|contradiction|contradiction].
        destruct Hin as [<-|[]]. discriminate. }
    destruct (abrupt_last r1 _ x Hab Hin1 Hev) as (Ho & before & Htr).
    rewrite Ho. split; [reflexivity|].
    exists (trace r0 ++ before)%list. now rewrite Htr, app_nil_r, app_assoc.
  - simpl in Hin. rewrite !app_nil_r in Hin. contradiction.
Qed.

Lemma rejected_batch_run (tableName : string) (cols : list string) (rows : list (list value))
      (w : @World A P) (p1 p2 : P) (x : error) :
  connect pool (snd w) = (p1, Ok tt) ->
  runQuery pool p1 (Batch.query (DB_SCHEMA cfg) tableName cols rows) (Batch.values rows)
  = (p2, Err x) ->
  insertIntoPostgresAsBatch cfg pool tableName cols rows w
  = {| trace := entering tableName cols rows
                  ++ EvConnect (Ok tt) :: rejectedBatch cfg tableName cols rows x;
       world := (fst w, release pool p2);
       out := Returned tt |}.
Proof. intros Hc Hq. rewrite insert_run. cbv zeta. now rewrite Hc, Hq. Qed.

(** One round of the paging loop whose batch the database rejects. *)
Lemma rejected_page_step (fuel : nat) (id pg : string) (cols : list string)
      (tok : option string) (w : @World A P) (a : A) (resp : QueryResults)
      (p1 p2 : P) (x : error) :
  getQueryResults athena (fst w) id tok = (a, Ok resp) ->
  connect pool (snd w) = (p1, Ok tt) ->
  runQuery pool p1 (Batch.query (DB_SCHEMA cfg) pg cols (pageRows tok resp))
           (Batch.values (pageRows tok resp)) = (p2, Err x) ->
  let next := (if Js.truthy (NextToken resp)
               then fetchPages cfg athena pool fuel id pg cols (NextToken resp)
               else ret tt) (a, release pool p2) in
  trace (fetchPages cfg athena pool (S fuel) id pg cols tok w)
  = ((EvGetQueryResults id tok (Ok resp)
        :: entering pg cols (pageRows tok resp) ++ [EvConnect (Ok tt)])
       ++ rejectedBatch cfg pg cols (pageRows tok resp) x ++ trace next)%list
  /\ out (fetchPages cfg athena pool (S fuel) id pg cols tok w) = out next.
Proof.
  intros Hf Hc Hq next. subst next. cbn [fetchPages].
  rewrite trace_bind, out_bind. unfold sendGetQueryResults. rewrite Hf.
  cbn [trace out world fromResult].
  rewrite trace_bind, out_bind.
  rewrite (rejected_batch_run pg cols (pageRows tok resp) (a, snd w) p1 p2 x Hc Hq).
  cbn [trace out world fst snd app]. rewrite <- !app_assoc. cbn [app]. now split.
Qed.

Lemma rejected_page_goes_on (fuel : nat) (id pg : string) (cols : list string)
      (tok : option string) (w : @World A P) (a : A) (resp : QueryResults)
      (p1 p2 : P) (x : error) :
  getQueryResults athena (fst w) id tok = (a, Ok resp) ->
  connect pool (snd w) = (p1, Ok tt) ->
  runQuery pool p1 (Batch.query (DB_SCHEMA cfg) pg cols (pageRows tok resp))
           (Batch.values (pageRows tok resp)) = (p2, Err x) ->
  let r := fetchPages cfg athena pool (S (S fuel)) id pg cols tok w in
  if Js.truthy (NextToken resp)
  then exists before answer after,
         trace r = (before ++ rejectedBatch cfg pg cols (pageRows tok resp) x
                      ++ EvGetQueryResults id (NextToken resp) answer :: after)%list
  else out r = Returned tt
       /\ exists before,
           trace r = (before ++ rejectedBatch cfg pg cols (pageRows tok resp) x)%list.
Proof.
  intros Hf Hc Hq r. subst r.
  destruct (rejected_page_step (S fuel) id pg cols tok w a resp p1 p2 x Hf Hc Hq) as [Ht Ho].
  rewrite Ht, Ho. clear Ht Ho.
  destruct (Js.truthy (NextToken resp)).
  - cbn [fetchPages]. rewrite trace_bind. unfold sendGetQueryResults. cbn [fst snd].
    destruct (getQueryResults athena a id (NextToken resp)) as [a' answer].
    cbn [trace out world].
    exists (EvGetQueryResults id tok (Ok resp)
              :: entering pg cols (pageRows tok resp) ++ [EvConnect (Ok tt)])%list, answer.
    eexists. reflexivity.
  - cbn [ret trace out]. split; [reflexivity|].
    exists (EvGetQueryResults id tok (Ok resp)
              :: entering pg cols (pageRows tok resp) ++ [EvConnect (Ok tt)])%list.
    now rewrite app_nil_r.
Qed.

End Progress.

(** C9, as the script has it. When the database rejects the statement of a
    batch, the loader logs the error with the name of the table, releases
    the connection and returns normally; the statement is sent once.  The
    paging loop goes on from there: when the page just handled announced a
    further page, the fetch of that page, with the token announced, is the
    next thing after the release; otherwise the loop returns.  A run in
    which no unguarded call is rejected, whatever the database answers to
    the statements, returns after querying every configured table, as long
    as its loops end within the fuel.  A refused connection is another
    matter: the request for it is outside the [try], so the error is the
    outcome of the whole run, nothing happens after it, and the exit code
    is 1.  And for two pools that hand out a connection whenever asked,
    the answers of the database make no difference to what the run shows to
    the catalog: the same commands, the same pages, the same batches handed
    to the loader for the same tables, the same end. *)
Theorem rejected_batch_does_not_stop_the_run {A P P' : Type} (cfg : Config)
        (athena : Athena A) (pool : PgPool P) (pool' : PgPool P') :
  (forall tableName cols rows (w : @World A P) p1 p2 x,
      connect pool (snd w) = (p1, Ok tt) ->
      runQuery pool p1 (Batch.query (DB_SCHEMA cfg) tableName cols rows) (Batch.values rows)
      = (p2, Err x) ->
      let r := insertIntoPostgresAsBatch cfg pool tableName cols rows w in
      out r = Returned tt
      /\ trace r = (entering tableName cols rows
                      ++ EvConnect (Ok tt) :: rejectedBatch cfg tableName cols rows x)%list)
  /\ (forall fuel id pg cols tok (w : @World A P) a resp p1 p2 x,
        getQueryResults athena (fst w) id tok = (a, Ok resp) ->
        connect pool (snd w) = (p1, Ok tt) ->
        runQuery pool p1 (Batch.query (DB_SCHEMA cfg) pg cols (pageRows tok resp))
                 (Batch.values (pageRows tok resp)) = (p2, Err x) ->
        let r := fetchPages cfg athena pool (S (S fuel)) id pg cols tok w in
        if Js.truthy (NextToken resp)
        then exists before answer after,
               trace r = (before ++ rejectedBatch cfg pg cols (pageRows tok resp) x
                            ++ EvGetQueryResults id (NextToken resp) answer :: after)%list
        else out r = Returned tt
             /\ exists before,
                 trace r = (before ++ rejectedBatch cfg pg cols (pageRows tok resp) x)%list)
  /\ (forall fuel tables elapsed (w : @World A P),
        let r := mainOf cfg athena pool fuel tables elapsed w in
        existsb Obs.rejected (trace r) = false -> rounds (trace r) < fuel ->
        out r = Returned tt /\ Obs.queried (trace r) = tables)
  /\ (forall fuel tables elapsed (w : @World A P) e,
        let r := mainOf cfg athena pool fuel tables elapsed w in
        In (EvConnect (Err e)) (trace r) ->
        out r = Thrown e
        /\ (exists before, trace r = (before ++ [EvConnect (Err e)])%list)
        /\ exitCode (out r) = Some 1)
  /\ (alwaysConnects pool -> alwaysConnects pool' ->
      forall fuel tables elapsed a p p',
        catalogView (mainOf cfg athena pool fuel tables elapsed (a, p))
        = catalogView (mainOf cfg athena pool' fuel tables elapsed (a, p'))).
Proof.
  split; [|split; [|split; [|split]]].
  - intros tableName cols rows w p1 p2 x Hc Hq r. subst r.
    rewrite (rejected_batch_run cfg pool tableName cols rows w p1 p2 x Hc Hq). now split.
  - intros fuel id pg cols tok w a resp p1 p2 x Hf Hc Hq.
    exact (rejected_page_goes_on cfg athena pool fuel id pg cols tok w a resp p1 p2 x Hf Hc Hq).
  - intros fuel tables elapsed w r Hrej Hfuel.
    pose proof (main_exit cfg athena pool fuel tables elapsed w) as He. cbv zeta in He.
    fold r in He. destruct He as [He _]. unfold exitCodeByTrace in He. rewrite Hrej in He.
    pose proof (main_spends cfg athena pool fuel tables elapsed w) as Hs. fold r in Hs.
    pose proof (main_queried cfg athena pool fuel tables elapsed w) as Hq. cbv zeta in Hq.
    fold r in Hq.
    destruct (out r) as [[]|x|]; [split; [reflexivity|now apply Hq]|discriminate|].
    specialize (Hs eq_refl). lia.
  - intros fuel tables elapsed w e r Hin.
    destruct (unguarded_rejection_ends_run cfg athena pool fuel tables elapsed w
                (EvConnect (Err e)) e Hin eq_refl eq_refl) as (Ho & Hb).
    fold r in Ho, Hb. rewrite Ho. now repeat split.
  - intros Hc Hc' fuel tables elapsed a p p'. now apply Sim_main.
Qed.

(** C9, as the claim has it, fails when what fails is the connection: the
    database is not reachable, the request for a connection is refused,
    and the loader neither logs nor returns.  The error ends the run: the
    second page of the first table, which the first page announced, is
    never fetched, the two tables behind are never queried, and the exit
    code is 1. *)
Lemma refused_connection_stops_run :
  out refusedConnectionRun = Thrown "connect ECONNREFUSED"
  /\ Seen.exchanges (trace refusedConnectionRun) = [(None, Some "t1")]
  /\ Obs.queried (trace refusedConnectionRun) = ["glue_table1"]
  /\ filter Seen.isLog (trace refusedConnectionRun)
     = [queryingLog "glue_table1";
        EvLog ["Query Succeeded. Now fetching results..."];
        EvLog ["Number of rows inserting to able1: 2"]]
  /\ exitCode (out refusedConnectionRun) = Some 1.
Proof. vm_compute. repeat split. Qed.

Lemma rejected_batch_does_not_stop_the_run_witness :
  existsb Obs.rejected
          (trace (mainOf Scenario.config (Scenario.athenaOf Scenario.accounts)
                         (Scenario.poolOf Scenario.uniqueViolation) 20 glueTableNameList
                         "1.5" (0, 0))) = false
  /\ rounds (trace (mainOf Scenario.config (Scenario.athenaOf Scenario.accounts)
                           (Scenario.poolOf Scenario.uniqueViolation) 20 glueTableNameList
                           "1.5" (0, 0))) < 20
  /\ out (mainOf Scenario.config (Scenario.athenaOf Scenario.accounts)
                 (Scenario.poolOf Scenario.uniqueViolation) 20 glueTableNameList
                 "1.5" (0, 0)) = Returned tt
  /\ Obs.queried (trace (mainOf Scenario.config (Scenario.athenaOf Scenario.accounts)
                                (Scenario.poolOf Scenario.uniqueViolation) 20
                                glueTableNameList "1.5" (0, 0))) = glueTableNameList
  /\ length (filter Seen.isRejectedStatement
               (trace (mainOf Scenario.config (Scenario.athenaOf Scenario.accounts)
                              (Scenario.poolOf Scenario.uniqueViolation) 20
                              glueTableNameList "1.5" (0, 0)))) = 6
  /\ (exists before answer after,
        trace (fetchPages Scenario.config (Scenario.athenaOf Scenario.accounts)
                          (Scenario.poolOf Scenario.uniqueViolation) 2
                          "q1" "accounts" ["id"; "name"] None (0, 0))
        = (before
             ++ rejectedBatch Scenario.config "accounts" ["id"; "name"]
                              (pageRows None firstAccountsPage)
                              "duplicate key value violates unique constraint"
             ++ EvGetQueryResults "q1" (NextToken firstAccountsPage) answer :: after)%list)
  /\ alwaysConnects (Scenario.poolOf Scenario.uniqueViolation)
  /\ alwaysConnects (Scenario.poolOf Scenario.postgres)
  /\ catalogView (mainOf Scenario.config (Scenario.athenaOf Scenario.accounts)
                         (Scenario.poolOf Scenario.uniqueViolation) 5 glueTableNameList
                         "1.5" (0, 0))
     = catalogView (mainOf Scenario.config (Scenario.athenaOf Scenario.accounts)
                           (Scenario.poolOf Scenario.postgres) 5 glueTableNameList
                           "1.5" (0, 0)).
Proof.
  assert (H1 : existsb Obs.rejected
                 (trace (mainOf Scenario.config (Scenario.athenaOf Scenario.accounts)
                                (Scenario.poolOf Scenario.uniqueViolation) 20
                                glueTableNameList "1.5" (0, 0))) = false)
    by (vm_compute; reflexivity).
  assert (H2 : rounds (trace (mainOf Scenario.config (Scenario.athenaOf Scenario.accounts)
                                     (Scenario.poolOf Scenario.uniqueViolation) 20
                                     glueTableNameList "1.5" (0, 0))) < 20).
  { apply Nat.ltb_lt. vm_compute. reflexivity. }
  assert (C1 : alwaysConnects (Scenario.poolOf Scenario.uniqueViolation))
    by (intros p; reflexivity).
  assert (C2 : alwaysConnects (Scenario.poolOf Scenario.postgres)) by (intros p; reflexivity).
  pose proof (rejected_batch_does_not_stop_the_run Scenario.config
                (Scenario.athenaOf Scenario.accounts)
                (Scenario.poolOf Scenario.uniqueViolation)
                (Scenario.poolOf Scenario.postgres)) as (_ & Hpage & Hrun & _ & Hsim).
  split; [exact H1|]. split; [exact H2|].
  split; [exact (proj1 (Hrun 20 glueTableNameList "1.5" (0, 0) H1 H2))|].
  split; [exact (proj2 (Hrun 20 glueTableNameList "1.5" (0, 0) H1 H2))|].
  split; [vm_compute; reflexivity|].
  split.
  { pose proof (Hpage 0 "q1" "accounts" ["id"; "name"] None (0, 0) 0 firstAccountsPage 1 1
                      "duplicate key value violates unique constraint"
                      eq_refl eq_refl eq_refl) as Hp.
    cbv zeta in Hp. change (Js.truthy (NextToken firstAccountsPage)) with true in Hp.
    cbv iota in Hp. exact Hp. }
  split; [exact C1|]. split; [exact C2|].
  exact (Hsim C1 C2 5 glueTableNameList "1.5" 0 0 0).
Defined.


(** * The rest of the script: properties *)

(** ** insertIntoPostgres *)

Section RowByRowFacts.

Context {A P : Type}.
Variable cfg : Config.
Variable pool : PgPool P.

Local Abbreviation rowInsert := (@insertRow A P cfg pool).
Local Abbreviation rowLoop := (@forEachRow A P cfg pool).

Lemma insertRow_run (tableName : string) (cols : list string) (row : list value)
      (w : @World A P) :
  rowInsert tableName cols row w
  = let text := rowQuery cfg tableName cols in
    match connect pool (snd w) with
    | (p, Err e) =>
        {| trace := [EvConnect (Err e)]; world := (fst w, p); out := Thrown e |}
    | (p, Ok u) =>
        match runQuery pool p text row with
        | (p', Ok n) =>
            {| trace := [EvConnect (Ok u); EvQuery text row (Ok n); EvRelease];
               world := (fst w, release pool p'); out := Returned tt |}
        | (p', Err e) =>
            {| trace := [EvConnect (Ok u); EvQuery text row (Err e);
                         EvLog ["Error while inserting into Postgres"; e]; EvRelease];
               world := (fst w, release pool p'); out := Returned tt |}
        end
    end.
Proof.
  unfold insertRow, bind, tryCatchFinally, poolConnect, clientQuery, clientRelease,
    log, emit, ret; cbn [trace out world fromResult app fst snd].
  destruct (connect pool (snd w)) as [p [u|e]];
    cbn [trace out world fromResult app fst snd]; [|reflexivity].
  destruct (runQuery pool p _ _) as [p' [n|e]]; reflexivity.
Qed.

Lemma forEachRow_prefix (tableName : string) (cols : list string) (rows : list (list value)) :
  forall w : @World A P,
    let r := rowLoop tableName cols rows w in
    exists k,
      k <= length rows
      /\ Seen.statements (trace r)
         = map (fun row => (rowQuery cfg tableName cols, row)) (firstn k rows)
      /\ Seen.leases (trace r) = Seen.pairs k
      /\ match out r with
         | Returned _ => k = length rows
         | Thrown x => k < length rows
                       /\ exists before, trace r = (before ++ [EvConnect (Err x)])%list
         | Pending => False
         end.
Proof.
  induction rows as [|row rest IH]; intros w r; subst r; cbn [forEachRow].
  - exists 0. repeat split; auto.
  - rewrite trace_bind, out_bind, insertRow_run. cbv zeta.
    destruct (connect pool (snd w)) as [p [[]|e]]; cbn [trace out world].
    + assert (Hstep : forall answer extra,
                 Forall (fun e => Seen.statement e = None /\ Seen.isLease e = false) extra ->
                 forall w',
                 exists k,
                   k <= length (row :: rest)
                   /\ Seen.statements
                        ((EvConnect (Ok tt) :: EvQuery (rowQuery cfg tableName cols) row answer
                            :: extra ++ [EvRelease]) ++ trace (rowLoop tableName cols rest w'))
                      = map (fun row => (rowQuery cfg tableName cols, row))
                            (firstn k (row :: rest))
                   /\ Seen.leases
                        ((EvConnect (Ok tt) :: EvQuery (rowQuery cfg tableName cols) row answer
                            :: extra ++ [EvRelease]) ++ trace (rowLoop tableName cols rest w'))
                      = Seen.pairs k
                   /\ match out (rowLoop tableName cols rest w') with
                      | Returned _ => k = length (row :: rest)
                      | Thrown x =>
                          k < length (row :: rest)
                          /\ exists before,
                              ((EvConnect (Ok tt)
                                  :: EvQuery (rowQuery cfg tableName cols) row answer
                                  :: extra ++ [EvRelease])
                                 ++ trace (rowLoop tableName cols rest w'))%list
                              = (before ++ [EvConnect (Err x)])%list
                      | Pending => False
                      end).
      { intros answer extra Hextra w'. destruct (IH w') as (k & Hk & Hs & Hl & Ho).
        exists (S k). split; [simpl; lia|].
        assert (Hes : Obs.pick Seen.statement extra = []).
        { apply pick_none. eapply Forall_impl; [|exact Hextra]. now intros e [? ?]. }
        assert (Hel : filter Seen.isLease extra = []).
        { clear - Hextra. induction Hextra as [|e l [_ He] _ IHl]; simpl; [reflexivity|].
          now rewrite He. }
        unfold Seen.statements, Seen.leases in *.
        split; [|split].
        - cbn [app Obs.pick Seen.statement]. rewrite !pick_app, Hes, Hs. reflexivity.
        - cbn [app filter Seen.isLease Obs.isAcquire Obs.isRelease orb].
          rewrite !filter_app, Hel, Hl. reflexivity.
        - destruct (out (rowLoop tableName cols rest w')) as [[]|x|]; [simpl; lia| |easy].
          destruct Ho as (Hlt & before & Hb). split; [simpl; lia|].
          eexists. rewrite Hb, app_assoc. reflexivity. }
      destruct (runQuery pool p _ _) as [p' [n|e]]; cbn [trace out world].
      * apply (Hstep (Ok n) []); constructor.
      * apply (Hstep (Err e) [EvLog ["Error while inserting into Postgres"; e]]).
        now repeat constructor.
    + exists 0. rewrite app_nil_r. split; [simpl; lia|]. split; [reflexivity|].
      split; [reflexivity|]. split; [simpl; lia|]. now exists [].
Qed.

(** X1. Whatever the pool and the database do, [insertIntoPostgres] sends
    the rows one statement each, in the order of the rows, every statement
    with the same text and the row as its parameters, as far as it gets:
    it stops only when the pool refuses a connection, and that error is its
    outcome.  Every statement has its own connection, given back before the
    next is taken. *)
Theorem row_by_row_sends_rows_in_order (tableName : string) (cols : list string)
        (rows : list (list value)) (w : @World A P) :
  let r := insertIntoPostgres cfg pool tableName cols rows w in
  exists k,
    k <= length rows
    /\ Seen.statements (trace r)
       = map (fun row => (rowQuery cfg tableName cols, row)) (firstn k rows)
    /\ Seen.leases (trace r) = Seen.pairs k
    /\ match out r with
       | Returned _ =>
           k = length rows
           /\ exists before,
               trace r = (before ++ [insertedLog tableName (length rows)])%list
       | Thrown x =>
           k < length rows
           /\ exists before, trace r = (before ++ [EvConnect (Err x)])%list
       | Pending => False
       end.
Proof.
  intros r. subst r. unfold insertIntoPostgres.
  rewrite trace_bind, out_bind. cbn [log emit trace out world].
  rewrite trace_bind, out_bind.
  destruct (forEachRow_prefix tableName cols rows w) as (k & Hk & Hs & Hl & Ho).
  exists k. split; [exact Hk|].
  unfold Seen.statements, Seen.leases in *.
  destruct (out (rowLoop tableName cols rows w)) as [[]|x|]; [| |easy];
    cbn [log emit trace out world app Obs.pick Seen.statement filter Seen.isLease
         Obs.isAcquire Obs.isRelease orb].
  - rewrite pick_app, filter_app, Hs, Hl. cbn. rewrite !app_nil_r.
    repeat split; auto. eexists (_ :: _). reflexivity.
  - rewrite app_nil_r, Hs, Hl. destruct Ho as (Hlt & before & Hb).
    repeat split; auto. exists (EvLog ["Number of rows inserting to " ++ tableName ++ ": "
                                         ++ Js.showNat (length rows)] :: before).
    now rewrite Hb.
Qed.

Lemma forEachRow_complete (tableName : string) (cols : list string) (rows : list (list value)) :
  alwaysConnects pool ->
  forall w : @World A P,
    let r := rowLoop tableName cols rows w in
    out r = Returned tt
    /\ length (filter Obs.isQuery (trace r)) = length rows
    /\ length (filter Seen.isLog (trace r))
       = length (filter Seen.isRejectedStatement (trace r)).
Proof.
  intros Hc. induction rows as [|row rest IH]; intros w r; subst r; cbn [forEachRow].
  - now repeat split.
  - rewrite trace_bind, out_bind, insertRow_run. cbv zeta.
    pose proof (Hc (snd w)) as Hcw.
    destruct (connect pool (snd w)) as [p [[]|e]]; [|discriminate].
    destruct (runQuery pool p _ _) as [p' [n|e]]; cbn [trace out world];
      destruct (IH (fst w, release pool p')) as (Ho & Hq & Hl);
      rewrite Ho, !filter_app, !length_app, Hq, Hl; now repeat split.
Qed.

(** X2. With a pool that hands out a connection whenever asked,
    [insertIntoPostgres] returns normally whatever the database answers to
    the statements: it sends one statement per row, logs one error line per
    rejected statement, and its closing line reports all the rows as
    inserted, rejected ones included. *)
Theorem row_by_row_reports_every_row (tableName : string) (cols : list string)
        (rows : list (list value)) (w : @World A P) :
  alwaysConnects pool ->
  let r := insertIntoPostgres cfg pool tableName cols rows w in
  out r = Returned tt
  /\ length (filter Obs.isQuery (trace r)) = length rows
  /\ length (filter Seen.isLog (trace r))
     = 2 + length (filter Seen.isRejectedStatement (trace r))
  /\ exists before, trace r = (before ++ [insertedLog tableName (length rows)])%list.
Proof.
  intros Hc r. subst r. unfold insertIntoPostgres.
  rewrite trace_bind, out_bind. cbn [log emit trace out world].
  rewrite trace_bind, out_bind.
  destruct (forEachRow_complete tableName cols rows Hc w) as (Ho & Hq & Hl).
  rewrite Ho. cbn [log emit trace out world].
  change (?a :: ?l ++ ?m)%list with ([a] ++ l ++ m)%list.
  rewrite !filter_app, !length_app, Hq, Hl. cbn.
  split; [reflexivity|]. split; [lia|]. split; [lia|].
  eexists (_ :: _). reflexivity.
Qed.

End RowByRowFacts.

Lemma row_by_row_reports_every_row_witness :
  alwaysConnects (Scenario.poolOf Scenario.uniqueViolation)
  /\ out (@insertIntoPostgres nat nat Scenario.config (Scenario.poolOf Scenario.uniqueViolation)
            "accounts" ["id"; "name"] threeRows (0, 0)) = Returned tt
  /\ length (filter Seen.isRejectedStatement
               (trace (@insertIntoPostgres nat nat Scenario.config
                         (Scenario.poolOf Scenario.uniqueViolation)
                         "accounts" ["id"; "name"] threeRows (0, 0)))) = 3.
Proof.
  assert (H : alwaysConnects (Scenario.poolOf Scenario.uniqueViolation)) by (intros p; reflexivity).
  split; [exact H|]. split.
  - exact (proj1 (@row_by_row_reports_every_row nat nat Scenario.config
                    (Scenario.poolOf Scenario.uniqueViolation)
                    "accounts" ["id"; "name"] threeRows (0, 0) H)).
  - vm_compute. reflexivity.
Defined.

(** ** The two loaders side by side *)

Lemma mapi_from_index {X Y : Type} (g : nat -> Y) (l : list X) :
  forall i, Js.mapi_from (fun _ idx => g idx) i l = map g (seq i (length l)).
Proof. induction l as [|x l IH]; intros i; simpl; [reflexivity|]. now rewrite IH. Qed.

Lemma rowPlaceholders_seq (cols : list string) :
  rowPlaceholders cols
  = Js.join ", " (map (fun k => "$" ++ Js.showNat k) (seq 1 (length cols))).
Proof.
  unfold rowPlaceholders, Js.mapi.
  rewrite (mapi_from_index (fun idx => "$" ++ Js.showNat (idx + 1))).
  rewrite <- seq_shift, map_map. f_equal. apply map_ext. intros k.
  now rewrite Nat.add_1_r.
Qed.

Lemma valuePlaceholders_one_row (row : list value) :
  Batch.valuePlaceholders [row]
  = "(" ++ Js.join ", " (map (fun k => "$" ++ Js.showNat k) (seq 1 (length row))) ++ ")".
Proof.
  unfold Batch.valuePlaceholders. rewrite placeholders_mapi.
  cbn [Batch.columnsCount]. unfold Js.mapi. cbn [Js.mapi_from map Js.join].
  unfold Batch.showRow. rewrite rowNumbers_seq, map_map. reflexivity.
Qed.

(** X3. For a row that has as many cells as there are columns, the statement
    [insertIntoPostgres] sends is the statement [insertIntoPostgresAsBatch]
    builds for the batch made of that row alone, and the parameters are the
    same. *)
Theorem row_statement_is_one_row_batch (cfg : Config) (tableName : string)
        (cols : list string) (row : list value) :
  length row = length cols ->
  rowQuery cfg tableName cols = Batch.query (DB_SCHEMA cfg) tableName cols [row]
  /\ Batch.values [row] = row.
Proof.
  intros Hlen. split.
  - unfold rowQuery, Batch.query.
    rewrite valuePlaceholders_one_row, rowPlaceholders_seq, Hlen. reflexivity.
  - rewrite values_concat. cbn [concat]. apply app_nil_r.
Qed.

Lemma row_statement_is_one_row_batch_witness :
  length [Some "1"; (None : value)] = length ["id"; "name"]
  /\ rowQuery Scenario.config "accounts" ["id"; "name"]
     = Batch.query "public" "accounts" ["id"; "name"] [[Some "1"; None]].
Proof.
  split; [reflexivity|].
  exact (proj1 (row_statement_is_one_row_batch Scenario.config "accounts" ["id"; "name"]
                  [Some "1"; None] eq_refl)).
Defined.

(** ** Batches with rows of different widths *)

Lemma length_rowNumbers (c i n : nat) : length (rowNumbers c i n) = n.
Proof. unfold rowNumbers. now rewrite length_map, length_seq. Qed.

Lemma length_concat_mapi (c : nat) (rows : list (list value)) :
  forall k,
    length (concat (Js.mapi_from (fun row i => rowNumbers c i (length row)) k rows))
    = length (concat rows).
Proof.
  induction rows as [|row rows IH]; intros k; simpl; [reflexivity|].
  now rewrite !length_app, IH, length_rowNumbers.
Qed.

(** X4. For every batch, also one whose rows differ in width, the statement
    has as many placeholders as the parameter array has values.  The number
    of the placeholder of row i, column j is i times the width of the first
    row, plus j+1, whatever the widths of the rows in between. *)
Theorem placeholders_follow_first_row (rows : list (list value)) :
  length (concat (Batch.placeholders rows)) = length (Batch.values rows)
  /\ forall i row j,
       nth_error rows i = Some row -> j < length row ->
       nth_error (nth i (Batch.placeholders rows) []) j
       = Some (Some (i * length (hd [] rows) + j + 1)).
Proof.
  rewrite values_concat, placeholders_mapi. split.
  - destruct rows as [|row0 rest]; [reflexivity|].
    cbn [Batch.columnsCount]. unfold Js.mapi. apply length_concat_mapi.
  - intros i row j Hi Hj.
    destruct rows as [|row0 rest]; [now destruct i|].
    cbn [Batch.columnsCount hd]. unfold Js.mapi.
    assert (Hlt : i < length (row0 :: rest)).
    { apply nth_error_Some. congruence. }
    rewrite (nth_mapi_from _ ([] : list value)) by exact Hlt.
    rewrite (nth_error_nth _ _ _ Hi), rowNumbers_seq, nth_error_map,
      nth_error_seq_lt by exact Hj.
    simpl. do 2 f_equal. lia.
Qed.

(** ** The polling loop *)

Section PollingFacts.

Context {A P : Type}.
Variable cfg : Config.
Variable athena : Athena A.
Variable pool : PgPool P.

(** X5. With a catalog that never answers FAILED or SUCCEEDED - a cancelled
    execution answers CANCELLED for ever - the polling loop does not end:
    however long it is run, it has neither returned nor thrown, and all it
    has done is poll the same execution and pause five seconds, in turn. *)
Theorem polling_never_gives_up (fuel : nat) (id pg : string) (cols : list string)
        (w : @World A P) :
  neverSettles athena ->
  let r := pollExecution cfg athena pool fuel id pg cols w in
  out r = Pending
  /\ exists turns,
      length turns = fuel
      /\ Forall (isPollThenSleep id) turns
      /\ trace r = flatten turns.
Proof.
  intros Hn. revert w. induction fuel as [|fuel IH]; intros w r; subst r.
  - split; [reflexivity|]. exists []. now repeat split.
  - cbn [pollExecution]. rewrite trace_bind, out_bind. unfold sendGetQueryExecution.
    destruct (Hn (fst w) id) as (a' & st & -> & HF & HS).
    cbn [trace out world fromResult]. rewrite HF, HS, trace_bind, out_bind.
    cbn [sleep emit trace out world app].
    destruct (IH (a', snd w)) as (Ho & turns & Hlen & Hall & Htr).
    split; [exact Ho|].
    exists ((EvGetQueryExecution id (Ok st), EvSleep 5000) :: turns).
    split; [simpl; now rewrite Hlen|]. split.
    + constructor; [|exact Hall]. split; [|reflexivity]. exists st. now repeat split.
    + cbn [flatten]. now rewrite Htr.
Qed.

(** *** One submission, one execution *)

Lemma Always_fetchPages_about (id pg : string) (cols : list string) (fuel : nat) :
  forall nextToken,
    Always (aboutExecution id) (fetchPages cfg athena pool fuel id pg cols nextToken).
Proof.
  induction fuel as [|fuel IH]; intros nextToken; cbn [fetchPages];
    [apply Always_pending|].
  apply Always_bind.
  - intros w. unfold sendGetQueryResults.
    destruct (getQueryResults athena (fst w) id nextToken) as [a r]. now repeat constructor.
  - intros resp. apply Always_bind.
    + eapply Always_impl; [|apply (Always_insert cfg pool)]. now intros [].
    + intros _. destruct (Js.truthy (NextToken resp)); [apply IH|apply Always_ret].
Qed.

Lemma Always_pollExecution_about (id pg : string) (cols : list string) (fuel : nat) :
  Always (aboutExecution id) (pollExecution cfg athena pool fuel id pg cols).
Proof.
  induction fuel as [|fuel IH]; cbn [pollExecution]; [apply Always_pending|].
  apply Always_bind.
  - intros w. unfold sendGetQueryExecution.
    destruct (getQueryExecution athena (fst w) id) as [a r]. now repeat constructor.
  - intros st. destruct (State st =? "FAILED"); [now apply Always_emit|].
    destruct (State st =? "SUCCEEDED"); (apply Always_bind; [now apply Always_emit|intros _]).
    + apply Always_fetchPages_about.
    + exact IH.
Qed.

(** X6. Every call of [queryAthena] submits the query exactly once, whatever
    happens afterwards; and when the submission is accepted, every status
    poll and every fetch of that call is about the execution the submission
    returned. *)
Theorem one_submission_one_execution (fuel : nat) (t pg : string) (cols : list string)
        (w : @World A P) :
  let r := queryAthena cfg athena pool fuel t pg cols w in
  length (filter Obs.isSubmit (trace r)) = 1
  /\ forall input id,
       In (EvStartQueryExecution input (Ok id)) (trace r) ->
       input = startQueryInput cfg t cols
       /\ Forall (fun e => forall i, Seen.execution e = Some i -> i = id) (trace r).
Proof.
  intros r. subst r. unfold queryAthena.
  rewrite trace_bind. cbn [log emit trace out world app].
  rewrite trace_bind. cbn [log emit trace out world app].
  rewrite trace_bind. unfold sendStartQueryExecution.
  destruct (startQueryExecution athena (fst w) _) as [a [id0|e]];
    cbn [trace out world fromResult app fst snd].
  2:{ split; [reflexivity|]. intros input id H. simpl in H.
      destruct H as [H|[H|[H|[]]]]; discriminate. }
  rewrite trace_bind.
  set (rp := pollExecution cfg athena pool fuel id0 pg cols (a, snd w)).
  pose proof (Always_pollExecution_about id0 pg cols fuel (a, snd w)) as Hall.
  fold rp in Hall.
  set (tail := match out rp with Returned _ => _ | _ => [] end).
  assert (Htail : Forall (aboutExecution id0) tail).
  { subst tail. destruct (out rp); repeat constructor. }
  assert (Hrest : Forall (aboutExecution id0) (trace rp ++ tail)) by now apply Forall_app.
  split.
  - cbn [filter Obs.isSubmit]. simpl. f_equal.
    clear - Hrest. induction Hrest as [|e l He _ IH]; [reflexivity|].
    simpl. destruct e; simpl in *; try easy.
  - intros input id H. cbn [In] in H. destruct H as [H|[H|[H|H]]]; try discriminate.
    + injection H as <- <-. split; [reflexivity|].
      repeat (constructor; [intros i; simpl; discriminate|]).
      eapply Forall_impl; [|exact Hrest].
      intros [] He i Hi; simpl in *; congruence.
    + exfalso. rewrite Forall_forall in Hrest. exact (Hrest _ H).
Qed.

End PollingFacts.

Lemma polling_never_gives_up_witness :
  neverSettles cancelledAthena
  /\ out (pollExecution Scenario.config cancelledAthena (Scenario.poolOf Scenario.postgres)
            7 "q1" "accounts" ["id"; "name"] (0, 0)) = Pending.
Proof.
  assert (H : neverSettles cancelledAthena).
  { intros a id. exists (S a), cancelledStatus. now repeat split. }
  split; [exact H|].
  exact (proj1 (polling_never_gives_up Scenario.config cancelledAthena
                  (Scenario.poolOf Scenario.postgres) 7 "q1" "accounts" ["id"; "name"]
                  (0, 0) H)).
Defined.

(** ** The continuation tokens *)

Section TokenFacts.

Context {A P : Type}.
Variable cfg : Config.
Variable athena : Athena A.
Variable pool : PgPool P.

Lemma insert_exchanges (tableName : string) (cols : list string) (rows : list (list value))
      (w : @World A P) :
  Seen.exchanges (trace (insertIntoPostgresAsBatch cfg pool tableName cols rows w)) = [].
Proof.
  rewrite insert_run. cbv zeta.
  destruct (connect pool (snd w)) as [p [u|e]]; simpl; [|reflexivity].
  destruct (runQuery pool p _ _) as [p' [n|e]]; reflexivity.
Qed.

Lemma last_after_head {X : Type} (rest : list X) :
  forall y d, last (y :: rest) d = last rest y.
Proof.
  induction rest as [|z rest IH]; intros y d; [reflexivity|].
  change (last (y :: z :: rest) d) with (last (z :: rest) d).
  now rewrite !IH.
Qed.

Lemma fetchPages_chained (id pg : string) (cols : list string) (fuel : nat) :
  forall nextToken (w : @World A P),
    let r := fetchPages cfg athena pool fuel id pg cols nextToken w in
    chained nextToken (Seen.exchanges (trace r))
    /\ match out r with
       | Returned _ => Seen.exchanges (trace r) <> [] /\ settled (Seen.exchanges (trace r))
       | _ => True
       end.
Proof.
  induction fuel as [|fuel IH]; intros nextToken w r; subst r; [now split|].
  cbn [fetchPages]. rewrite trace_bind, out_bind. unfold sendGetQueryResults.
  destruct (getQueryResults athena (fst w) id nextToken) as [a [resp|e]];
    cbn [trace out world fromResult]; [|now split].
  rewrite trace_bind, out_bind.
  set (w1 := (a, snd w)).
  set (ri := insertIntoPostgresAsBatch cfg pool pg cols (pageRows nextToken resp) w1).
  pose proof (insert_exchanges pg cols (pageRows nextToken resp) w1) as Hi. fold ri in Hi.
  unfold Seen.exchanges in *. cbn [app Obs.pick Seen.exchange].
  rewrite pick_app, Hi. cbn [app].
  destruct (out ri) as [[]|x|]; [|now split|now split].
  destruct (Js.truthy (NextToken resp)) eqn:Etok.
  - destruct (IH (NextToken resp) (world ri)) as (Hc & Ho).
    set (later := Obs.pick Seen.exchange
                    (trace (fetchPages cfg athena pool fuel id pg cols (NextToken resp)
                                       (world ri)))) in *.
    split.
    + cbn [chained fst snd]. split; [reflexivity|].
      destruct later as [|y rest]; [exact I|]. now split.
    + destruct (out (fetchPages cfg athena pool fuel id pg cols (NextToken resp) (world ri)));
        auto.
      destruct Ho as (Hne & Hs). split; [discriminate|].
      destruct later as [|y rest]; [congruence|]. unfold settled in *.
      now rewrite last_after_head.
  - cbn [ret trace out Obs.pick]. split; [now split|].
    split; [discriminate|]. exact Etok.
Qed.

Lemma pollExecution_chained (id pg : string) (cols : list string) (fuel : nat) :
  forall w : @World A P,
    let r := pollExecution cfg athena pool fuel id pg cols w in
    chained None (Seen.exchanges (trace r))
    /\ match out r with
       | Returned _ => settled (Seen.exchanges (trace r))
       | _ => True
       end.
Proof.
  induction fuel as [|fuel IH]; intros w r; subst r; [now split|].
  cbn [pollExecution]. rewrite trace_bind, out_bind. unfold sendGetQueryExecution.
  destruct (getQueryExecution athena (fst w) id) as [a [st|e]];
    cbn [trace out world fromResult]; [|now split].
  unfold Seen.exchanges in *. cbn [app Obs.pick Seen.exchange].
  destruct (State st =? "FAILED"); [now split|].
  destruct (State st =? "SUCCEEDED"); rewrite trace_bind, out_bind;
    cbn [log sleep emit trace out world app Obs.pick Seen.exchange].
  - destruct (fetchPages_chained id pg cols fuel None (a, snd w)) as (Hc & Ho).
    split; [exact Hc|].
    destruct (out (fetchPages cfg athena pool fuel id pg cols None (a, snd w))); auto.
    exact (proj2 Ho).
  - apply IH.
Qed.

(** X7. In every call of [queryAthena] the fetches form a chain: the first
    supplies no token, every further one supplies the token the fetch before
    it returned, and the loop goes on exactly while the returned token is
    present and not empty.  When the call returns, the last page fetched
    came without such a token: no page the catalog announced is left
    unfetched. *)
Theorem fetches_follow_the_tokens (fuel : nat) (t pg : string) (cols : list string)
        (w : @World A P) :
  let r := queryAthena cfg athena pool fuel t pg cols w in
  chained None (Seen.exchanges (trace r))
  /\ match out r with
     | Returned _ => settled (Seen.exchanges (trace r))
     | _ => True
     end.
Proof.
  intros r. subst r. unfold queryAthena.
  rewrite trace_bind, out_bind. cbn [log emit trace out world app].
  rewrite trace_bind, out_bind. cbn [log emit trace out world app].
  rewrite trace_bind, out_bind. unfold sendStartQueryExecution.
  destruct (startQueryExecution athena (fst w) _) as [a [id|e]];
    cbn [trace out world fromResult app fst snd]; [|now split].
  rewrite trace_bind, out_bind.
  destruct (pollExecution_chained id pg cols fuel (a, snd w)) as (Hc & Ho).
  unfold Seen.exchanges in *. cbn [Obs.pick Seen.exchange].
  destruct (out (pollExecution cfg athena pool fuel id pg cols (a, snd w))) as [[]|x|];
    cbn [log emit trace out world]; rewrite pick_app; cbn [Obs.pick Seen.exchange];
    rewrite app_nil_r; now split.
Qed.

End TokenFacts.

(** ** The pool over a whole run *)

Section LeaseFacts.

Context {A P : Type}.
Variable cfg : Config.
Variable athena : Athena A.
Variable pool : PgPool P.

Lemma pairs_app (n m : nat) : Seen.pairs (n + m) = (Seen.pairs n ++ Seen.pairs m)%list.
Proof. induction n as [|n IH]; simpl; [reflexivity|]. now rewrite IH. Qed.

Lemma leasing_app (t t' : list event) (n m : nat) :
  leasing t n -> leasing t' m -> leasing (t ++ t') (n + m).
Proof.
  unfold leasing, Seen.leases, Obs.handed. intros [H1 H2] [H3 H4].
  rewrite filter_app, pick_app, length_app, pairs_app, H1, H3. split; [reflexivity|lia].
Qed.

Lemma leasing_quiet (t : list event) :
  Forall (fun e => Seen.isLease e = false) t -> leasing t 0.
Proof.
  intros H. split; [|apply Nat.le_0_l]. unfold Seen.leases.
  induction H as [|e l He _ IH]; simpl; [reflexivity|]. now rewrite He.
Qed.

Lemma Leasing_bind {X Y} (m : @M A P X) (k : X -> @M A P Y) :
  Leasing m -> (forall x, Leasing (k x)) -> Leasing (bind m k).
Proof.
  intros Hm Hk w. rewrite trace_bind. destruct (Hm w) as (n & Hn).
  destruct (out (m w)) as [x|e|].
  - destruct (Hk x (world (m w))) as (n' & Hn'). exists (n + n'). now apply leasing_app.
  - exists n. now rewrite app_nil_r.
  - exists n. now rewrite app_nil_r.
Qed.

Lemma Leasing_emit (e : event) : Seen.isLease e = false -> Leasing (@emit A P e).
Proof. intros H w. exists 0. apply leasing_quiet. now repeat constructor. Qed.

Lemma Leasing_ret {X} (x : X) : Leasing (@ret A P X x).
Proof. intros w. exists 0. now apply leasing_quiet. Qed.

Lemma Leasing_pending {X} : Leasing (@pending A P X).
Proof. intros w. exists 0. now apply leasing_quiet. Qed.

Lemma Leasing_insert (tableName : string) (cols : list string) (rows : list (list value)) :
  Leasing (@insertIntoPostgresAsBatch A P cfg pool tableName cols rows).
Proof.
  intros w. rewrite insert_run. cbv zeta.
  destruct (connect pool (snd w)) as [p [[]|e]]; cbn [trace].
  - exists 1. destruct (runQuery pool p _ _) as [p' [n|e]]; cbn [trace];
      (split; [reflexivity|cbn; lia]).
  - exists 0. split; [reflexivity|cbn; lia].
Qed.

Lemma Leasing_fetchPages (id pg : string) (cols : list string) (fuel : nat) :
  forall nextToken, Leasing (fetchPages cfg athena pool fuel id pg cols nextToken).
Proof.
  induction fuel as [|fuel IH]; intros nextToken; cbn [fetchPages];
    [apply Leasing_pending|].
  apply Leasing_bind.
  - intros w. unfold sendGetQueryResults.
    destruct (getQueryResults athena (fst w) id nextToken) as [a r].
    exists 0. apply leasing_quiet. now repeat constructor.
  - intros resp. apply Leasing_bind; [apply Leasing_insert|intros _].
    destruct (Js.truthy (NextToken resp)); [apply IH|apply Leasing_ret].
Qed.

Lemma Leasing_pollExecution (id pg : string) (cols : list string) (fuel : nat) :
  Leasing (pollExecution cfg athena pool fuel id pg cols).
Proof.
  induction fuel as [|fuel IH]; cbn [pollExecution]; [apply Leasing_pending|].
  apply Leasing_bind.
  - intros w. unfold sendGetQueryExecution.
    destruct (getQueryExecution athena (fst w) id) as [a r].
    exists 0. apply leasing_quiet. now repeat constructor.
  - intros st. destruct (State st =? "FAILED"); [now apply Leasing_emit|].
    destruct (State st =? "SUCCEEDED");
      (apply Leasing_bind; [now apply Leasing_emit|intros _]);
      [apply Leasing_fetchPages|exact IH].
Qed.

Lemma Leasing_queryAthena (fuel : nat) (t pg : string) (cols : list string) :
  Leasing (queryAthena cfg athena pool fuel t pg cols).
Proof.
  unfold queryAthena.
  apply Leasing_bind; [now apply Leasing_emit|intros _].
  apply Leasing_bind; [now apply Leasing_emit|intros _].
  apply Leasing_bind.
  - intros w. unfold sendStartQueryExecution.
    destruct (startQueryExecution athena (fst w) _) as [a r].
    exists 0. apply leasing_quiet. now repeat constructor.
  - intros id. apply Leasing_bind; [apply Leasing_pollExecution|intros _].
    now apply Leasing_emit.
Qed.

Lemma Leasing_forEachTable (fuel : nat) (entries : list TableEntry) :
  Leasing (forEachTable cfg athena pool fuel entries).
Proof.
  induction entries as [|en rest IH]; cbn [forEachTable]; [apply Leasing_ret|].
  apply Leasing_bind; [apply Leasing_queryAthena|intros _; exact IH].
Qed.

Lemma Leasing_resolveTables (tables : list string) :
  Leasing (@resolveTables A P cfg athena tables).
Proof.
  intros w. exists 0. apply leasing_quiet.
  destruct (resolveTables_run cfg athena tables w) as (_ & Hmeta & _).
  eapply Forall_impl; [|exact Hmeta]. now intros [].
Qed.

Lemma count_pairs (n : nat) :
  Obs.acquisitions (Seen.pairs n) = n /\ Obs.releases (Seen.pairs n) = n.
Proof.
  unfold Obs.acquisitions, Obs.releases. induction n as [|n [IH1 IH2]]; simpl; auto.
Qed.

Lemma count_in_leases (tr : list event) :
  Obs.acquisitions tr = Obs.acquisitions (Seen.leases tr)
  /\ Obs.releases tr = Obs.releases (Seen.leases tr).
Proof.
  unfold Obs.acquisitions, Obs.releases, Seen.leases.
  induction tr as [|e tr [IH1 IH2]]; [now split|].
  destruct e as [| | | | | |[|]| | | |]; simpl; rewrite ?IH1, ?IH2; now split.
Qed.

Lemma pairs_prefix (n : nat) :
  forall l l' : list event,
    (l ++ l')%list = Seen.pairs n ->
    exists k, l = Seen.pairs k \/ l = (Seen.pairs k ++ [EvConnect (Ok tt)])%list.
Proof.
  induction n as [|n IH]; intros l l' H.
  - apply app_eq_nil in H. destruct H as [-> _]. exists 0. now left.
  - cbn [Seen.pairs] in H. destruct l as [|a l]; [exists 0; now left|].
    injection H as -> H. destruct l as [|b l]; [exists 0; now right|].
    injection H as -> H. destruct (IH _ _ H) as (k & [->| ->]); exists (S k); [now left|now right].
Qed.

Lemma leasing_main (fuel : nat) (tables : list string) (elapsed : string) :
  Leasing (mainOf cfg athena pool fuel tables elapsed).
Proof.
  unfold mainOf, insertTablesInOrderOf.
  apply Leasing_bind; [|intros _; now apply Leasing_emit].
  apply Leasing_bind; [apply Leasing_resolveTables|intros entries].
  apply Leasing_forEachTable.
Qed.

(** X8. At every point of a run of the script the pool has at most one
    connection out: what the script has done with the pool up to that point
    is obtain a connection, release it, obtain a connection, release it,
    and so on, possibly followed by one connection obtained and not yet
    released.  Over the whole trace - when the run has ended, however it
    ends, or stands at the head of a loop - every connection obtained has
    been released, and no more connections were obtained than batches were
    handed to the loader. *)
Theorem one_connection_at_a_time (fuel : nat) (tables : list string) (elapsed : string)
        (w : @World A P) :
  let tr := trace (mainOf cfg athena pool fuel tables elapsed w) in
  (exists n,
      Seen.leases tr = Seen.pairs n
      /\ Obs.acquisitions tr = n
      /\ Obs.releases tr = n
      /\ n <= length (Obs.handed tr))
  /\ forall before after,
       tr = (before ++ after)%list ->
       exists k,
         Obs.releases before = k
         /\ ((Seen.leases before = Seen.pairs k /\ Obs.acquisitions before = k)
             \/ (Seen.leases before = (Seen.pairs k ++ [EvConnect (Ok tt)])%list
                 /\ Obs.acquisitions before = S k)).
Proof.
  intros tr. subst tr.
  destruct (leasing_main fuel tables elapsed w) as (n & Hl & Hn).
  set (tr := trace (mainOf cfg athena pool fuel tables elapsed w)) in *.
  destruct (count_pairs n) as [P1 P2]. split.
  - exists n. destruct (count_in_leases tr) as [C1 C2]. rewrite C1, C2, Hl. auto.
  - intros before after Htr.
    assert (Hpre : (Seen.leases before ++ Seen.leases after)%list = Seen.pairs n).
    { rewrite <- Hl, Htr. unfold Seen.leases. now rewrite filter_app. }
    destruct (pairs_prefix n _ _ Hpre) as (k & Hk). exists k.
    destruct (count_in_leases before) as [C1 C2]. destruct (count_pairs k) as [K1 K2].
    rewrite C1, C2. destruct Hk as [Hk|Hk]; rewrite Hk.
    + split; [exact K2|]. left. now split.
    + unfold Obs.acquisitions, Obs.releases in *. rewrite !filter_app, !length_app, K1, K2.
      cbn. split; [lia|]. right. split; [reflexivity|lia].
Qed.

(** ** A rejected metadata lookup *)

(** X9. When the catalog rejects the metadata lookup of any one table,
    [insertTablesInOrder] throws, and its whole trace is the lookups: one
    for every configured table, in the configured order, the ones behind
    the rejected one included; no table is queried, not even those whose
    lookup was answered. *)
Theorem rejected_lookup_stops_before_any_query (fuel : nat) (tables : list string)
        (w : @World A P) (cat db t : string) (x : error) :
  let r := insertTablesInOrderOf cfg athena pool fuel tables w in
  In (EvGetTableMetadata cat db t (Err x)) (trace r) ->
  (exists e, out r = Thrown e)
  /\ Obs.pick Obs.metadataTable (trace r) = tables
  /\ Forall (fun e => Obs.isMetadata e = true) (trace r)
  /\ Obs.queried (trace r) = [].
Proof.
  intros r Hin. subst r. unfold insertTablesInOrderOf in *.
  rewrite trace_bind, out_bind in *.
  destruct (resolveTables_run cfg athena tables w) as (Hpick & Hmeta & _ & Hout).
  set (r0 := resolveTables cfg athena tables w) in *.
  destruct (out r0) as [entries|e|]; [| |easy].
  - exfalso. destruct Hout as (Hcalm & _ & Hpg).
    apply in_app_or in Hin. destruct Hin as [Hin|Hin].
    + unfold calm in Hcalm. rewrite Forall_forall in Hcalm.
      specialize (Hcalm _ Hin). discriminate.
    + destruct (forEachTable_segments cfg athena pool fuel entries (world r0))
        as (segs & done & todo & -> & Htr & Hseg & _).
      apply Forall_app in Hpg. destruct Hpg as [Hpg _].
      destruct (segments_of_entries cfg athena pool fuel done segs Hpg Hseg) as (_ & _ & S3).
      rewrite Htr in Hin. apply in_concat in Hin. destruct Hin as (seg & Hseg' & Hin).
      rewrite Forall_forall in S3. specialize (S3 _ Hseg').
      rewrite Forall_forall in S3. specialize (S3 _ Hin). discriminate.
  - rewrite app_nil_r. split; [now exists e|]. split; [exact Hpick|]. split; [exact Hmeta|].
    apply pick_none. eapply Forall_impl; [|exact Hmeta]. now intros [].
Qed.

End LeaseFacts.

Lemma rejected_lookup_stops_before_any_query_witness :
  In (EvGetTableMetadata "AwsDataCatalog" "backup" "glue_table2" (Err "EntityNotFoundException"))
     (trace lookupRefusedRun)
  /\ Obs.pick Obs.metadataTable (trace lookupRefusedRun) = glueTableNameList
  /\ Obs.queried (trace lookupRefusedRun) = [].
Proof.
  assert (Hin : In (EvGetTableMetadata "AwsDataCatalog" "backup" "glue_table2"
                                       (Err "EntityNotFoundException"))
                   (trace lookupRefusedRun)).
  { vm_compute. intuition. }
  split; [exact Hin|].
  pose proof (rejected_lookup_stops_before_any_query Scenario.config
                (Scenario.athenaOf lookupRefused) (Scenario.poolOf Scenario.postgres)
                5 glueTableNameList (0, 0) _ _ _ _ Hin) as H.
  split; [exact (proj1 (proj2 H))|exact (proj2 (proj2 (proj2 H)))].
Defined.

(** ** The column lists *)

Section ColumnFacts.

Context {A P : Type}.
Variable cfg : Config.
Variable athena : Athena A.
Variable pool : PgPool P.

Lemma requestMetadata_columns (tables : list string) :
  forall w : @World A P,
    let '(t, w', answers) := requestMetadata cfg athena tables w in
    forall entries,
      promiseAll answers = Returned entries ->
      Forall (fun en => exists response,
                  In (EvGetTableMetadata (CATALOG_NAME cfg) (DB_NAME cfg) (athName en)
                                         (Ok response)) t
                  /\ columns en = map Name response) entries.
Proof.
  induction tables as [|tableName rest IH]; intros w; cbn [requestMetadata].
  - intros entries [= <-]. constructor.
  - destruct (getTableMetadata athena (fst w) _ _ tableName) as [a r].
    specialize (IH (a, snd w)).
    destruct (requestMetadata cfg athena rest (a, snd w)) as [[t w'] answers].
    intros entries Hall. destruct r as [response|e]; cbn [promiseAll] in Hall; [|discriminate].
    destruct (promiseAll answers) as [others|x|]; try discriminate.
    injection Hall as <-. constructor.
    + exists response. split; [now left|reflexivity].
    + eapply Forall_impl; [|exact (IH others eq_refl)].
      intros en (resp & Hin & Hc). exists resp. split; [now right|exact Hc].
Qed.

Lemma Always_forEachTable_columns (fuel : nat) (lookups : list event)
      (entries : list TableEntry) :
  Forall (fun en => exists response,
              In (EvGetTableMetadata (CATALOG_NAME cfg) (DB_NAME cfg) (athName en)
                                     (Ok response)) lookups
              /\ columns en = map Name response) entries ->
  Always (calledWithCatalogColumns cfg lookups) (forEachTable cfg athena pool fuel entries).
Proof.
  induction 1 as [|en rest (response & Hin & Hc) _ IH]; cbn [forEachTable];
    [apply Always_ret|].
  apply Always_bind; [|intros _; exact IH].
  eapply Always_impl; [|apply Always_queryAthena].
  intros [] He; simpl in *; try easy.
  destruct He as (-> & _ & ->). exists response. now split.
Qed.

(** X10. In a run of [insertTablesInOrder], every call of [queryAthena] is
    made with the column names the catalog returned for that table, in the
    order the catalog returned them; and within a call of [queryAthena],
    the SELECT it submits and every INSERT its batches send list exactly
    the columns of the call, in the same order. *)
Theorem columns_follow_the_catalog (fuel : nat) (tables : list string) (w : @World A P) :
  let tr := trace (insertTablesInOrderOf cfg athena pool fuel tables w) in
  Forall (calledWithCatalogColumns cfg tr) tr
  /\ forall fuel' t pg cols w',
       Forall (listsColumns cfg t pg cols)
              (trace (queryAthena cfg athena pool fuel' t pg cols w')).
Proof.
  intros tr. subst tr. split.
  - unfold insertTablesInOrderOf. rewrite trace_bind.
    pose proof (requestMetadata_columns tables w) as Hcols.
    destruct (resolveTables_run cfg athena tables w) as (_ & Hmeta & _ & _).
    unfold resolveTables in *.
    destruct (requestMetadata cfg athena tables w) as [[t w1] answers].
    cbn [trace out world] in *.
    apply Forall_app. split.
    + eapply Forall_impl; [|exact Hmeta]. now intros [].
    + destruct (promiseAll answers) as [entries|x|]; try constructor.
      specialize (Hcols entries eq_refl).
      pose proof (Always_forEachTable_columns fuel t entries Hcols w1) as Hall.
      eapply Forall_impl; [|exact Hall].
      intros [] He; simpl in *; try easy.
      destruct He as (response & Hin & Hc). exists response.
      split; [apply in_or_app; now left|exact Hc].
  - intros fuel' t pg cols w'.
    eapply Forall_impl; [|apply (Always_queryAthena cfg athena pool fuel' t pg cols w')].
    intros [] He; simpl in *; try easy.
    + now rewrite He.
    + destruct He as (rows & -> & _). now exists rows.
Qed.

End ColumnFacts.

(** * The two handlers: properties *)

Section HandlerRuns.

Context {St : Type}.
Variable env : Lambda.Env.
Variable aws : St -> Lambda.command -> St * result Lambda.response.

Lemma steps_bind {X Y} (m : @Lambda.M St X) (k : X -> @Lambda.M St Y) (s : St) :
  Lambda.steps (Lambda.bind m k s)
  = (Lambda.steps (m s) ++ match Lambda.ending (m s) with
                           | Returned x => Lambda.steps (k x (Lambda.final (m s)))
                           | _ => []
                           end)%list.
Proof.
  unfold Lambda.bind. destruct (Lambda.ending (m s)); simpl; now rewrite ?app_nil_r.
Qed.

Lemma ending_bind {X Y} (m : @Lambda.M St X) (k : X -> @Lambda.M St Y) (s : St) :
  Lambda.ending (Lambda.bind m k s)
  = match Lambda.ending (m s) with
    | Returned x => Lambda.ending (k x (Lambda.final (m s)))
    | Thrown e => Thrown e
    | Pending => Pending
    end.
Proof. unfold Lambda.bind. now destruct (Lambda.ending (m s)). Qed.

Lemma steps_tryCatch {X} (body : @Lambda.M St X) (handler : error -> @Lambda.M St X) (s : St) :
  Lambda.steps (Lambda.tryCatch body handler s)
  = (Lambda.steps (body s) ++ match Lambda.ending (body s) with
                              | Thrown e => Lambda.steps (handler e (Lambda.final (body s)))
                              | _ => []
                              end)%list.
Proof.
  unfold Lambda.tryCatch. destruct (Lambda.ending (body s)); simpl; now rewrite ?app_nil_r.
Qed.

Lemma ending_tryCatch {X} (body : @Lambda.M St X) (handler : error -> @Lambda.M St X) (s : St) :
  Lambda.ending (Lambda.tryCatch body handler s)
  = match Lambda.ending (body s) with
    | Thrown e => Lambda.ending (handler e (Lambda.final (body s)))
    | o => o
    end.
Proof.
  unfold Lambda.tryCatch. destruct (Lambda.ending (body s)) eqn:E; simpl; now rewrite ?E.
Qed.

(** *** Rejected commands *)

Lemma rejection_app (t t' : list Lambda.event) :
  firstRejection (t ++ t')
  = match firstRejection t with
    | Some x => Some x
    | None => firstRejection t'
    end
  /\ onlyLogsAfterRejection (t ++ t')
     = match firstRejection t with
       | Some _ => onlyLogsAfterRejection t && forallb Lambda.isLog t'
       | None => onlyLogsAfterRejection t'
       end.
Proof.
  induction t as [|e t [IH1 IH2]]; [now split|].
  destruct e as [args|c [r|x]|ms]; simpl; auto.
  split; [reflexivity|]. now rewrite forallb_app.
Qed.

Lemma failsFast_quiet {X} (tr : list Lambda.event) (s : St) (o : outcome X) :
  firstRejection tr = None ->
  failsFast {| Lambda.steps := tr; Lambda.final := s; Lambda.ending := o |}.
Proof.
  intros H. unfold failsFast; simpl. rewrite H. split; [|exact I].
  induction tr as [|e tr IH]; [reflexivity|].
  destruct e as [args|c [r|x]|ms]; simpl in *; auto; discriminate.
Qed.

Lemma FailsFast_bind {X Y} (m : @Lambda.M St X) (k : X -> @Lambda.M St Y) :
  FailsFast m -> (forall x, FailsFast (k x)) -> FailsFast (Lambda.bind m k).
Proof.
  intros Hm Hk s. destruct (Hm s) as [H1 H2]. unfold failsFast.
  rewrite steps_bind, ending_bind.
  destruct (rejection_app (Lambda.steps (m s))
              match Lambda.ending (m s) with
              | Returned x => Lambda.steps (k x (Lambda.final (m s)))
              | _ => []
              end) as [-> ->].
  destruct (firstRejection (Lambda.steps (m s))) as [x|].
  - rewrite H2, H1. simpl. now split.
  - destruct (Lambda.ending (m s)) as [x|e|]; [|now split|now split].
    apply Hk.
Qed.

Lemma FailsFast_ret {X} (x : X) : FailsFast (@Lambda.ret St X x).
Proof. intros s. now apply failsFast_quiet. Qed.

Lemma FailsFast_raise {X} (e : error) : FailsFast (@Lambda.raise St X e).
Proof. intros s. now apply failsFast_quiet. Qed.

Lemma FailsFast_pending {X} : FailsFast (@Lambda.pending St X).
Proof. intros s. now apply failsFast_quiet. Qed.

Lemma FailsFast_log (args : list Lambda.arg) : FailsFast (@Lambda.log St args).
Proof. intros s. now apply failsFast_quiet. Qed.

Lemma FailsFast_sleep (ms : N) : FailsFast (@Lambda.sleep St ms).
Proof. intros s. now apply failsFast_quiet. Qed.

Lemma FailsFast_send (c : Lambda.command) : FailsFast (Lambda.send aws c).
Proof.
  intros s. unfold Lambda.send. destruct (aws s c) as [s' [r|x]].
  - now apply failsFast_quiet.
  - now split.
Qed.

(** A handler that logs the error and throws it again. *)
Lemma FailsFast_tryCatch {X} (body : @Lambda.M St X) (line : error -> list Lambda.arg) :
  FailsFast body ->
  FailsFast (Lambda.tryCatch body
               (fun error => Lambda.bind (Lambda.log (line error))
                                         (fun _ => Lambda.raise error))).
Proof.
  intros Hb s. destruct (Hb s) as [H1 H2]. unfold failsFast.
  rewrite steps_tryCatch, ending_tryCatch.
  destruct (Lambda.ending (body s)) as [x|e|] eqn:E; rewrite ?app_nil_r; try now split.
  cbn [Lambda.bind Lambda.log Lambda.raise Lambda.steps Lambda.ending Lambda.final app].
  destruct (rejection_app (Lambda.steps (body s)) [Lambda.Log (line e)]) as [-> ->].
  destruct (firstRejection (Lambda.steps (body s))) as [x|]; [|now split].
  rewrite H1. now split.
Qed.

Lemma FailsFast_awaitDatabase (fuel : nat) :
  forall status, FailsFast (Lambda.awaitDatabase env aws fuel status).
Proof.
  induction fuel as [|fuel IH]; intros status; cbn [Lambda.awaitDatabase];
    destruct (status =? "available"); try apply FailsFast_ret; [apply FailsFast_pending|].
  apply FailsFast_bind; [apply FailsFast_log|intros _].
  apply FailsFast_bind; [apply FailsFast_sleep|intros _].
  apply FailsFast_bind; [apply FailsFast_send|intros r].
  apply FailsFast_bind; [|intros st; apply IH].
  destruct r as [| |[|]| |]; (apply FailsFast_ret || apply FailsFast_raise).
Qed.

Lemma FailsFast_awaitGateway (fuel : nat) (id : string) :
  forall state, FailsFast (Lambda.awaitGateway aws fuel id state).
Proof.
  induction fuel as [|fuel IH]; intros state; cbn [Lambda.awaitGateway];
    destruct (state =? "available"); try apply FailsFast_ret; [apply FailsFast_pending|].
  apply FailsFast_bind; [apply FailsFast_log|intros _].
  apply FailsFast_bind; [apply FailsFast_sleep|intros _].
  apply FailsFast_bind; [apply FailsFast_send|intros r].
  apply FailsFast_bind; [|intros st; apply IH].
  destruct r as [| | | |[|]]; (apply FailsFast_ret || apply FailsFast_raise).
Qed.

Lemma FailsFast_startDatabaseService (fuel : nat) :
  FailsFast (Lambda.startDatabaseService env aws fuel).
Proof.
  unfold Lambda.startDatabaseService.
  apply FailsFast_bind; [apply FailsFast_log|intros _].
  apply FailsFast_bind; [apply FailsFast_send|intros r].
  apply FailsFast_bind.
  - destruct r; (apply FailsFast_ret || apply FailsFast_raise).
  - intros st. apply FailsFast_bind; [apply FailsFast_awaitDatabase|intros _].
    apply FailsFast_log.
Qed.

Lemma FailsFast_startFargateServices : FailsFast (Lambda.startFargateServices env aws).
Proof.
  unfold Lambda.startFargateServices.
  apply FailsFast_bind; [apply FailsFast_log|intros _].
  apply FailsFast_bind; [apply FailsFast_send|intros r].
  apply FailsFast_bind; [apply FailsFast_log|intros _].
  apply FailsFast_bind; [apply FailsFast_send|intros r'].
  apply FailsFast_log.
Qed.

Lemma FailsFast_albRules (line : string) (rules : list Lambda.RulePriority) :
  FailsFast
    (Lambda.bind (Lambda.log [Lambda.Text line])
       (fun _ =>
          Lambda.tryCatch
            (Lambda.bind (Lambda.send aws (Lambda.SetRulePriorities rules))
               (fun r => Lambda.log
                           [Lambda.Text "Modified ALB rules and routes the traffic tp static Under Maintenance HTML page. Response:";
                            Lambda.Obj r]))
            (fun error =>
               Lambda.bind
                 (Lambda.log [Lambda.Text "Error while re-prioritizing the rules";
                              Lambda.Text error])
                 (fun _ => Lambda.raise error)))).
Proof.
  apply FailsFast_bind; [apply FailsFast_log|intros _].
  apply (FailsFast_tryCatch _ (fun error => [Lambda.Text "Error while re-prioritizing the rules";
                                             Lambda.Text error])).
  apply FailsFast_bind; [apply FailsFast_send|intros r]. apply FailsFast_log.
Qed.

Lemma FailsFast_createNatGateway (fuel : nat) :
  FailsFast (Lambda.createNatGateway env aws fuel).
Proof.
  unfold Lambda.createNatGateway.
  apply FailsFast_bind; [apply FailsFast_log|intros _].
  apply FailsFast_bind; [apply FailsFast_send|intros r].
  apply FailsFast_bind.
  - destruct r; (apply FailsFast_ret || apply FailsFast_raise).
  - intros g. apply FailsFast_bind; [apply FailsFast_awaitGateway|intros _].
    apply FailsFast_bind; [apply FailsFast_send|intros _]. apply FailsFast_log.
Qed.

Lemma FailsFast_stopFargateService : FailsFast (Lambda.stopFargateService env aws).
Proof.
  unfold Lambda.stopFargateService.
  apply FailsFast_bind; [apply FailsFast_log|intros _].
  apply FailsFast_bind; [apply FailsFast_send|intros r].
  apply FailsFast_bind; [apply FailsFast_log|intros _].
  apply FailsFast_bind; [apply FailsFast_send|intros r'].
  apply FailsFast_log.
Qed.

Lemma FailsFast_stopDatabaseService : FailsFast (Lambda.stopDatabaseService env aws).
Proof.
  unfold Lambda.stopDatabaseService.
  apply FailsFast_bind; [apply FailsFast_log|intros _].
  apply FailsFast_bind; [apply FailsFast_send|intros r]. apply FailsFast_log.
Qed.

Lemma FailsFast_deleteNatGateway : FailsFast (Lambda.deleteNatGateway env aws).
Proof.
  unfold Lambda.deleteNatGateway.
  apply FailsFast_bind; [apply FailsFast_log|intros _].
  apply FailsFast_bind; [apply FailsFast_send|intros r].
  apply FailsFast_bind.
  - destruct r; (apply FailsFast_ret || apply FailsFast_raise).
  - intros gs. destruct (find _ gs); [|apply FailsFast_log].
    apply FailsFast_bind; [apply FailsFast_log|intros _].
    apply FailsFast_bind; [apply FailsFast_send|intros r']. apply FailsFast_log.
Qed.

Lemma thrown_ends_with_log {X} (body : @Lambda.M St X) (line : string) (s : St) :
  let r := Lambda.tryCatch body
             (fun error => Lambda.bind (Lambda.log [Lambda.Text line; Lambda.Text error])
                                       (fun _ => Lambda.raise error)) s in
  match Lambda.ending r with
  | Thrown x =>
      exists before,
        Lambda.steps r = (before ++ [Lambda.Log [Lambda.Text line; Lambda.Text x]])%list
  | _ => True
  end.
Proof.
  intros r. subst r. rewrite steps_tryCatch, ending_tryCatch.
  destruct (Lambda.ending (body s)); try exact I.
  cbn. now eexists.
Qed.

(** X11. Both handlers stop at the first command a client rejects: after a
    rejected command they send nothing more, they only log, and the error
    of the rejected command is what the handler throws.  Whenever a handler
    throws, for a rejected command or for a response it cannot read, the
    last thing it did was log the error on its closing line. *)
Theorem handlers_stop_at_first_rejection (fuel : nat) (s : St) :
  failsFast (Lambda.startHandler env aws fuel s)
  /\ failsFast (Lambda.stopHandler env aws s)
  /\ match Lambda.ending (Lambda.startHandler env aws fuel s) with
     | Thrown x =>
         exists before,
           Lambda.steps (Lambda.startHandler env aws fuel s)
           = (before ++ [Lambda.Log [Lambda.Text "Error starting the services or modifying ALB rules:";
                                     Lambda.Text x]])%list
     | _ => True
     end
  /\ match Lambda.ending (Lambda.stopHandler env aws s) with
     | Thrown x =>
         exists before,
           Lambda.steps (Lambda.stopHandler env aws s)
           = (before ++ [Lambda.Log [Lambda.Text "Error stopping the services or modifying ALB rules:";
                                     Lambda.Text x]])%list
     | _ => True
     end.
Proof.
  split; [|split; [|split]].
  - unfold Lambda.startHandler.
    apply (FailsFast_tryCatch _ (fun error =>
             [Lambda.Text "Error starting the services or modifying ALB rules:";
              Lambda.Text error])).
    apply FailsFast_bind; [apply FailsFast_startDatabaseService|intros _].
    apply FailsFast_bind; [apply FailsFast_startFargateServices|intros _].
    apply FailsFast_bind; [apply FailsFast_albRules|intros _].
    apply FailsFast_bind; [apply FailsFast_createNatGateway|intros _].
    apply FailsFast_ret.
  - unfold Lambda.stopHandler.
    apply (FailsFast_tryCatch _ (fun error =>
             [Lambda.Text "Error stopping the services or modifying ALB rules:";
              Lambda.Text error])).
    apply FailsFast_bind; [apply FailsFast_log|intros _].
    apply FailsFast_bind; [apply FailsFast_albRules|intros _].
    apply FailsFast_bind; [apply FailsFast_stopFargateService|intros _].
    apply FailsFast_bind; [apply FailsFast_stopDatabaseService|intros _].
    apply FailsFast_bind; [apply FailsFast_deleteNatGateway|intros _].
    apply FailsFast_ret.
  - apply thrown_ends_with_log.
  - apply thrown_ends_with_log.
Qed.

End HandlerRuns.

(** ** The plans of the handlers *)

Ltac handler_steps :=
  repeat (progress (rewrite ?steps_bind, ?ending_bind;
                    cbn [Lambda.log Lambda.sleep Lambda.ret Lambda.raise Lambda.steps
                         Lambda.ending Lambda.final app])).

Section HandlerPlans.

Context {St : Type}.
Variable env : Lambda.Env.
Variable aws : St -> Lambda.command -> St * result Lambda.response.

Lemma actions_app (t t' : list Lambda.event) :
  Lambda.actions (t ++ t') = (Lambda.actions t ++ Lambda.actions t')%list.
Proof. unfold Lambda.actions, Lambda.commands. now rewrite pick_app, filter_app. Qed.

Lemma StepsAll_bind {X Y} (Q : Lambda.event -> Prop) (m : @Lambda.M St X)
      (k : X -> @Lambda.M St Y) :
  StepsAll Q m -> (forall x, StepsAll Q (k x)) -> StepsAll Q (Lambda.bind m k).
Proof.
  intros Hm Hk s. rewrite steps_bind. apply Forall_app. split; [apply Hm|].
  destruct (Lambda.ending (m s)); [apply Hk|constructor|constructor].
Qed.

Lemma StepsAll_tryCatch {X} (Q : Lambda.event -> Prop) (body : @Lambda.M St X)
      (handler : error -> @Lambda.M St X) :
  StepsAll Q body -> (forall e, StepsAll Q (handler e)) ->
  StepsAll Q (Lambda.tryCatch body handler).
Proof.
  intros Hb Hh s. rewrite steps_tryCatch. apply Forall_app. split; [apply Hb|].
  destruct (Lambda.ending (body s)); [constructor|apply Hh|constructor].
Qed.

Lemma StepsAll_none {X} (Q : Lambda.event -> Prop) (m : @Lambda.M St X) :
  (forall s, Lambda.steps (m s) = []) -> StepsAll Q m.
Proof. intros H s. rewrite H. constructor. Qed.

Lemma StepsAll_send (Q : Lambda.event -> Prop) (c : Lambda.command) :
  (forall r, Q (Lambda.Sent c r)) -> StepsAll Q (Lambda.send aws c).
Proof.
  intros H s. unfold Lambda.send. destruct (aws s c) as [s' r]. now repeat constructor.
Qed.

(** *** Waiting for the database *)

Lemma awaitDatabase_run (fuel : nat) :
  forall status s,
    let r := Lambda.awaitDatabase env aws fuel status s in
    Lambda.actions (Lambda.steps r) = []
    /\ match Lambda.ending r with
       | Returned _ =>
           exists waits,
             waitedFor (Lambda.DescribeDBInstances (Lambda.RDS_DB_IDENTIFIER env))
                       (status :: Lambda.databaseStatuses (Lambda.steps r))
                       (Lambda.commands (Lambda.steps r)) (Lambda.steps r) waits
       | _ => True
       end.
Proof.
  induction fuel as [|fuel IH]; intros status s r; subst r; cbn [Lambda.awaitDatabase];
    destruct (status =? "available") eqn:Est.
  - apply String.eqb_eq in Est. subst. split; [reflexivity|]. exists []. now repeat split.
  - now split.
  - apply String.eqb_eq in Est. subst. split; [reflexivity|]. exists []. now repeat split.
  - apply String.eqb_neq in Est.
    handler_steps. unfold Lambda.send.
    destruct (aws s _) as [s1 [resp|x]];
      cbn [Lambda.steps Lambda.ending Lambda.final app]; [|now split].
    destruct resp as [text|st|[|st sts]|g|gs];
      cbn [Lambda.firstDbInstanceStatus Lambda.ret Lambda.raise Lambda.steps Lambda.ending
           Lambda.final app]; try now split.
    handler_steps.
    destruct (IH st s1) as (Ha & Ho). split.
    + unfold Lambda.actions, Lambda.commands in *. cbn. exact Ha.
    + destruct (Lambda.ending (Lambda.awaitDatabase env aws fuel st s1)); try exact I.
      destruct Ho as (waits & Hr & Hw & Hc & Hs). exists (status :: waits).
      unfold waitedFor, Lambda.databaseStatuses, Lambda.commands in *.
      cbn [Obs.pick Lambda.databaseStatus Lambda.command_of filter isSleepStep length repeat].
      rewrite Hr, Hc, Hs. repeat split; auto.
Qed.

Lemma startDatabaseService_waited (fuel : nat) (s : St) :
  let r := Lambda.startDatabaseService env aws fuel s in
  match Lambda.ending r with
  | Returned _ =>
      exists waits,
        waitedFor (Lambda.DescribeDBInstances (Lambda.RDS_DB_IDENTIFIER env))
                  (Lambda.databaseStatuses (Lambda.steps r))
                  (tl (Lambda.commands (Lambda.steps r))) (Lambda.steps r) waits
        /\ hd_error (Lambda.commands (Lambda.steps r))
           = Some (Lambda.StartDBInstance (Lambda.RDS_DB_IDENTIFIER env))
  | _ => True
  end.
Proof.
  intros r. subst r. unfold Lambda.startDatabaseService.
  handler_steps. unfold Lambda.send.
  destruct (aws s _) as [s1 [resp|x]];
    cbn [Lambda.steps Lambda.ending Lambda.final app]; [|exact I].
  destruct resp as [text|st|sts|g|gs];
    cbn [Lambda.dbInstanceStatus Lambda.ret Lambda.raise Lambda.steps Lambda.ending
         Lambda.final app]; try exact I.
  handler_steps.
  destruct (awaitDatabase_run fuel st s1) as (_ & Ho).
  destruct (Lambda.ending (Lambda.awaitDatabase env aws fuel st s1)); try exact I.
  cbn [Lambda.log Lambda.steps Lambda.ending Lambda.final].
  destruct Ho as (waits & Hr & Hw & Hc & Hs). exists waits.
  unfold waitedFor, Lambda.databaseStatuses, Lambda.commands in *.
  cbn [Obs.pick Lambda.databaseStatus Lambda.command_of filter isSleepStep tl hd_error].
  rewrite !pick_app, !filter_app. cbn [Obs.pick Lambda.databaseStatus Lambda.command_of
                                          filter isSleepStep].
  rewrite !app_nil_r, Hc, Hs. repeat split; auto.
Qed.

Lemma awaitDatabase_rounds (fuel : nat) :
  forall status s,
    let r := Lambda.awaitDatabase env aws fuel status s in
    Lambda.ending r = Returned tt ->
    exists answers, Lambda.steps r = databaseRounds env status answers.
Proof.
  induction fuel as [|fuel IH]; intros status s r; subst r; cbn [Lambda.awaitDatabase];
    destruct (status =? "available") eqn:Est.
  - intros _. now exists [].
  - discriminate.
  - intros _. now exists [].
  - handler_steps. unfold Lambda.send.
    destruct (aws s _) as [s1 [resp|x]];
      cbn [Lambda.steps Lambda.ending Lambda.final app]; [|discriminate].
    destruct resp as [text|st|[|st sts]|g|gs];
      cbn [Lambda.firstDbInstanceStatus Lambda.ret Lambda.raise Lambda.steps Lambda.ending
           Lambda.final app]; try discriminate.
    handler_steps. intros Ho. destruct (IH st s1 Ho) as (answers & Ha).
    exists ((st, sts) :: answers). cbn [databaseRounds databaseRound fst snd app].
    now rewrite Ha.
Qed.

(** X12. [startDatabaseService] returns only after it has read the state
    "available".  It asks for the state once for every other state it reads
    and pauses thirty seconds before each question: between the answer to
    StartDBInstance and its closing line, what it does is a sequence of
    rounds, each of them the line with the state last read, the pause, and
    then the question.  When the answer to StartDBInstance already says
    "available" it asks nothing and does not pause. *)
Theorem database_wait_ends_at_available (fuel : nat) (s : St) :
  let r := Lambda.startDatabaseService env aws fuel s in
  match Lambda.ending r with
  | Returned _ =>
      (exists waits,
          waitedFor (Lambda.DescribeDBInstances (Lambda.RDS_DB_IDENTIFIER env))
                    (Lambda.databaseStatuses (Lambda.steps r))
                    (tl (Lambda.commands (Lambda.steps r))) (Lambda.steps r) waits
          /\ hd_error (Lambda.commands (Lambda.steps r))
             = Some (Lambda.StartDBInstance (Lambda.RDS_DB_IDENTIFIER env)))
      /\ exists status answers,
          Lambda.steps r
          = ([Lambda.Log [Lambda.Text "Starting the Database service..."];
              Lambda.Sent (Lambda.StartDBInstance (Lambda.RDS_DB_IDENTIFIER env))
                          (Ok (Lambda.DBInstance status))]
               ++ databaseRounds env status answers
               ++ [Lambda.Log [Lambda.Text "Started the RDS service"]])%list
  | _ => True
  end.
Proof.
  intros r. pose proof (startDatabaseService_waited fuel s) as Hw. cbv zeta in Hw.
  fold r in Hw. destruct (Lambda.ending r) as [[]|x|] eqn:Eo; try exact I.
  split; [exact Hw|]. clear Hw. subst r. revert Eo. unfold Lambda.startDatabaseService.
  handler_steps. unfold Lambda.send.
  destruct (aws s _) as [s1 [resp|x]];
    cbn [Lambda.steps Lambda.ending Lambda.final app]; [|discriminate].
  destruct resp as [text|st|sts|g|gs];
    cbn [Lambda.dbInstanceStatus Lambda.ret Lambda.raise Lambda.steps Lambda.ending
         Lambda.final app]; try discriminate.
  handler_steps.
  pose proof (awaitDatabase_rounds fuel st s1) as Hr. cbv zeta in Hr.
  destruct (Lambda.ending (Lambda.awaitDatabase env aws fuel st s1)) as [[]|x|];
    try discriminate.
  intros _. destruct (Hr eq_refl) as (answers & ->).
  cbn [Lambda.log Lambda.steps]. now exists st, answers.
Qed.

(** *** Waiting for the gateway *)

Lemma awaitGateway_run (fuel : nat) (id : string) :
  forall state s,
    let r := Lambda.awaitGateway aws fuel id state s in
    Forall waiting (Lambda.steps r)
    /\ match Lambda.ending r with
       | Returned _ =>
           exists waits,
             waitedFor (Lambda.DescribeNatGateways [id] [])
                       (state :: Lambda.gatewayStatuses (Lambda.steps r))
                       (Lambda.commands (Lambda.steps r)) (Lambda.steps r) waits
       | _ => True
       end.
Proof.
  induction fuel as [|fuel IH]; intros state s r; subst r; cbn [Lambda.awaitGateway];
    destruct (state =? "available") eqn:Est.
  - apply String.eqb_eq in Est. subst. split; [constructor|]. exists []. now repeat split.
  - now split.
  - apply String.eqb_eq in Est. subst. split; [constructor|]. exists []. now repeat split.
  - apply String.eqb_neq in Est.
    handler_steps. unfold Lambda.send.
    destruct (aws s _) as [s1 [resp|x]];
      cbn [Lambda.steps Lambda.ending Lambda.final app]; [|split; now repeat constructor].
    destruct resp as [text|st|sts|g|[|g gs]];
      cbn [Lambda.firstGatewayState Lambda.ret Lambda.raise Lambda.steps Lambda.ending
           Lambda.final app]; try (split; now repeat constructor).
    handler_steps.
    destruct (IH (Lambda.GatewayState g) s1) as (Ha & Ho). split.
    + now repeat constructor.
    + destruct (Lambda.ending (Lambda.awaitGateway aws fuel id (Lambda.GatewayState g) s1));
        try exact I.
      destruct Ho as (waits & Hr & Hw & Hc & Hs). exists (state :: waits).
      unfold waitedFor, Lambda.gatewayStatuses, Lambda.commands in *.
      cbn [Obs.pick Lambda.gatewayStatus Lambda.command_of filter isSleepStep length repeat].
      rewrite Hr, Hc, Hs. repeat split; auto.
Qed.

Lemma waiting_actions (tr : list Lambda.event) :
  Forall waiting tr -> Lambda.actions tr = [].
Proof.
  unfold Lambda.actions, Lambda.commands.
  induction 1 as [|e tr He _ IH]; [reflexivity|].
  destruct e as [args|c r|ms]; simpl in *; auto. now rewrite He.
Qed.

(** X13. [createNatGateway] replaces the route only after it has read the
    state "available" of the gateway it created, and the route it installs
    is the default route of the configured route table through that very
    gateway. *)
Theorem route_goes_through_the_created_gateway (fuel : nat) (s : St)
        (routeTableId cidr natGatewayId : string) (answer : result Lambda.response) :
  let r := Lambda.createNatGateway env aws fuel s in
  In (Lambda.Sent (Lambda.ReplaceRoute routeTableId cidr natGatewayId) answer) (Lambda.steps r) ->
  routeTableId = Lambda.ROUTE_TABLE_ID env
  /\ cidr = "0.0.0.0/0"
  /\ (exists g, In (Lambda.Sent (Lambda.CreateNatGateway (Lambda.NAT_SUBNET_ID env)
                                   (Lambda.NAT_ALLOCATION_ID env)
                                   (Lambda.NEW_NAT_GATEWAY_NAME env))
                                (Ok (Lambda.Gateway g))) (Lambda.steps r)
                 /\ natGatewayId = Lambda.NatGatewayId g)
  /\ exists waits,
      Lambda.gatewayStatuses (Lambda.steps r) = (waits ++ ["available"])%list
      /\ Forall (fun st => st <> "available") waits.
Proof.
  intros r Hin. subst r. unfold Lambda.createNatGateway in *.
  revert Hin. handler_steps. unfold Lambda.send.
  destruct (aws s _) as [s1 [resp|x]];
    cbn [Lambda.steps Lambda.ending Lambda.final app].
  2:{ intros [H|[H|[]]]; discriminate. }
  destruct resp as [text|st|sts|g|gs];
    cbn [Lambda.createdGateway Lambda.ret Lambda.raise Lambda.steps Lambda.ending
         Lambda.final app];
    try (intros [H|[H|[]]]; discriminate).
  handler_steps.
  destruct (awaitGateway_run fuel (Lambda.NatGatewayId g) (Lambda.GatewayState g) s1)
    as (Hw & Ho).
  set (ra := Lambda.awaitGateway aws fuel (Lambda.NatGatewayId g) (Lambda.GatewayState g) s1)
    in *.
  intros Hin. cbn [In] in Hin. destruct Hin as [H|[H|Hin]]; try discriminate.
  apply in_app_or in Hin.
  assert (Hnot : ~ In (Lambda.Sent (Lambda.ReplaceRoute routeTableId cidr natGatewayId) answer)
                      (Lambda.steps ra)).
  { intros Hi. rewrite Forall_forall in Hw. specialize (Hw _ Hi). discriminate. }
  destruct Hin as [Hin|Hin]; [contradiction|].
  destruct (Lambda.ending ra) as [[]|x|]; try (now destruct Hin).
  destruct Ho as (waits & Hr & Hwaits & _ & _).
  revert Hin. handler_steps.
  destruct (aws (Lambda.final ra) _) as [s2 [resp|x]];
    cbn [Lambda.steps Lambda.ending Lambda.final app In]; intros Hin.
  - destruct Hin as [[= <- <- <- _]|[H|[]]]; [|discriminate].
    split; [reflexivity|]. split; [reflexivity|]. split.
    + exists g. split; [right; now left|reflexivity].
    + exists waits. split; [|exact Hwaits].
      unfold Lambda.gatewayStatuses in *.
      cbn [Obs.pick Lambda.gatewayStatus]. rewrite pick_app. cbn [Obs.pick Lambda.gatewayStatus].
      now rewrite app_nil_r.
  - destruct Hin as [[= <- <- <- _]|[]].
    split; [reflexivity|]. split; [reflexivity|]. split.
    + exists g. split; [right; now left|reflexivity].
    + exists waits. split; [|exact Hwaits].
      unfold Lambda.gatewayStatuses in *.
      cbn [Obs.pick Lambda.gatewayStatus]. rewrite pick_app. cbn [Obs.pick Lambda.gatewayStatus].
      now rewrite app_nil_r.
Qed.

(** *** Following a plan *)

Lemma isPrefix_app_l {X : Type} (p l q : list X) :
  isPrefix l q -> isPrefix (p ++ l) (p ++ q).
Proof. intros [rest ->]. exists rest. now rewrite app_assoc. Qed.

Lemma isPrefix_weaken {X : Type} (l p q : list X) : isPrefix l p -> isPrefix l (p ++ q).
Proof. intros [rest ->]. exists (rest ++ q)%list. now rewrite app_assoc. Qed.

Lemma follows_bind {X Y} (m : @Lambda.M St X) (k : X -> @Lambda.M St Y)
      (p1 p2 : list Lambda.command) (s : St) :
  follows p1 (m s) ->
  (forall x, Lambda.ending (m s) = Returned x -> follows p2 (k x (Lambda.final (m s)))) ->
  follows (p1 ++ p2) (Lambda.bind m k s).
Proof.
  intros [Hp Hr] Hk. unfold follows. rewrite steps_bind, ending_bind, actions_app.
  destruct (Lambda.ending (m s)) as [x|e|].
  - destruct (Hk x eq_refl) as [Hp' Hr']. rewrite Hr. split; [now apply isPrefix_app_l|].
    destruct (Lambda.ending (k x (Lambda.final (m s)))); auto. now rewrite Hr'.
  - cbn. rewrite app_nil_r. split; [now apply isPrefix_weaken|exact I].
  - cbn. rewrite app_nil_r. split; [now apply isPrefix_weaken|exact I].
Qed.

(** The same when the plan of the second part depends on what it finds. *)
Lemma follows_bind_found {X Y I} (plan : I -> list Lambda.command) (i0 : I)
      (m : @Lambda.M St X) (k : X -> @Lambda.M St Y) (p1 : list Lambda.command) (s : St) :
  follows p1 (m s) ->
  (forall x, Lambda.ending (m s) = Returned x ->
             exists i, follows (plan i) (k x (Lambda.final (m s)))) ->
  exists i, follows (p1 ++ plan i) (Lambda.bind m k s).
Proof.
  intros Hm Hk. destruct (Lambda.ending (m s)) as [x|e|] eqn:E.
  - destruct (Hk x eq_refl) as [i Hi]. exists i. apply follows_bind; [exact Hm|].
    intros x' E'. rewrite E in E'. now injection E' as <-.
  - exists i0. apply follows_bind; [exact Hm|]. intros x E'. congruence.
  - exists i0. apply follows_bind; [exact Hm|]. intros x E'. congruence.
Qed.

Lemma follows_log (args : list Lambda.arg) (s : St) : follows [] (@Lambda.log St args s).
Proof. split; [now exists []|reflexivity]. Qed.

Lemma follows_ret {X} (x : X) (s : St) : follows [] (@Lambda.ret St X x s).
Proof. split; [now exists []|reflexivity]. Qed.

Lemma follows_raise {X} (e : error) (s : St) : follows [] (@Lambda.raise St X e s).
Proof. split; [now exists []|exact I]. Qed.

Lemma follows_send (c : Lambda.command) (s : St) :
  Lambda.isDescribe c = false -> follows [c] (Lambda.send aws c s).
Proof.
  intros H. unfold follows, Lambda.send, Lambda.actions, Lambda.commands.
  destruct (aws s c) as [s' [r|x]]; cbn; rewrite H; cbn; (split; [now exists []|auto]).
Qed.

Lemma follows_quiet {X} (r : Lambda.Steps St X) :
  Lambda.actions (Lambda.steps r) = [] -> follows [] r.
Proof. intros H. unfold follows. rewrite H. split; [now exists []|now destruct (Lambda.ending r)]. Qed.

(** A handler that logs the error and throws it again changes nothing of
    the plan. *)
Lemma follows_tryCatch {X} (body : @Lambda.M St X) (line : error -> list Lambda.arg)
      (plan : list Lambda.command) (s : St) :
  follows plan (body s) ->
  follows plan (Lambda.tryCatch body
                  (fun error => Lambda.bind (Lambda.log (line error))
                                            (fun _ => Lambda.raise error)) s).
Proof.
  intros [Hp Hr]. unfold follows. rewrite steps_tryCatch, ending_tryCatch, actions_app.
  destruct (Lambda.ending (body s)) as [x|e|]; cbn; rewrite app_nil_r; now split.
Qed.

Lemma follows_albRules (line : string) (rules : list Lambda.RulePriority) (s : St) :
  follows [Lambda.SetRulePriorities rules]
    (Lambda.bind (Lambda.log [Lambda.Text line])
       (fun _ =>
          Lambda.tryCatch
            (Lambda.bind (Lambda.send aws (Lambda.SetRulePriorities rules))
               (fun r => Lambda.log
                           [Lambda.Text "Modified ALB rules and routes the traffic tp static Under Maintenance HTML page. Response:";
                            Lambda.Obj r]))
            (fun error =>
               Lambda.bind
                 (Lambda.log [Lambda.Text "Error while re-prioritizing the rules";
                              Lambda.Text error])
                 (fun _ => Lambda.raise error))) s).
Proof.
  apply (follows_bind _ _ [] [Lambda.SetRulePriorities rules]); [apply follows_log|].
  intros _ _.
  apply (follows_tryCatch _ (fun error => [Lambda.Text "Error while re-prioritizing the rules";
                                           Lambda.Text error])).
  apply (follows_bind _ _ [Lambda.SetRulePriorities rules] []);
    [now apply follows_send|intros r _; apply follows_log].
Qed.

Lemma follows_startDatabaseService (fuel : nat) (s : St) :
  follows [Lambda.StartDBInstance (Lambda.RDS_DB_IDENTIFIER env)]
          (Lambda.startDatabaseService env aws fuel s).
Proof.
  unfold Lambda.startDatabaseService.
  apply (follows_bind _ _ [] [_]); [apply follows_log|intros _ _].
  apply (follows_bind _ _ [_] []); [now apply follows_send|intros r _].
  apply (follows_bind _ _ [] []).
  - destruct r; (apply follows_ret || apply follows_raise).
  - intros st _. apply (follows_bind _ _ [] []); [|intros _ _; apply follows_log].
    apply follows_quiet. apply awaitDatabase_run.
Qed.

Lemma follows_startFargateServices (s : St) :
  follows [Lambda.UpdateService (Lambda.FARGATE_CLUSTER_NAME env)
                                (Lambda.REST_API_SERVICE_NAME env) 1;
           Lambda.UpdateService (Lambda.FARGATE_CLUSTER_NAME env)
                                (Lambda.WEB_UI_SERVICE_NAME env) 1]
          (Lambda.startFargateServices env aws s).
Proof.
  unfold Lambda.startFargateServices.
  apply (follows_bind _ _ [] [_; _]); [apply follows_log|intros _ _].
  apply (follows_bind _ _ [_] [_]); [now apply follows_send|intros r _].
  apply (follows_bind _ _ [] [_]); [apply follows_log|intros _ _].
  apply (follows_bind _ _ [_] []); [now apply follows_send|intros r' _].
  apply follows_log.
Qed.

Lemma follows_createNatGateway (fuel : nat) (s : St) :
  exists natGatewayId,
    follows (gatewayPlan env natGatewayId) (Lambda.createNatGateway env aws fuel s).
Proof.
  unfold Lambda.createNatGateway, gatewayPlan.
  assert (Hcut : forall (r : Lambda.Steps St unit) id,
             follows ([] ++ [Lambda.CreateNatGateway (Lambda.NAT_SUBNET_ID env)
                               (Lambda.NAT_ALLOCATION_ID env) (Lambda.NEW_NAT_GATEWAY_NAME env)]
                         ++ [Lambda.ReplaceRoute (Lambda.ROUTE_TABLE_ID env) "0.0.0.0/0" id]) r ->
             follows [Lambda.CreateNatGateway (Lambda.NAT_SUBNET_ID env)
                        (Lambda.NAT_ALLOCATION_ID env) (Lambda.NEW_NAT_GATEWAY_NAME env);
                      Lambda.ReplaceRoute (Lambda.ROUTE_TABLE_ID env) "0.0.0.0/0" id] r)
    by (intros r id H; exact H).
  enough (exists id,
             follows ([] ++ [Lambda.CreateNatGateway (Lambda.NAT_SUBNET_ID env)
                               (Lambda.NAT_ALLOCATION_ID env) (Lambda.NEW_NAT_GATEWAY_NAME env)]
                         ++ [Lambda.ReplaceRoute (Lambda.ROUTE_TABLE_ID env) "0.0.0.0/0" id])
                     (Lambda.createNatGateway env aws fuel s)) as [id H]
      by (exists id; now apply Hcut).
  unfold Lambda.createNatGateway.
  apply (follows_bind_found
           (fun id => [Lambda.CreateNatGateway (Lambda.NAT_SUBNET_ID env)
                         (Lambda.NAT_ALLOCATION_ID env) (Lambda.NEW_NAT_GATEWAY_NAME env)]
                        ++ [Lambda.ReplaceRoute (Lambda.ROUTE_TABLE_ID env) "0.0.0.0/0" id])%list
           "" _ _ []); [apply follows_log|intros _ _].
  apply (follows_bind_found
           (fun id => [Lambda.ReplaceRoute (Lambda.ROUTE_TABLE_ID env) "0.0.0.0/0" id])
           "" _ _ [_]); [now apply follows_send|intros r _].
  destruct r as [text|st|sts|g|gs];
    try (exists ""; apply (follows_bind _ _ [] [_]); [apply follows_raise|];
         intros x E; discriminate).
  exists (Lambda.NatGatewayId g).
  apply (follows_bind _ _ [] [_]); [apply follows_ret|intros g' [= <-]].
  apply (follows_bind _ _ [] [_]).
  - apply follows_quiet. apply waiting_actions. apply awaitGateway_run.
  - intros _ _. apply (follows_bind _ _ [_] []); [now apply follows_send|].
    intros _ _. apply follows_log.
Qed.

(** X14. The start handler changes things in one fixed order: it starts the
    database, sets the desired count of the REST API service and then of
    the web UI service to 1, puts the rule of the site before the rule of
    the maintenance page, creates the NAT gateway and routes through it.
    At every moment what it has done is a beginning of this list; when it
    returns it has done all of it, and what it returns is status 200. *)
Theorem start_handler_follows_its_plan (fuel : nat) (s : St) :
  let r := Lambda.startHandler env aws fuel s in
  (exists natGatewayId, follows (startPlan env natGatewayId) r)
  /\ match Lambda.ending r with
     | Returned reply => reply = Lambda.startedReply
     | _ => True
     end.
Proof.
  intros r. subst r. split.
  - unfold Lambda.startHandler.
    enough (exists id,
               follows ([Lambda.StartDBInstance (Lambda.RDS_DB_IDENTIFIER env)]
                          ++ [Lambda.UpdateService (Lambda.FARGATE_CLUSTER_NAME env)
                                                   (Lambda.REST_API_SERVICE_NAME env) 1;
                              Lambda.UpdateService (Lambda.FARGATE_CLUSTER_NAME env)
                                                   (Lambda.WEB_UI_SERVICE_NAME env) 1]
                          ++ [Lambda.SetRulePriorities (Lambda.startPriorities env)]
                          ++ gatewayPlan env id ++ [])
                       (Lambda.bind (Lambda.startDatabaseService env aws fuel)
                          (fun _ => Lambda.bind (Lambda.startFargateServices env aws)
                             (fun _ => Lambda.bind (Lambda.albRulesHandlerStart env aws)
                                (fun _ => Lambda.bind (Lambda.createNatGateway env aws fuel)
                                   (fun _ => Lambda.ret Lambda.startedReply)))) s))
      as [id H].
    { exists id. rewrite app_nil_r in H.
      apply (follows_tryCatch _ (fun error =>
               [Lambda.Text "Error starting the services or modifying ALB rules:";
                Lambda.Text error])).
      exact H. }
    apply (follows_bind_found
             (fun id => [Lambda.UpdateService (Lambda.FARGATE_CLUSTER_NAME env)
                                              (Lambda.REST_API_SERVICE_NAME env) 1;
                         Lambda.UpdateService (Lambda.FARGATE_CLUSTER_NAME env)
                                              (Lambda.WEB_UI_SERVICE_NAME env) 1]
                          ++ [Lambda.SetRulePriorities (Lambda.startPriorities env)]
                          ++ gatewayPlan env id ++ [])%list "");
      [apply follows_startDatabaseService|intros _ _].
    apply (follows_bind_found
             (fun id => [Lambda.SetRulePriorities (Lambda.startPriorities env)]
                          ++ gatewayPlan env id ++ [])%list "");
      [apply follows_startFargateServices|intros _ _].
    apply (follows_bind_found (fun id => gatewayPlan env id ++ [])%list "");
      [apply follows_albRules|intros _ _].
    destruct (follows_createNatGateway fuel
                (Lambda.final (Lambda.albRulesHandlerStart env aws
                   (Lambda.final (Lambda.startFargateServices env aws
                      (Lambda.final (Lambda.startDatabaseService env aws fuel s)))))))
      as [id Hid].
    exists id. apply follows_bind; [exact Hid|intros _ _; apply follows_ret].
  - unfold Lambda.startHandler. rewrite ending_tryCatch.
    repeat (rewrite ending_bind;
            match goal with
            | |- context [match Lambda.ending ?r with _ => _ end] =>
                destruct (Lambda.ending r); try exact I
            end).
    reflexivity.
Qed.

(** *** The database comes first *)

Lemma besideDatabase_awaitGateway (fuel : nat) (id : string) :
  forall state, StepsAll besideDatabase (Lambda.awaitGateway aws fuel id state).
Proof.
  induction fuel as [|fuel IH]; intros state; cbn [Lambda.awaitGateway];
    destruct (state =? "available"); try (apply StepsAll_none; reflexivity).
  apply StepsAll_bind; [intros s; now repeat constructor|intros _].
  apply StepsAll_bind; [intros s; now repeat constructor|intros _].
  apply StepsAll_bind; [apply StepsAll_send; intros [[]|]; reflexivity|intros r].
  apply StepsAll_bind; [|intros st; apply IH].
  destruct r as [| | | |[|]]; apply StepsAll_none; reflexivity.
Qed.

Lemma besideDatabase_albRules (line : string) (rules : list Lambda.RulePriority) :
  StepsAll besideDatabase
    (Lambda.bind (Lambda.log [Lambda.Text line])
       (fun _ =>
          Lambda.tryCatch
            (Lambda.bind (Lambda.send aws (Lambda.SetRulePriorities rules))
               (fun r => Lambda.log
                           [Lambda.Text "Modified ALB rules and routes the traffic tp static Under Maintenance HTML page. Response:";
                            Lambda.Obj r]))
            (fun error =>
               Lambda.bind
                 (Lambda.log [Lambda.Text "Error while re-prioritizing the rules";
                              Lambda.Text error])
                 (fun _ => Lambda.raise error)))).
Proof.
  apply StepsAll_bind; [intros s; now repeat constructor|intros _].
  apply StepsAll_tryCatch.
  - apply StepsAll_bind; [apply StepsAll_send; intros [[]|]; reflexivity|intros r].
    intros s; now repeat constructor.
  - intros e. apply StepsAll_bind; [intros s; now repeat constructor|intros _].
    apply StepsAll_none; reflexivity.
Qed.

Lemma besideDatabase_rest (fuel : nat) :
  StepsAll besideDatabase
    (Lambda.bind (Lambda.startFargateServices env aws)
       (fun _ => Lambda.bind (Lambda.albRulesHandlerStart env aws)
          (fun _ => Lambda.bind (Lambda.createNatGateway env aws fuel)
             (fun _ => Lambda.ret Lambda.startedReply)))).
Proof.
  apply StepsAll_bind.
  - unfold Lambda.startFargateServices.
    apply StepsAll_bind; [intros s; now repeat constructor|intros _].
    apply StepsAll_bind; [apply StepsAll_send; intros [[]|]; reflexivity|intros r].
    apply StepsAll_bind; [intros s; now repeat constructor|intros _].
    apply StepsAll_bind; [apply StepsAll_send; intros [[]|]; reflexivity|intros r'].
    intros s; now repeat constructor.
  - intros _. apply StepsAll_bind; [apply besideDatabase_albRules|intros _].
    apply StepsAll_bind; [|intros _; apply StepsAll_none; reflexivity].
    unfold Lambda.createNatGateway.
    apply StepsAll_bind; [intros s; now repeat constructor|intros _].
    apply StepsAll_bind; [apply StepsAll_send; intros [[]|]; reflexivity|intros r].
    apply StepsAll_bind.
    + destruct r; apply StepsAll_none; reflexivity.
    + intros g. apply StepsAll_bind; [apply besideDatabase_awaitGateway|intros _].
      apply StepsAll_bind; [apply StepsAll_send; intros [[]|]; reflexivity|intros _].
      intros s; now repeat constructor.
Qed.

(** X15. In the start handler nothing but the start of the database happens
    before the database is available: if the handler has sent any command
    that changes something besides StartDBInstance - a service update, the
    switch of the rules, the creation of the gateway - then the last state
    of the database it read was "available", and it has not looked at the
    database since. *)
Theorem services_start_after_database (fuel : nat) (s : St) :
  let r := Lambda.startHandler env aws fuel s in
  2 <= length (Lambda.actions (Lambda.steps r)) ->
  exists waits,
    Lambda.databaseStatuses (Lambda.steps r) = (waits ++ ["available"])%list
    /\ Forall (fun st => st <> "available") waits.
Proof.
  intros r. subst r. unfold Lambda.startHandler.
  rewrite steps_tryCatch, steps_bind, ending_bind.
  pose proof (follows_startDatabaseService fuel s) as [[rest Hrest] _].
  pose proof (startDatabaseService_waited fuel s) as Hw. cbv zeta in Hw.
  set (r0 := Lambda.startDatabaseService env aws fuel s) in *.
  assert (Hone : length (Lambda.actions (Lambda.steps r0)) <= 1).
  { apply (f_equal (@length _)) in Hrest. rewrite length_app in Hrest.
    cbn [length] in Hrest. lia. }
  destruct (Lambda.ending r0) as [[]|x|].
  - intros _. destruct Hw as (waits & (Hr & Hwaits & _ & _) & _). exists waits.
    split; [|exact Hwaits].
    pose proof (besideDatabase_rest fuel (Lambda.final r0)) as Hall.
    unfold Lambda.databaseStatuses in *. rewrite !pick_app, Hr.
    rewrite (pick_none Lambda.databaseStatus _ Hall).
    destruct (Lambda.ending _); cbn; now rewrite ?app_nil_r.
  - rewrite app_nil_r, actions_app. handler_steps.
    change (Lambda.actions [Lambda.Log _]) with (@nil Lambda.command).
    rewrite app_nil_r. lia.
  - rewrite !app_nil_r. lia.
Qed.

(** *** The stop handler *)

Lemma follows_deleteNatGateway (s : St) :
  exists found, follows (deletion found) (Lambda.deleteNatGateway env aws s).
Proof.
  unfold Lambda.deleteNatGateway.
  apply (follows_bind_found deletion None _ _ []); [apply follows_log|intros _ _].
  apply (follows_bind_found deletion None _ _ []).
  { apply follows_quiet. unfold Lambda.send, Lambda.actions, Lambda.commands.
    now destruct (aws _ _) as [s' [r|x]]. }
  intros r _.
  destruct r as [text|st|sts|g|gs];
    try (exists None; apply (follows_bind _ _ [] []); [apply follows_raise|];
         intros x E; discriminate).
  cbn [Lambda.gatewayList].
  destruct (find (Lambda.hasNameTag (Lambda.NEW_NAT_GATEWAY_NAME env)) gs) as [g|] eqn:Ef.
  - exists (Some (Lambda.NatGatewayId g)).
    apply (follows_bind _ _ [] [_]); [apply follows_ret|intros gs' [= <-]]. rewrite Ef.
    apply (follows_bind _ _ [] [_]); [apply follows_log|intros _ _].
    apply (follows_bind _ _ [_] []); [now apply follows_send|intros r' _].
    apply follows_log.
  - exists None.
    apply (follows_bind _ _ [] []); [apply follows_ret|intros gs' [= <-]]. rewrite Ef.
    apply follows_log.
Qed.

(** X16. The stop handler changes things in one fixed order: it puts the
    rule of the maintenance page before the rule of the site, sets the
    desired count of the web UI service and then of the REST API service
    to 0, stops the database, and last deletes the NAT gateway if it found
    one.  At every moment what it has done is a beginning of this list, so
    nothing is stopped before the traffic was switched; when it returns it
    has done all of it, and what it returns is status 200. *)
Theorem stop_handler_follows_its_plan (s : St) :
  let r := Lambda.stopHandler env aws s in
  (exists found, follows (stopPlan env ++ deletion found) r)
  /\ match Lambda.ending r with
     | Returned reply => reply = Lambda.stoppedReply
     | _ => True
     end.
Proof.
  intros r. subst r. split.
  - unfold Lambda.stopHandler.
    enough (exists found,
               follows ([] ++ [Lambda.SetRulePriorities (Lambda.stopPriorities env)]
                          ++ [Lambda.UpdateService (Lambda.FARGATE_CLUSTER_NAME env)
                                                   (Lambda.WEB_UI_SERVICE_NAME env) 0;
                              Lambda.UpdateService (Lambda.FARGATE_CLUSTER_NAME env)
                                                   (Lambda.REST_API_SERVICE_NAME env) 0]
                          ++ [Lambda.StopDBInstance (Lambda.RDS_DB_IDENTIFIER env)]
                          ++ deletion found ++ [])
                       (Lambda.bind (Lambda.log [Lambda.Text "Stopping services..."])
                          (fun _ => Lambda.bind (Lambda.albRulesHandlerStop env aws)
                             (fun _ => Lambda.bind (Lambda.stopFargateService env aws)
                                (fun _ => Lambda.bind (Lambda.stopDatabaseService env aws)
                                   (fun _ => Lambda.bind (Lambda.deleteNatGateway env aws)
                                      (fun _ => Lambda.ret Lambda.stoppedReply))))) s))
      as [found H].
    { exists found. rewrite app_nil_r in H.
      apply (follows_tryCatch _ (fun error =>
               [Lambda.Text "Error stopping the services or modifying ALB rules:";
                Lambda.Text error])).
      exact H. }
    apply (follows_bind_found
             (fun found => [Lambda.SetRulePriorities (Lambda.stopPriorities env)]
                          ++ [Lambda.UpdateService (Lambda.FARGATE_CLUSTER_NAME env)
                                                   (Lambda.WEB_UI_SERVICE_NAME env) 0;
                              Lambda.UpdateService (Lambda.FARGATE_CLUSTER_NAME env)
                                                   (Lambda.REST_API_SERVICE_NAME env) 0]
                          ++ [Lambda.StopDBInstance (Lambda.RDS_DB_IDENTIFIER env)]
                          ++ deletion found ++ [])%list None);
      [apply follows_log|intros _ _].
    apply (follows_bind_found
             (fun found => [Lambda.UpdateService (Lambda.FARGATE_CLUSTER_NAME env)
                                                   (Lambda.WEB_UI_SERVICE_NAME env) 0;
                              Lambda.UpdateService (Lambda.FARGATE_CLUSTER_NAME env)
                                                   (Lambda.REST_API_SERVICE_NAME env) 0]
                          ++ [Lambda.StopDBInstance (Lambda.RDS_DB_IDENTIFIER env)]
                          ++ deletion found ++ [])%list None);
      [apply follows_albRules|intros _ _].
    apply (follows_bind_found
             (fun found => [Lambda.StopDBInstance (Lambda.RDS_DB_IDENTIFIER env)]
                          ++ deletion found ++ [])%list None).
    { unfold Lambda.stopFargateService.
      apply (follows_bind _ _ [] [_; _]); [apply follows_log|intros _ _].
      apply (follows_bind _ _ [_] [_]); [now apply follows_send|intros r _].
      apply (follows_bind _ _ [] [_]); [apply follows_log|intros _ _].
      apply (follows_bind _ _ [_] []); [now apply follows_send|intros r' _].
      apply follows_log. }
    intros _ _.
    apply (follows_bind_found (fun found => deletion found ++ [])%list None).
    { unfold Lambda.stopDatabaseService.
      apply (follows_bind _ _ [] [_]); [apply follows_log|intros _ _].
      apply (follows_bind _ _ [_] []); [now apply follows_send|intros r _].
      apply follows_log. }
    intros _ _.
    match goal with
    | |- exists i, follows _ (Lambda.bind _ _ ?w) =>
        destruct (follows_deleteNatGateway w) as [found Hf]
    end.
    exists found. apply follows_bind; [exact Hf|intros _ _; apply follows_ret].
  - unfold Lambda.stopHandler. rewrite ending_tryCatch.
    repeat (rewrite ending_bind;
            match goal with
            | |- context [match Lambda.ending ?r with _ => _ end] =>
                destruct (Lambda.ending r); try exact I
            end).
    reflexivity.
Qed.

(** *** Which gateway is deleted *)

Lemma isNameTag_spec (name : string) (tag : Lambda.Tag) :
  Lambda.isNameTag name tag = true <-> tag = nameTag name.
Proof.
  unfold Lambda.isNameTag, nameTag. destruct tag as [k v]. simpl.
  rewrite andb_true_iff, !String.eqb_eq. split; [intros [-> ->]; reflexivity|].
  now intros [= -> ->].
Qed.

Lemma hasNameTag_spec (name : string) (g : Lambda.NatGateway) :
  Lambda.hasNameTag name g = true <-> tagged name g.
Proof.
  unfold Lambda.hasNameTag, tagged. destruct (Lambda.Tags g) as [tags|].
  - destruct (find (Lambda.isNameTag name) tags) as [tag|] eqn:Ef.
    + apply find_some in Ef. destruct Ef as [Hin Htag]. apply isNameTag_spec in Htag.
      subst. split; [|reflexivity]. intros _. now exists tags.
    + split; [discriminate|]. intros (tags' & [= <-] & Hin).
      apply (find_none _ _ Ef) in Hin.
      assert (Lambda.isNameTag name (nameTag name) = true) by now apply isNameTag_spec.
      congruence.
  - split; [discriminate|]. now intros (tags & [=] & _).
Qed.

Lemma find_first {X : Type} (f : X -> bool) (l : list X) (x : X) :
  find f l = Some x ->
  exists before after,
    l = (before ++ x :: after)%list /\ f x = true /\ Forall (fun y => f y = false) before.
Proof.
  induction l as [|y l IH]; [discriminate|]. simpl. destruct (f y) eqn:Ey.
  - intros [= ->]. exists [], l. now repeat split.
  - intros H. destruct (IH H) as (before & after & -> & Hx & Hb).
    exists (y :: before), after. repeat split; auto.
Qed.

(** X17. [deleteNatGateway] asks for the available gateways and deletes, of
    those it is shown, the first one that carries the tag Name with the
    configured name, and no other; gateways without tags are passed over.
    When none of them carries the tag it deletes nothing, says so in the
    log and returns normally. *)
Theorem first_tagged_gateway_is_deleted (s : St) (gateways : list Lambda.NatGateway) :
  let r := Lambda.deleteNatGateway env aws s in
  let name := Lambda.NEW_NAT_GATEWAY_NAME env in
  In (Lambda.Sent availableGateways (Ok (Lambda.Gateways gateways))) (Lambda.steps r) ->
  match find (Lambda.hasNameTag name) gateways with
  | Some g =>
      exists before after,
        gateways = (before ++ g :: after)%list
        /\ tagged name g
        /\ Forall (fun g' => ~ tagged name g') before
        /\ Lambda.commands (Lambda.steps r)
           = [availableGateways; Lambda.DeleteNatGateway (Lambda.NatGatewayId g)]
  | None =>
      Forall (fun g' => ~ tagged name g') gateways
      /\ Lambda.commands (Lambda.steps r) = [availableGateways]
      /\ Lambda.ending r = Returned tt
      /\ In (Lambda.Log [Lambda.Text ("No NAT Gateway found with the name " ++ name)])
            (Lambda.steps r)
  end.
Proof.
  intros r name. subst r name. unfold Lambda.deleteNatGateway, availableGateways.
  handler_steps. unfold Lambda.send.
  destruct (aws s _) as [s1 [resp|x]];
    cbn [Lambda.steps Lambda.ending Lambda.final app In].
  2:{ intros [H|[H|[]]]; discriminate. }
  destruct resp as [text|st|sts|g0|gs];
    cbn [Lambda.gatewayList Lambda.ret Lambda.raise Lambda.steps Lambda.ending
         Lambda.final app];
    try (intros [H|[H|[]]]; discriminate).
  handler_steps.
  assert (Hrest : forall (tail : list Lambda.event),
             Forall (fun e => forall gs', e <> Lambda.Sent
                                  (Lambda.DescribeNatGateways [] [("state", ["available"])])
                                  (Ok (Lambda.Gateways gs'))) tail ->
             In (Lambda.Sent (Lambda.DescribeNatGateways [] [("state", ["available"])])
                             (Ok (Lambda.Gateways gateways)))
                (Lambda.Log [Lambda.Text "Deleting the NAT Gateway..."]
                   :: Lambda.Sent (Lambda.DescribeNatGateways [] [("state", ["available"])])
                                  (Ok (Lambda.Gateways gs)) :: tail) ->
             gateways = gs).
  { intros tail Hall [H|[[= ->]|H]]; [discriminate|reflexivity|].
    rewrite Forall_forall in Hall. exfalso. exact (Hall _ H gateways eq_refl). }
  destruct (find (Lambda.hasNameTag (Lambda.NEW_NAT_GATEWAY_NAME env)) gs) as [g|] eqn:Ef.
  - handler_steps.
    destruct (aws s1 _) as [s2 [resp|x]];
      cbn [Lambda.steps Lambda.ending Lambda.final app]; intros Hin;
      apply Hrest in Hin; try (repeat constructor; discriminate);
      subst gs; rewrite Ef;
      destruct (find_first _ _ _ Ef) as (before & after & -> & Hg & Hb);
      exists before, after; (split; [reflexivity|]);
      (split; [now apply hasNameTag_spec|]);
      (split; [|reflexivity]);
      (eapply Forall_impl; [|exact Hb]); intros g' Hg' Ht;
      apply hasNameTag_spec in Ht; congruence.
  - intros Hin. apply Hrest in Hin; [|repeat constructor; discriminate].
    subst gs. rewrite Ef. split.
    + apply Forall_forall. intros g' Hin' Ht. apply hasNameTag_spec in Ht.
      pose proof (find_none _ _ Ef _ Hin'). congruence.
    + split; [reflexivity|]. split; [reflexivity|]. right; right; now left.
Qed.

End HandlerPlans.

Lemma route_goes_through_the_created_gateway_witness :
  In (Lambda.Sent (Lambda.ReplaceRoute "rtb" "0.0.0.0/0" "nat-9") (Ok (Lambda.Shown "{}")))
     (Lambda.steps friendlyGateway)
  /\ Lambda.gatewayStatuses (Lambda.steps friendlyGateway)
     = ["pending"; "pending"; "available"].
Proof.
  assert (Hin : In (Lambda.Sent (Lambda.ReplaceRoute "rtb" "0.0.0.0/0" "nat-9")
                                (Ok (Lambda.Shown "{}")))
                   (Lambda.steps friendlyGateway)).
  { vm_compute. intuition. }
  split; [exact Hin|].
  destruct (route_goes_through_the_created_gateway lambdaEnv friendly 5 0 _ _ _ _ Hin)
    as (_ & _ & _ & waits & Hw & _).
  vm_compute. reflexivity.
Defined.

Lemma services_start_after_database_witness :
  2 <= length (Lambda.actions (Lambda.steps (Lambda.startHandler lambdaEnv friendly 5 0)))
  /\ exists waits,
      Lambda.databaseStatuses (Lambda.steps (Lambda.startHandler lambdaEnv friendly 5 0))
      = (waits ++ ["available"])%list
      /\ Forall (fun st => st <> "available") waits.
Proof.
  assert (H : 2 <= length (Lambda.actions
                             (Lambda.steps (Lambda.startHandler lambdaEnv friendly 5 0)))).
  { vm_compute. repeat constructor. }
  split; [exact H|].
  exact (services_start_after_database lambdaEnv friendly 5 0 H).
Defined.

Lemma first_tagged_gateway_is_deleted_witness :
  In (Lambda.Sent availableGateways
                  (Ok (Lambda.Gateways [otherGateway; untaggedGateway; mainGateway])))
     (Lambda.steps friendlyDelete)
  /\ Lambda.commands (Lambda.steps friendlyDelete)
     = [availableGateways; Lambda.DeleteNatGateway "nat-3"].
Proof.
  assert (Hin : In (Lambda.Sent availableGateways
                      (Ok (Lambda.Gateways [otherGateway; untaggedGateway; mainGateway])))
                   (Lambda.steps friendlyDelete)).
  { vm_compute. intuition. }
  split; [exact Hin|].
  pose proof (first_tagged_gateway_is_deleted lambdaEnv friendly 0 _ Hin) as H.
  vm_compute. reflexivity.
Defined.

Lemma placeholders_follow_first_row_witness :
  nth_error [[Some "1"; Some "alice"]; [Some "2"]; [Some "3"; (None : value)]] 2
  = Some [Some "3"; None]
  /\ 1 < length [Some "3"; (None : value)]
  /\ nth_error (nth 2 (Batch.placeholders
                         [[Some "1"; Some "alice"]; [Some "2"]; [Some "3"; None]]) []) 1
     = Some (Some (2 * 2 + 1 + 1)).
Proof.
  split; [reflexivity|]. split; [repeat constructor|].
  refine (proj2 (placeholders_follow_first_row
                   [[Some "1"; Some "alice"]; [Some "2"]; [Some "3"; None]])
                2 [Some "3"; None] 1 eq_refl _).
  repeat constructor.
Defined.

Lemma one_submission_one_execution_witness :
  In (EvStartQueryExecution (startQueryInput Scenario.config "src_accounts" ["id"; "name"])
                            (Ok "q1"))
     (trace Scenario.accountsRun)
  /\ Forall (fun e => forall i, Seen.execution e = Some i -> i = "q1")
            (trace Scenario.accountsRun).
Proof.
  assert (Hin : In (EvStartQueryExecution
                      (startQueryInput Scenario.config "src_accounts" ["id"; "name"]) (Ok "q1"))
                   (trace Scenario.accountsRun)).
  { vm_compute. intuition. }
  split; [exact Hin|].
  exact (proj2 (proj2 (one_submission_one_execution Scenario.config
                         (Scenario.athenaOf Scenario.accounts) (Scenario.poolOf Scenario.postgres)
                         5 "src_accounts" "accounts" ["id"; "name"] Scenario.start) _ _ Hin)).
Defined.
